(** * Flaze-web: the in-memory repository [MemStorage] of [server/storage.ts]

    A shallow embedding of the storage layer and of the entity shapes of
    [shared/schema.ts], with the properties of the repository proved over it.

    Conventions of the embedding.
    - A JavaScript [number] that holds an identifier, a counter, a length, a
      quantity or a review rating is an integer and is modelled as [Z]; the
      increments of the counters ([++]) are exact on doubles below 2^53.
      The other arithmetic of the file is modelled in IEEE-754 binary64 with
      the library's [SpecFloat]: the sum of two quantities in [addToCart],
      and the average rating, that is the sum of the ratings by [reduce] and
      [(totalRating / approvedReviews.length).toFixed(1)].  An integer
      enters a sum as its double, every addition rounds as the addition of
      doubles does, and so does the division.
    - [T | undefined] is [option T] ([None] is [undefined]); [T | null] is
      [nullable T]; a property of an object literal that is spread
      ([...updateData]) is a [field]: missing, present with the value
      [undefined], or present with a value.
    - A [Map<number, T>] is an association list in insertion order
      ([JsMap]): [set] on an existing key keeps its position, [set] on a new
      key appends, as in JavaScript.
    - Every method of the class runs to completion before another starts
      (none awaits between its reads and writes), so a method is a function
      from the storage to a result and the next storage. *)

From Stdlib Require Import ZArith List Bool String Ascii Lia.
From Stdlib Require Import SpecFloat DecimalString.
From Stdlib Require Import Sorted Permutation.
Import ListNotations.
Local Open Scope string_scope.
Local Open Scope Z_scope.

Set Implicit Arguments.

(** ** JavaScript values *)

(** [T | null]. *)
Inductive nullable (A : Type) : Type :=
| Null : nullable A
| NotNull (a : A) : nullable A.
Arguments Null {A}.
Arguments NotNull {A} a.

(** A property of an object that is spread into another one. *)
Inductive field (A : Type) : Type :=
| Missing : field A
| Undefined : field A
| Given (a : A) : field A.
Arguments Missing {A}.
Arguments Undefined {A}.
Arguments Given {A} a.

(** [{ ...old, ...upd }] at one property whose old value is [old]: a property
    that is present in the update wins, also when its value is [undefined]. *)
Definition spread {A : Type} (old : option A) (upd : field A) : option A :=
  match upd with
  | Missing => old
  | Undefined => None
  | Given a => Some a
  end.

(** [upd.p !== undefined ? upd.p : old]. *)
Definition unless_undefined {A : Type} (upd : field A) (old : A) : A :=
  match upd with
  | Given a => a
  | Missing | Undefined => old
  end.

(** A [number] that is an integer, an infinity or [NaN] (quantities of cart
    items). *)
Inductive jsnum : Type :=
| NaN : jsnum
| Infinity (negative : bool) : jsnum
| Num (z : Z) : jsnum.

(** [q || 1]: [undefined], [NaN] and [0] are falsy. *)
Definition or_one (q : option jsnum) : jsnum :=
  match q with
  | Some (Num z) => if z =? 0 then Num 1 else Num z
  | Some (Infinity negative) => Infinity negative
  | Some NaN | None => Num 1
  end.

Definition nullable_eqb (x y : nullable Z) : bool :=
  match x, y with
  | Null, Null => true
  | NotNull a, NotNull b => a =? b
  | _, _ => false
  end.

(** [x === y] on [number | null | undefined]. *)
Definition owner_eqb (x y : option (nullable Z)) : bool :=
  match x, y with
  | None, None => true
  | Some a, Some b => nullable_eqb a b
  | _, _ => false
  end.

(** ** [Map<number, V>] *)

Module JsMap.
Section Ops.
Variable V : Type.

Definition t := list (Z * V).

Definition empty : t := [].

Fixpoint get (k : Z) (m : t) : option V :=
  match m with
  | [] => None
  | (k', v) :: rest => if k' =? k then Some v else get k rest
  end.

Definition has (k : Z) (m : t) : bool :=
  match get k m with Some _ => true | None => false end.

Fixpoint set (k : Z) (v : V) (m : t) : t :=
  match m with
  | [] => [(k, v)]
  | (k', v') :: rest =>
      if k' =? k then (k', v) :: rest else (k', v') :: set k v rest
  end.

Definition remove (k : Z) (m : t) : t :=
  filter (fun e => negb (fst e =? k)) m.

(** [m.delete(k)]: whether the key was there, and the map without it. *)
Definition delete (k : Z) (m : t) : bool * t := (has k m, remove k m).

Definition values (m : t) : list V := map snd m.

Definition entries (m : t) : list (Z * V) := m.

Definition keys (m : t) : list Z := map fst m.
End Ops.
End JsMap.

(** ** Entities ([shared/schema.ts]) *)

Module Product.
(** [name] to [sizes] are declared as always defined; they are options here
    because [updateProduct] can store [undefined] in them. *)
Record t := mk {
  id : Z;
  name : option string;
  description : option string;
  price : option string;
  image : option string;
  rating : option string;
  reviewCount : Z;
  badge : nullable string;
  sizes : option (list string);
  featured : bool
}.
End Product.

Module InsertProduct.
Record t := mk {
  name : string;
  description : string;
  price : string;
  image : string;
  rating : string;
  reviewCount : option Z;
  badge : option (nullable string);
  sizes : list string;
  featured : option bool
}.
End InsertProduct.

(** [Partial<InsertProduct>]. *)
Module PartialProduct.
Record t := mk {
  name : field string;
  description : field string;
  price : field string;
  image : field string;
  rating : field string;
  reviewCount : field Z;
  badge : field (nullable string);
  sizes : field (list string);
  featured : field bool
}.

Definition none : t :=
  mk Missing Missing Missing Missing Missing Missing Missing Missing Missing.
End PartialProduct.

Module User.
Record t := mk {
  id : Z;
  username : string;
  password : string;
  isAdmin : bool
}.
End User.

Module InsertUser.
Record t := mk {
  username : string;
  password : string
}.
End InsertUser.

Module Review.
Record t := mk {
  id : Z;
  name : string;
  rating : Z;
  comment : string;
  approved : bool;
  createdAt : string
}.
End Review.

Module InsertReview.
Record t := mk {
  name : string;
  rating : Z;
  comment : option (nullable string)
}.
End InsertReview.

Module CartItem.
(** [{ ...insertCartItem, id }]: [userId] and [quantity] are what the
    inserted object had, [undefined] when it had none. *)
Record t := mk {
  id : Z;
  userId : option (nullable Z);
  productId : Z;
  size : string;
  quantity : option jsnum
}.
End CartItem.

Module InsertCartItem.
Record t := mk {
  userId : option (nullable Z);
  productId : Z;
  size : string;
  quantity : option jsnum
}.
End InsertCartItem.

(** ** Binary64 numbers and [Number.prototype.toFixed(1)] *)

Module Double.
Definition prec : Z := 53.
Definition emax : Z := 1024.

(** The double nearest to an integer. *)
Definition of_Z (z : Z) : spec_float := binary_normalize prec emax z 0 false.

(** [x + y]. *)
Definition add (x y : spec_float) : spec_float := SFadd prec emax x y.

(** [x / y]. *)
Definition div (x y : spec_float) : spec_float := SFdiv prec emax x y.

(** The value [m * 2^e] as a fraction of two positive integers. *)
Definition fraction (m : positive) (e : Z) : Z * Z :=
  if 0 <=? e then (Z.pos m * 2 ^ e, 1) else (Z.pos m, 2 ^ (- e)).

(** "Let n be an integer for which n / 10 - x is as close to zero as
    possible. If there are two such n, pick the larger n": the floor of
    [10 * x + 1/2], for [x = num / den]. *)
Definition tenths (num den : Z) : Z := (20 * num + den) / (2 * den).

Definition digits (z : Z) : string :=
  NilZero.string_of_uint (N.to_uint (Z.to_N z)).

(** The digits of [n] with a point before the last one. *)
Definition fixed1 (n : Z) : string :=
  digits (n / 10) ++ "." ++ digits (n mod 10).

(** The integer [v] has [x] as its nearest double. *)
Definition rounds_to (x : spec_float) (v : Z) : bool :=
  SFeqb (of_Z v) x.

(** [Number::toString] of an integer [X >= 10^21] of [nd] digits whose
    double is [x] looks for the least [k] and the [s] of [k] digits with
    [s * 10^(n-k)] rounding to [x]; of two such [s] the closer to [X], and
    the even one when they are as close.  Seventeen digits always do. *)
Fixpoint shortest (fuel : nat) (k nd X : Z) (x : spec_float) : Z * Z * Z :=
  match fuel with
  | O => (X, nd, nd)
  | S fuel' =>
      let p := 10 ^ (nd - k) in
      let lo := X / p in
      let hi := lo + 1 in
      let take_lo := (lo, k, nd) in
      let take_hi := if hi =? 10 ^ k then (10 ^ (k - 1), k, nd + 1)
                     else (hi, k, nd) in
      match rounds_to x (lo * p), rounds_to x (hi * p) with
      | true, true =>
          match (X - lo * p) ?= (hi * p - X) with
          | Lt => take_lo
          | Gt => take_hi
          | Eq => if Z.even lo then take_lo else take_hi
          end
      | true, false => take_lo
      | false, true => take_hi
      | false, false => shortest fuel' (k + 1) nd X x
      end
  end.

(** The digits of [s], a point after the first when there are several,
    and the exponent [n - 1]. *)
Definition exponential (X : Z) (x : spec_float) : string :=
  let nd := Z.of_nat (String.length (digits X)) in
  let '(s, k, n) := shortest 17 1 nd X x in
  match digits s with
  | String d EmptyString => String d ("e+" ++ digits (n - 1))
  | String d rest => String d ("." ++ rest ++ "e+" ++ digits (n - 1))
  | EmptyString => EmptyString
  end.

(** [x.toFixed(1)]. *)
Definition toFixed1 (x : spec_float) : string :=
  match x with
  | S754_nan => "NaN"
  | S754_infinity false => "Infinity"
  | S754_infinity true => "-Infinity"
  | S754_zero _ => "0.0"
  | S754_finite s m e =>
      let '(num, den) := fraction m e in
      let sign := if s then "-" else "" in
      if 10 ^ 21 * den <=? num
      then sign ++ exponential (num / den) (S754_finite false m e)
      else sign ++ fixed1 (tenths num den)
  end.
End Double.

(** The double of a number; [undefined] converts to [NaN]. *)
Definition to_double (a : option jsnum) : spec_float :=
  match a with
  | Some (Num z) => Double.of_Z z
  | Some (Infinity negative) => S754_infinity negative
  | Some NaN | None => S754_nan
  end.

(** The number that a double with an integer value is. *)
Definition of_double (x : spec_float) : jsnum :=
  match x with
  | S754_nan => NaN
  | S754_infinity negative => Infinity negative
  | S754_zero _ => Num 0
  | S754_finite negative m e => Num (cond_Zopp negative (Z.shiftl (Z.pos m) e))
  end.

(** [a + b] where [a] may be [undefined]: the sum of doubles, so
    [undefined + b] is [NaN] and a sum past 2^53 is rounded. *)
Definition js_add (a : option jsnum) (b : jsnum) : jsnum :=
  of_double (Double.add (to_double a) (to_double (Some b))).

(** ** The repository *)

Record MemStorage := mkMemStorage {
  users : JsMap.t User.t;
  products : JsMap.t Product.t;
  cart : JsMap.t CartItem.t;
  reviews : JsMap.t Review.t;
  currentUserId : Z;
  currentProductId : Z;
  currentCartItemId : Z;
  currentReviewId : Z
}.

Definition with_users (m : JsMap.t User.t) (c : Z) (s : MemStorage) :=
  mkMemStorage m (products s) (cart s) (reviews s)
    c (currentProductId s) (currentCartItemId s) (currentReviewId s).

Definition with_products (m : JsMap.t Product.t) (c : Z) (s : MemStorage) :=
  mkMemStorage (users s) m (cart s) (reviews s)
    (currentUserId s) c (currentCartItemId s) (currentReviewId s).

Definition with_cart (m : JsMap.t CartItem.t) (c : Z) (s : MemStorage) :=
  mkMemStorage (users s) (products s) m (reviews s)
    (currentUserId s) (currentProductId s) c (currentReviewId s).

Definition with_reviews (m : JsMap.t Review.t) (c : Z) (s : MemStorage) :=
  mkMemStorage (users s) (products s) (cart s) m
    (currentUserId s) (currentProductId s) (currentCartItemId s) c.

(** *** Product methods *)

Definition getAllProducts (s : MemStorage) : list Product.t :=
  JsMap.values (products s).

Definition getProduct (id : Z) (s : MemStorage) : option Product.t :=
  JsMap.get id (products s).

(** [insertProduct.badge || null]: the empty string is falsy. *)
Definition or_null (b : option (nullable string)) : nullable string :=
  match b with
  | Some (NotNull str) => if (str =? "")%string then Null else NotNull str
  | Some Null | None => Null
  end.

Definition createProduct (insertProduct : InsertProduct.t) (s : MemStorage)
  : Product.t * MemStorage :=
  let id := currentProductId s in
  let product :=
    Product.mk id
      (Some (InsertProduct.name insertProduct))
      (Some (InsertProduct.description insertProduct))
      (Some (InsertProduct.price insertProduct))
      (Some (InsertProduct.image insertProduct))
      (Some (InsertProduct.rating insertProduct))
      (match InsertProduct.reviewCount insertProduct with
       | Some n => n
       | None => 0
       end)
      (or_null (InsertProduct.badge insertProduct))
      (Some (InsertProduct.sizes insertProduct))
      (match InsertProduct.featured insertProduct with
       | Some b => b
       | None => true
       end) in
  (product, with_products (JsMap.set id product (products s)) (id + 1) s).

(** [{ ...product, ...updateData, reviewCount: ..., badge: ..., featured: ... }] *)
Definition merge_product (product : Product.t) (updateData : PartialProduct.t)
  : Product.t :=
  Product.mk (Product.id product)
    (spread (Product.name product) (PartialProduct.name updateData))
    (spread (Product.description product) (PartialProduct.description updateData))
    (spread (Product.price product) (PartialProduct.price updateData))
    (spread (Product.image product) (PartialProduct.image updateData))
    (spread (Product.rating product) (PartialProduct.rating updateData))
    (unless_undefined (PartialProduct.reviewCount updateData)
       (Product.reviewCount product))
    (unless_undefined (PartialProduct.badge updateData) (Product.badge product))
    (spread (Product.sizes product) (PartialProduct.sizes updateData))
    (unless_undefined (PartialProduct.featured updateData)
       (Product.featured product)).

Definition updateProduct (id : Z) (updateData : PartialProduct.t)
  (s : MemStorage) : option Product.t * MemStorage :=
  match JsMap.get id (products s) with
  | None => (None, s)
  | Some product =>
      let updatedProduct := merge_product product updateData in
      (Some updatedProduct,
       with_products (JsMap.set id updatedProduct (products s))
         (currentProductId s) s)
  end.

(** *** User methods *)

Definition getUserByUsername (username : string) (s : MemStorage)
  : option User.t :=
  find (fun user => (User.username user =? username)%string)
    (JsMap.values (users s)).

Definition createUser (insertUser : InsertUser.t) (s : MemStorage)
  : User.t * MemStorage :=
  let id := currentUserId s in
  let user :=
    User.mk id (InsertUser.username insertUser)
      (InsertUser.password insertUser) false in
  (user, with_users (JsMap.set id user (users s)) (id + 1) s).

Definition verifyAdmin (username password : string) (s : MemStorage) : bool :=
  match getUserByUsername username s with
  | None => false
  | Some user => (User.password user =? password)%string && User.isAdmin user
  end.

(** *** Review methods *)

Definition getReview (id : Z) (s : MemStorage) : option Review.t :=
  JsMap.get id (reviews s).

(** [Array.from(this.reviews.values()).filter(review => review.approved)] *)
Definition approvedReviews (s : MemStorage) : list Review.t :=
  filter Review.approved (JsMap.values (reviews s)).

(** [approvedReviews.reduce((sum, review) => sum + review.rating, 0)]: the
    additions are those of doubles, from the left and starting at [0]. *)
Definition totalRating (l : list Review.t) : spec_float :=
  fold_left
    (fun sum review => Double.add sum (Double.of_Z (Review.rating review)))
    l (Double.of_Z 0).

(** [(totalRating / approvedReviews.length).toFixed(1)] *)
Definition averageRating (l : list Review.t) : string :=
  Double.toFixed1
    (Double.div (totalRating l) (Double.of_Z (Z.of_nat (List.length l)))).

Definition rating_update (l : list Review.t) : PartialProduct.t :=
  PartialProduct.mk Missing Missing Missing Missing
    (Given (averageRating l)) (Given (Z.of_nat (List.length l)))
    Missing Missing Missing.

Definition updateProductRatings (s : MemStorage) : MemStorage :=
  match JsMap.values (products s) with
  | [] => s
  | product :: _ =>
      let l := approvedReviews s in
      match l with
      | [] => s
      | _ :: _ => snd (updateProduct (Product.id product) (rating_update l) s)
      end
  end.

(** [insertReview.comment || ""] *)
Definition or_empty (c : option (nullable string)) : string :=
  match c with
  | Some (NotNull str) => str
  | Some Null | None => ""
  end.

(** [now] is [new Date().toISOString()] at the time of the call. *)
Definition createReview (now : string) (insertReview : InsertReview.t)
  (s : MemStorage) : Review.t * MemStorage :=
  let id := currentReviewId s in
  let review :=
    Review.mk id (InsertReview.name insertReview)
      (InsertReview.rating insertReview)
      (or_empty (InsertReview.comment insertReview)) true now in
  (review,
   updateProductRatings (with_reviews (JsMap.set id review (reviews s)) (id + 1) s)).

Definition updateReview (id : Z) (approved : bool) (s : MemStorage)
  : option Review.t * MemStorage :=
  match JsMap.get id (reviews s) with
  | None => (None, s)
  | Some review =>
      let updatedReview :=
        Review.mk (Review.id review) (Review.name review)
          (Review.rating review) (Review.comment review) approved
          (Review.createdAt review) in
      (Some updatedReview,
       updateProductRatings
         (with_reviews (JsMap.set id updatedReview (reviews s))
            (currentReviewId s) s))
  end.

Definition deleteReview (id : Z) (s : MemStorage) : bool * MemStorage :=
  let (deleted, m) := JsMap.delete id (reviews s) in
  if deleted
  then (true, updateProductRatings (with_reviews m (currentReviewId s) s))
  else (false, with_reviews m (currentReviewId s) s).

(** *** Cart methods *)

(** [if (userId)]: a number is truthy unless it is [0]. *)
Definition truthy (n : Z) : bool := negb (n =? 0).

(** The filter that [getCartItems] and [clearCart] apply to an item:
    [item.userId === userId] when [userId] is truthy, and
    [item.userId === undefined] otherwise. *)
Definition in_scope (userId : option Z) (item : CartItem.t) : bool :=
  match userId with
  | Some u =>
      if truthy u
      then owner_eqb (CartItem.userId item) (Some (NotNull u))
      else owner_eqb (CartItem.userId item) None
  | None => owner_eqb (CartItem.userId item) None
  end.

Definition getCartItems (userId : option Z) (s : MemStorage)
  : list CartItem.t :=
  filter (in_scope userId) (JsMap.values (cart s)).

Definition updateCartItemQuantity (id : Z) (quantity : jsnum) (s : MemStorage)
  : option CartItem.t * MemStorage :=
  match JsMap.get id (cart s) with
  | None => (None, s)
  | Some cartItem =>
      let updatedItem :=
        CartItem.mk (CartItem.id cartItem) (CartItem.userId cartItem)
          (CartItem.productId cartItem) (CartItem.size cartItem)
          (Some quantity) in
      (Some updatedItem,
       with_cart (JsMap.set id updatedItem (cart s)) (currentCartItemId s) s)
  end.

Definition same_line (insertCartItem : InsertCartItem.t) (item : CartItem.t)
  : bool :=
  (CartItem.productId item =? InsertCartItem.productId insertCartItem)
  && (CartItem.size item =? InsertCartItem.size insertCartItem)%string
  && owner_eqb (CartItem.userId item) (InsertCartItem.userId insertCartItem).

(** The result is [None] only where the source, having cast the promise of
    [updateCartItemQuantity] to [Promise<CartItem>], would return
    [undefined]. *)
Definition addToCart (insertCartItem : InsertCartItem.t) (s : MemStorage)
  : option CartItem.t * MemStorage :=
  match find (same_line insertCartItem) (JsMap.values (cart s)) with
  | Some existingItem =>
      updateCartItemQuantity (CartItem.id existingItem)
        (js_add (CartItem.quantity existingItem)
           (or_one (InsertCartItem.quantity insertCartItem))) s
  | None =>
      let id := currentCartItemId s in
      let cartItem :=
        CartItem.mk id (InsertCartItem.userId insertCartItem)
          (InsertCartItem.productId insertCartItem)
          (InsertCartItem.size insertCartItem)
          (InsertCartItem.quantity insertCartItem) in
      (Some cartItem, with_cart (JsMap.set id cartItem (cart s)) (id + 1) s)
  end.

Definition removeFromCart (id : Z) (s : MemStorage) : bool * MemStorage :=
  let (deleted, m) := JsMap.delete id (cart s) in
  (deleted, with_cart m (currentCartItemId s) s).

(** [Array.from(this.cart.entries()).filter(...).forEach(([id, _]) =>
    this.cart.delete(id))]: the entries are listed first, then deleted from
    the map one by one. *)
Definition clearCart (userId : option Z) (s : MemStorage) : bool * MemStorage :=
  let doomed :=
    filter (fun e => in_scope userId (snd e)) (JsMap.entries (cart s)) in
  (true,
   with_cart (fold_left (fun m e => JsMap.remove (fst e) m) doomed (cart s))
     (currentCartItemId s) s).

(** *** Construction and seed data *)

Definition empty_storage : MemStorage :=
  mkMemStorage (JsMap.empty _) (JsMap.empty _) (JsMap.empty _) (JsMap.empty _)
    1 1 1 1.

Definition seed_product : InsertProduct.t :=
  InsertProduct.mk "Flaze Heated Lunch Box"
    "Premium heated lunch box with temperature control. Keep your meals warm anywhere you go."
    "59.99" "" "5.0" (Some 0) (Some (NotNull "New")) ["S"; "M"; "L"] (Some true).

Definition seedProducts (s : MemStorage) : MemStorage :=
  snd (createProduct seed_product s).

(** [new MemStorage()]: the body of the constructor, then the callback it
    registered with [.then], which runs before any later method reads the
    users. *)
Definition new_MemStorage : MemStorage :=
  let (user, s1) :=
    createUser (InsertUser.mk "admin" "admin123") empty_storage in
  let s2 := seedProducts s1 in
  with_users
    (JsMap.set (User.id user)
       (User.mk (User.id user) (User.username user) (User.password user) true)
       (users s2))
    (currentUserId s2) s2.

(** [export const storage = new MemStorage()] *)
Definition storage : MemStorage := new_MemStorage.

(** ** Sequences of operations *)

(** The methods that can change the repository; the others only read it. *)
Inductive op : Type :=
| CreateProduct (insertProduct : InsertProduct.t)
| UpdateProduct (id : Z) (updateData : PartialProduct.t)
| CreateUser (insertUser : InsertUser.t)
| CreateReview (now : string) (insertReview : InsertReview.t)
| UpdateReview (id : Z) (approved : bool)
| DeleteReview (id : Z)
| AddToCart (insertCartItem : InsertCartItem.t)
| UpdateCartItemQuantity (id : Z) (quantity : jsnum)
| RemoveFromCart (id : Z)
| ClearCart (userId : option Z).

Definition exec (s : MemStorage) (o : op) : MemStorage :=
  match o with
  | CreateProduct d => snd (createProduct d s)
  | UpdateProduct id d => snd (updateProduct id d s)
  | CreateUser d => snd (createUser d s)
  | CreateReview now d => snd (createReview now d s)
  | UpdateReview id a => snd (updateReview id a s)
  | DeleteReview id => snd (deleteReview id s)
  | AddToCart d => snd (addToCart d s)
  | UpdateCartItemQuantity id q => snd (updateCartItemQuantity id q s)
  | RemoveFromCart id => snd (removeFromCart id s)
  | ClearCart u => snd (clearCart u s)
  end.

Definition run (ops : list op) (s : MemStorage) : MemStorage :=
  fold_left exec ops s.

(** ** Notions used by the statements *)

(** [Array.from(this.products.values())[0]] *)
Definition first_product (s : MemStorage) : option Product.t :=
  hd_error (JsMap.values (products s)).

(** The calls that change the reviews: a creation, and an update or a
    deletion of a review that exists. *)
Definition review_mutation (s : MemStorage) (o : op) : bool :=
  match o with
  | CreateReview _ _ => true
  | UpdateReview id _ | DeleteReview id => JsMap.has id (reviews s)
  | _ => false
  end.

(** The arithmetic mean [total / n] rounded to one decimal place, halves
    upwards, as a count of tenths. *)
Definition round_half_up (total n : Z) : Z := (20 * total + n) / (2 * n).

(** The same with halves to the even tenth. *)
Definition round_half_even (total n : Z) : Z :=
  let t := (10 * total) / n in
  match (2 * ((10 * total) mod n)) ?= n with
  | Lt => t
  | Gt => t + 1
  | Eq => if Z.even t then t else t + 1
  end.

(** [t] tenths are as close to the mean [total / n] as a tenth can be. *)
Definition nearest_tenth (total n t : Z) : Prop :=
  Z.abs (2 * (t * n - 10 * total)) <= n.

(** The sum [r1 + ... + rN] of the ratings of [l], as an integer. *)
Definition rating_sum (l : list Review.t) : Z :=
  fold_left (fun sum review => sum + Review.rating review) l 0.

(** The mean of the ratings of [l], rounded to one decimal place. *)
Definition rounded_mean (l : list Review.t) : string :=
  Double.fixed1 (round_half_up (rating_sum l) (Z.of_nat (List.length l))).

(** The ratings that the review form accepts. *)
Definition rated_1_to_5 (l : list Review.t) : Prop :=
  Forall (fun review => 1 <= Review.rating review <= 5) l.

(** [str] prints a count of tenths that is as close to the mean of the
    ratings of [l] as a count of tenths can be: the mean rounded half up,
    or the tenth below when the mean lies halfway between two tenths. *)
Definition one_decimal_of_mean (l : list Review.t) (str : string) : Prop :=
  let total := rating_sum l in
  let n := Z.of_nat (List.length l) in
  exists t,
    str = Double.fixed1 t
    /\ nearest_tenth total n t
    /\ (t = round_half_up total n
        \/ (t + 1 = round_half_up total n /\ 20 * total + n = 2 * n * (t + 1))).

(** An operation that does not write [rating] or [reviewCount] of a product
    from outside the recomputation. *)
Definition keeps_rating (o : op) : bool :=
  match o with
  | UpdateProduct _ d =>
      match PartialProduct.rating d, PartialProduct.reviewCount d with
      | Missing, (Missing | Undefined) => true
      | _, _ => false
      end
  | _ => true
  end.

(** What reading a property of the update gives: [undefined] when it is
    missing as when it is present with the value [undefined]. *)
Definition provided {A : Type} (f : field A) : option A :=
  match f with
  | Given a => Some a
  | Missing | Undefined => None
  end.

(** A property copied by the spread keeps the old value when it is missing
    from the update and takes the given value otherwise. *)
Definition spread_ok {A : Type} (f : field A) (old new : option A) : Prop :=
  (f = Missing -> new = old) /\ (forall a, f = Given a -> new = Some a).

(** A guarded property keeps the old value when reading it from the update
    gives [undefined], and takes the given value otherwise. *)
Definition guarded_ok {A : Type} (f : field A) (old new : A) : Prop :=
  (provided f = None -> new = old) /\ (forall a, f = Given a -> new = a).

(** The merge of [updateProduct] as the specification words it: whatever
    property reads as [undefined] in the update keeps its prior value. *)
Definition undefined_keeps_prior : Prop :=
  forall id d s p p',
    getProduct id s = Some p ->
    fst (updateProduct id d s) = Some p' ->
    (provided (PartialProduct.name d) = None ->
     Product.name p' = Product.name p)
    /\ (provided (PartialProduct.description d) = None ->
        Product.description p' = Product.description p)
    /\ (provided (PartialProduct.price d) = None ->
        Product.price p' = Product.price p)
    /\ (provided (PartialProduct.image d) = None ->
        Product.image p' = Product.image p)
    /\ (provided (PartialProduct.rating d) = None ->
        Product.rating p' = Product.rating p)
    /\ (provided (PartialProduct.reviewCount d) = None ->
        Product.reviewCount p' = Product.reviewCount p)
    /\ (provided (PartialProduct.badge d) = None ->
        Product.badge p' = Product.badge p)
    /\ (provided (PartialProduct.sizes d) = None ->
        Product.sizes p' = Product.sizes p)
    /\ (provided (PartialProduct.featured d) = None ->
        Product.featured p' = Product.featured p).

(** The rating of the first product after a change of the reviews, as the
    specification words it: the rounded mean and the number of the approved
    reviews when there are some, the prior rating and count when there are
    none. *)
Definition rating_is_rounded_mean : Prop :=
  forall ops o,
    let s := run ops storage in
    let s' := exec s o in
    review_mutation s o = true ->
    exists p p',
      first_product s = Some p /\ first_product s' = Some p'
      /\ match approvedReviews s' with
         | [] =>
             Product.rating p' = Product.rating p
             /\ Product.reviewCount p' = Product.reviewCount p
         | (_ :: _) as l =>
             Product.rating p' = Some (rounded_mean l)
             /\ Product.reviewCount p' = Z.of_nat (List.length l)
         end.

(** The invariant of the data model as the specification words it. *)
Definition rating_consistent (s : MemStorage) : Prop :=
  exists p,
    first_product s = Some p
    /\ Product.reviewCount p = Z.of_nat (List.length (approvedReviews s))
    /\ (approvedReviews s <> [] ->
        Product.rating p = Some (rounded_mean (approvedReviews s))).

Definition always_consistent : Prop :=
  forall ops, rating_consistent (run ops storage).

(** The invariant that the code keeps: with at least one approved review,
    the first product carries their number and [averageRating]. *)
Definition rating_recomputed (s : MemStorage) : Prop :=
  match approvedReviews s with
  | [] => True
  | (_ :: _) as l =>
      exists p,
        first_product s = Some p
        /\ Product.rating p = Some (averageRating l)
        /\ Product.reviewCount p = Z.of_nat (List.length l)
  end.

(** Before any review is created the first product has the seeded rating. *)
Definition rating_seeded (s : MemStorage) : Prop :=
  currentReviewId s = 1 ->
  reviews s = []
  /\ exists p,
       first_product s = Some p
       /\ Product.rating p = Some "5.0" /\ Product.reviewCount p = 0.

(** With no approved review in [s'], the state after an operation on [s],
    the first product has the rating and the count it had in [s]. *)
Definition rating_kept (s s' : MemStorage) : Prop :=
  approvedReviews s' = [] ->
  exists p p',
    first_product s = Some p /\ first_product s' = Some p'
    /\ Product.rating p' = Product.rating p
    /\ Product.reviewCount p' = Product.reviewCount p.

(** A review submitted at a fixed time under a fixed name. *)
Definition review_of (r : Z) : op :=
  CreateReview "2025-01-01T00:00:00.000Z" (InsertReview.mk "Sam" r None).

(** The states the repository can be in. *)
Inductive reachable : MemStorage -> Prop :=
| reachable_storage : reachable storage
| reachable_exec s o : reachable s -> reachable (exec s o).

(** There is a first product, stored under its own identifier. *)
Definition first_ok (m : JsMap.t Product.t) : Prop :=
  exists k p rest, m = (k, p) :: rest /\ Product.id p = k.

(** What every reachable state satisfies. *)
Record wf (s : MemStorage) : Prop := mk_wf {
  wf_first_product : first_ok (products s);
  wf_products_below :
    Forall (fun k => k < currentProductId s) (JsMap.keys (products s));
  wf_cart_nodup : NoDup (JsMap.keys (cart s));
  wf_cart_ids : Forall (fun e => CartItem.id (snd e) = fst e) (cart s);
  wf_cart_below : Forall (fun k => k < currentCartItemId s) (JsMap.keys (cart s));
  wf_reviews_below :
    Forall (fun k => k < currentReviewId s) (JsMap.keys (reviews s));
  wf_users_below : Forall (fun k => k < currentUserId s) (JsMap.keys (users s));
  wf_admin :
    exists rest,
      users s = (1, User.mk 1 "admin" "admin123" true) :: rest
      /\ Forall (fun e => User.isAdmin (snd e) = false) rest
}.

(** ** The other methods of the repository, and the handlers that use them *)

Definition getFeaturedProducts (s : MemStorage) : list Product.t :=
  filter Product.featured (JsMap.values (products s)).

Definition getUser (id : Z) (s : MemStorage) : option User.t :=
  JsMap.get id (users s).

(** [list.sort((a, b) => new Date(b.createdAt).getTime() -
    new Date(a.createdAt).getTime())].  [getTime] is the time in
    milliseconds that [new Date(...).getTime()] reads back from a timestamp
    written by [toISOString].  [Array.prototype.sort] is stable, so the
    result is the stable sort by decreasing time: each review goes before
    the later-inserted reviews that are not newer than it. *)
Fixpoint insert_newest_first (getTime : string -> Z) (a : Review.t)
  (sorted : list Review.t) : list Review.t :=
  match sorted with
  | [] => [a]
  | b :: rest =>
      if getTime (Review.createdAt b) - getTime (Review.createdAt a) <=? 0
      then a :: b :: rest
      else b :: insert_newest_first getTime a rest
  end.

Definition sort_newest_first (getTime : string -> Z) (l : list Review.t)
  : list Review.t :=
  fold_right (insert_newest_first getTime) [] l.

Definition getAllReviews (getTime : string -> Z) (s : MemStorage)
  : list Review.t :=
  sort_newest_first getTime (JsMap.values (reviews s)).

Definition getApprovedReviews (getTime : string -> Z) (s : MemStorage)
  : list Review.t :=
  sort_newest_first getTime (filter Review.approved (JsMap.values (reviews s))).

(** [str.split(sep)] for a separator of one character. *)
Fixpoint split_on (sep : ascii) (str : string) : list string :=
  match str with
  | EmptyString => [EmptyString]
  | String c rest =>
      if Ascii.eqb c sep then EmptyString :: split_on sep rest
      else
        match split_on sep rest with
        | segment :: segments => String c segment :: segments
        | [] => [String c EmptyString]
        end
  end.

(** What the middleware [requireAdmin] does with a request. *)
Inductive admin_gate : Type :=
| Unauthorized401 : admin_gate
| Forbidden403 : admin_gate
| CallNext : admin_gate.

(** [requireAdmin], for the value of [req.headers.authorization].
    [decode] is [Buffer.from(_, 'base64').toString('utf-8')].  Nothing in
    the [try] block throws, so the answer 500 of its [catch] is not a case.
    With no colon in the credentials [password] is [undefined], which no
    stored password is strictly equal to. *)
Definition requireAdmin (decode : string -> string)
  (authHeader : option string) (s : MemStorage) : admin_gate :=
  match authHeader with
  | None => Unauthorized401
  | Some header =>
      if negb (String.prefix "Basic " header) then Unauthorized401
      else
        let base64Credentials := nth 1 (split_on " " header) "" in
        let credentials := decode base64Credentials in
        match split_on ":" credentials with
        | username :: password :: _ =>
            if verifyAdmin username password s then CallNext else Forbidden403
        | _ => Forbidden403
        end
  end.

(** The body of [GET /api/cart]: the guest cart, each item with the product
    found by [products.find(p => p.id === item.productId)], or [null]. *)
Definition cartWithDetails (s : MemStorage)
  : list (CartItem.t * nullable Product.t) :=
  let cartItems := getCartItems None s in
  let products := getAllProducts s in
  map (fun item =>
         (item,
          match find (fun p => Product.id p =? CartItem.productId item) products with
          | Some product => NotNull product
          | None => Null
          end))
    cartItems.

(** ** Notions used by the further statements *)

(** A map with distinct keys, each value stored under its own identifier. *)
Definition keyed {V : Type} (id : V -> Z) (m : JsMap.t V) : Prop :=
  NoDup (JsMap.keys m) /\ Forall (fun e => id (snd e) = fst e) m.

Definition below {V : Type} (counter : Z) (m : JsMap.t V) : Prop :=
  Forall (fun k => k < counter) (JsMap.keys m).

Definition ids_ok (s : MemStorage) : Prop :=
  keyed User.id (users s) /\ keyed Product.id (products s)
  /\ keyed Review.id (reviews s) /\ keyed CartItem.id (cart s).

(** What identifies a line of the cart for [addToCart]. *)
Definition line_of (item : CartItem.t) : Z * string * option (nullable Z) :=
  (CartItem.productId item, CartItem.size item, CartItem.userId item).

(** No two items of the cart are for the same product, size and owner. *)
Definition lines_distinct (s : MemStorage) : Prop :=
  NoDup (map line_of (JsMap.values (cart s))).

(** A review at the place of [review] with the approval [approved]. *)
Definition with_approved (approved : bool) (review : Review.t) : Review.t :=
  Review.mk (Review.id review) (Review.name review) (Review.rating review)
    (Review.comment review) approved (Review.createdAt review).

(** A cart item with the quantity [quantity]. *)
Definition with_quantity (quantity : jsnum) (item : CartItem.t) : CartItem.t :=
  CartItem.mk (CartItem.id item) (CartItem.userId item)
    (CartItem.productId item) (CartItem.size item) (Some quantity).

(** Two products that differ at most in [rating] and [reviewCount]. *)
Definition same_but_rating (p p' : Product.t) : Prop :=
  Product.id p' = Product.id p /\ Product.name p' = Product.name p
  /\ Product.description p' = Product.description p
  /\ Product.price p' = Product.price p /\ Product.image p' = Product.image p
  /\ Product.badge p' = Product.badge p /\ Product.sizes p' = Product.sizes p
  /\ Product.featured p' = Product.featured p.

(** [a] may stand before [b] in a list sorted newest first. *)
Definition not_older (getTime : string -> Z) (a b : Review.t) : Prop :=
  getTime (Review.createdAt b) <= getTime (Review.createdAt a).

(** The reviews of [l] created at the time [t], in the order of [l]. *)
Definition created_at (getTime : string -> Z) (t : Z) (l : list Review.t)
  : list Review.t :=
  filter (fun review => getTime (Review.createdAt review) =? t) l.

(** From [s] to [s'] nothing changed but [rating] and [reviewCount] of the
    first product, the reviews and their counter. *)
Definition rating_only (s s' : MemStorage) : Prop :=
  users s' = users s /\ cart s' = cart s
  /\ currentUserId s' = currentUserId s
  /\ currentProductId s' = currentProductId s
  /\ currentCartItemId s' = currentCartItemId s
  /\ JsMap.keys (products s') = JsMap.keys (products s)
  /\ (forall k,
        match getProduct k s, getProduct k s' with
        | Some p, Some p' =>
            same_but_rating p p' /\ (first_product s <> Some p -> p' = p)
        | None, None => True
        | _, _ => False
        end).

(** ** [toFixed(1)] on the values of its documentation *)

(** [2.34.toFixed(1)], [2.35.toFixed(1)] and [2.55.toFixed(1)] are "2.3",
    "2.4" and "2.5"; [2 ** 70] and [1e21] print in exponent notation. *)
Example toFixed1_examples :
  map (fun q => Double.toFixed1 (Double.div (Double.of_Z (fst q)) (Double.of_Z (snd q))))
    [(234, 100); (235, 100); (255, 100); (17, 4); (0, 3); (-1, 3); (1, 0)]
  = ["2.3"; "2.4"; "2.5"; "4.3"; "0.0"; "-0.3"; "Infinity"]
  /\ map (fun z => Double.toFixed1 (Double.of_Z z)) [2 ^ 70; 10 ^ 21; 10 ^ 21 - 1]
     = ["1.1805916207174113e+21"; "1e+21"; "1e+21"].
Proof. vm_compute. split; reflexivity. Qed.

(** ** Facts about [JsMap] *)

Module JsMapFacts.
Section Facts.
Variable V : Type.
Implicit Types (m : JsMap.t V) (k : Z) (v : V).

Lemma get_set_same k v m : JsMap.get k (JsMap.set k v m) = Some v.
Proof.
  induction m as [|[k' v'] m IH]; simpl.
  - now rewrite Z.eqb_refl.
  - destruct (k' =? k) eqn:E; simpl; rewrite E; auto.
Qed.

Lemma get_set_other k k' v m :
  k <> k' -> JsMap.get k' (JsMap.set k v m) = JsMap.get k' m.
Proof.
  intros Hne. induction m as [|[k0 v0] m IH]; simpl.
  - destruct (k =? k') eqn:E; auto. apply Z.eqb_eq in E. contradiction.
  - destruct (k0 =? k) eqn:E; simpl.
    + apply Z.eqb_eq in E. subst k0.
      apply Z.eqb_neq in Hne. now rewrite Hne.
    + now rewrite IH.
Qed.

Lemma get_none_keys k m : JsMap.get k m = None <-> ~ In k (JsMap.keys m).
Proof.
  induction m as [|[k' v'] m IH]; simpl.
  - tauto.
  - destruct (k' =? k) eqn:E.
    + apply Z.eqb_eq in E. split; [discriminate | intros H; exfalso; auto].
    + apply Z.eqb_neq in E. rewrite IH. tauto.
Qed.

Lemma get_some_in k v m : JsMap.get k m = Some v -> In (k, v) m.
Proof.
  induction m as [|[k' v'] m IH]; simpl; [discriminate|].
  destruct (k' =? k) eqn:E.
  - apply Z.eqb_eq in E. intros [= ->]. subst. auto.
  - auto.
Qed.

Lemma in_get k v m :
  NoDup (JsMap.keys m) -> In (k, v) m -> JsMap.get k m = Some v.
Proof.
  induction m as [|[k' v'] m IH]; simpl; [tauto|].
  intros Hnd [H|H].
  - injection H as -> ->. now rewrite Z.eqb_refl.
  - inversion Hnd as [|? ? Hnotin Hnd']; subst.
    destruct (k' =? k) eqn:E; auto.
    apply Z.eqb_eq in E. subst k'. exfalso. apply Hnotin.
    change k with (fst (k, v)). now apply in_map.
Qed.

Lemma has_true k m : JsMap.has k m = true <-> In k (JsMap.keys m).
Proof.
  unfold JsMap.has. destruct (JsMap.get k m) eqn:E.
  - split; auto. intros _. apply get_some_in in E.
    change k with (fst (k, v)). now apply in_map.
  - split; [discriminate|]. intros H. now apply get_none_keys in E.
Qed.

Lemma has_false k m : JsMap.has k m = false <-> JsMap.get k m = None.
Proof.
  unfold JsMap.has. destruct (JsMap.get k m); split; congruence.
Qed.

Lemma set_cons k v k' v' m :
  JsMap.set k v ((k', v') :: m) =
  if k' =? k then (k', v) :: m else (k', v') :: JsMap.set k v m.
Proof. reflexivity. Qed.

Lemma set_absent k v m :
  JsMap.get k m = None -> JsMap.set k v m = (m ++ [(k, v)])%list.
Proof.
  induction m as [|[k' v'] m IH]; simpl; auto.
  destruct (k' =? k); [discriminate|]. intros H. now rewrite IH.
Qed.

Lemma keys_set k v m :
  JsMap.keys (JsMap.set k v m) =
  if JsMap.has k m then JsMap.keys m else (JsMap.keys m ++ [k])%list.
Proof.
  unfold JsMap.has. induction m as [|[k' v'] m IH]; simpl; auto.
  destruct (k' =? k) eqn:E; simpl; auto.
  rewrite IH. now destruct (JsMap.get k m).
Qed.

Lemma nodup_set k v m :
  NoDup (JsMap.keys m) -> NoDup (JsMap.keys (JsMap.set k v m)).
Proof.
  intros Hnd. rewrite keys_set. destruct (JsMap.has k m) eqn:E; auto.
  apply has_false, get_none_keys in E.
  apply NoDup_app; auto.
  - constructor; [simpl; tauto | constructor].
  - intros x Hx [<-|[]]. auto.
Qed.

Lemma keys_remove k m :
  JsMap.keys (JsMap.remove k m) =
  filter (fun k' => negb (k' =? k)) (JsMap.keys m).
Proof.
  induction m as [|[k' v'] m IH]; simpl; auto.
  destruct (k' =? k); simpl; now rewrite IH.
Qed.

Lemma get_remove_same k m : JsMap.get k (JsMap.remove k m) = None.
Proof.
  apply get_none_keys. rewrite keys_remove, filter_In.
  intros [_ H]. now rewrite Z.eqb_refl in H.
Qed.

Lemma get_remove_other k k' m :
  k <> k' -> JsMap.get k' (JsMap.remove k m) = JsMap.get k' m.
Proof.
  intros Hne. induction m as [|[k0 v0] m IH]; simpl; auto.
  destruct (k0 =? k) eqn:E; simpl.
  - apply Z.eqb_eq in E. subst k0.
    destruct (k =? k') eqn:E'; auto. apply Z.eqb_eq in E'. contradiction.
  - now rewrite IH.
Qed.

Lemma remove_absent k m : JsMap.get k m = None -> JsMap.remove k m = m.
Proof.
  induction m as [|[k' v'] m IH]; simpl; auto.
  destruct (k' =? k); simpl; [discriminate|].
  intros H. now rewrite IH.
Qed.

Lemma nodup_remove k m :
  NoDup (JsMap.keys m) -> NoDup (JsMap.keys (JsMap.remove k m)).
Proof. intros H. rewrite keys_remove. now apply NoDup_filter. Qed.
End Facts.
End JsMapFacts.

Module JsMapForall.
Section Facts.
Variable V : Type.
Implicit Types (m : JsMap.t V) (k : Z) (v : V).

Lemma forall_set (P : Z * V -> Prop) k v m :
  Forall P m -> P (k, v) -> Forall P (JsMap.set k v m).
Proof.
  intros Hm Hv. induction Hm as [|[k' v'] m Hx Hm IH]; simpl.
  - auto.
  - destruct (k' =? k) eqn:E.
    + apply Z.eqb_eq in E. subst k'. auto.
    + auto.
Qed.

Lemma forall_keys_set (Q : Z -> Prop) k v m :
  Forall Q (JsMap.keys m) -> Q k -> Forall Q (JsMap.keys (JsMap.set k v m)).
Proof.
  intros Hm Hk. rewrite JsMapFacts.keys_set.
  destruct (JsMap.has k m); auto.
  apply Forall_app. auto.
Qed.

Lemma forall_remove (P : Z * V -> Prop) k m :
  Forall P m -> Forall P (JsMap.remove k m).
Proof.
  unfold JsMap.remove. rewrite !Forall_forall.
  intros H x Hx. apply filter_In in Hx. apply H, Hx.
Qed.

Lemma forall_keys_remove (Q : Z -> Prop) k m :
  Forall Q (JsMap.keys m) -> Forall Q (JsMap.keys (JsMap.remove k m)).
Proof.
  rewrite JsMapFacts.keys_remove, !Forall_forall.
  intros H x Hx. apply filter_In in Hx. apply H, Hx.
Qed.

(** Deleting the listed keys one by one keeps what one deletion keeps. *)
Lemma fold_remove_ind (I : JsMap.t V -> Prop) (l : list (Z * V)) m :
  (forall k m', I m' -> I (JsMap.remove k m')) ->
  I m -> I (fold_left (fun m' e => JsMap.remove (fst e) m') l m).
Proof.
  intros Hstep. revert m. induction l as [|e l IH]; simpl; auto.
Qed.

End Facts.
End JsMapForall.

(** ** Facts about binary64 arithmetic and [toFixed(1)]

    The quotient of two integers below 2^53 is followed through
    [SFdiv] and [binary_round_aux]: both operands have mantissas of 53 bits,
    the integer quotient of the mantissas has 53 or 54 bits, and rounding to
    nearest even leaves a relative error of at most 2^-53. *)

Module DoubleFacts.
Unset Implicit Arguments.

Lemma digits2_pos_bounds (p : positive) :
  2 ^ (Z.pos (digits2_pos p) - 1) <= Z.pos p < 2 ^ Z.pos (digits2_pos p).
Proof.
  induction p as [p IH|p IH|]; cbn [digits2_pos].
  - rewrite Pos2Z.inj_succ.
    replace (Z.succ (Z.pos (digits2_pos p)) - 1) with (Z.succ (Z.pos (digits2_pos p) - 1)) by lia.
    rewrite !Z.pow_succ_r by lia. lia.
  - rewrite Pos2Z.inj_succ.
    replace (Z.succ (Z.pos (digits2_pos p)) - 1) with (Z.succ (Z.pos (digits2_pos p) - 1)) by lia.
    rewrite !Z.pow_succ_r by lia. lia.
  - simpl. lia.
Qed.

Lemma digits2_pos_unique (p : positive) (k : Z) :
  2 ^ (k - 1) <= Z.pos p < 2 ^ k -> Z.pos (digits2_pos p) = k.
Proof.
  intros [Hlo Hhi]. pose proof (digits2_pos_bounds p) as [Dlo Dhi].
  assert (0 < k) as Hk.
  { destruct (Z_lt_le_dec 0 k); auto.
    assert (2 ^ k <= 2 ^ 0) by (apply Z.pow_le_mono_r; lia). simpl in *. lia. }
  set (d := Z.pos (digits2_pos p)) in *.
  assert (k - 1 < d).
  { apply (Z.pow_lt_mono_r_iff 2); lia. }
  assert (d - 1 < k).
  { apply (Z.pow_lt_mono_r_iff 2); lia. }
  lia.
Qed.

Lemma iter_xO (p n : positive) :
  Z.pos (Pos.iter xO p n) = Z.pos p * 2 ^ Z.pos n.
Proof.
  induction n as [|n IH] using Pos.peano_ind.
  - simpl. lia.
  - rewrite Pos.iter_succ, Pos2Z.inj_succ, Z.pow_succ_r by lia.
    rewrite Pos2Z.inj_xO, IH. lia.
Qed.

Lemma shr_fexp_keep (m : positive) (e : Z) (l : location) :
  Z.pos (digits2_pos m) = 53 -> -1074 <= e ->
  shr_fexp 53 1024 (Z.pos m) e l = (shr_record_of_loc (Z.pos m) l, e).
Proof.
  intros Hd He. unfold shr_fexp, fexp, emin, Zdigits2. rewrite Hd.
  replace (Z.max (53 + e - 53) (3 - 1024 - 53) - e) with 0 by lia.
  reflexivity.
Qed.

Lemma shr_fexp_once (m : positive) (e : Z) (l : location) :
  Z.pos (digits2_pos m) = 54 -> -1074 <= e ->
  shr_fexp 53 1024 (Z.pos m) e l = (shr_1 (shr_record_of_loc (Z.pos m) l), e + 1).
Proof.
  intros Hd He. unfold shr_fexp, fexp, emin, Zdigits2. rewrite Hd.
  replace (Z.max (54 + e - 53) (3 - 1024 - 53) - e) with 1 by lia.
  reflexivity.
Qed.

Lemma loc_of_shr_record_of_loc (m : Z) (l : location) :
  loc_of_shr_record (shr_record_of_loc m l) = l
  /\ shr_m (shr_record_of_loc m l) = m.
Proof. destruct l as [|[]]; split; reflexivity. Qed.

(** The last step of [binary_round_aux] on a rounded mantissa of 53 bits,
    or 2^53 after a carry. *)
Lemma round_finish (m1 : positive) (e : Z) :
  2 ^ 52 <= Z.pos m1 <= 2 ^ 53 -> -1074 <= e -> e + 1 <= 971 ->
  exists m j,
    (let '(mrs, e2) := shr_fexp 53 1024 (Z.pos m1) e loc_Exact in
     match shr_m mrs with
     | Z0 => S754_zero false
     | Zpos m => if Z.leb e2 (1024 - 53) then S754_finite false m e2
                 else S754_infinity false
     | Zneg _ => S754_nan
     end) = S754_finite false m (e + j)
    /\ 0 <= j <= 1 /\ Z.pos m * 2 ^ j = Z.pos m1 /\ 2 ^ 52 <= Z.pos m < 2 ^ 53.
Proof.
  intros Hm He1 He2.
  destruct (Z.eq_dec (Z.pos m1) (2 ^ 53)) as [Heq|Hne].
  - exists (4503599627370496%positive), 1.
    change (2 ^ 53) with (Z.pos 9007199254740992) in Heq.
    injection Heq as ->.
    rewrite shr_fexp_once by (auto; reflexivity).
    cbn [shr_record_of_loc shr_1 shr_m].
    assert ((e + 1 <=? 1024 - 53) = true) as -> by (apply Z.leb_le; lia).
    repeat split; try reflexivity; try lia.
  - exists m1, 0.
    assert (Z.pos (digits2_pos m1) = 53) as Hd by (apply digits2_pos_unique; lia).
    rewrite shr_fexp_keep by auto.
    cbn [shr_record_of_loc shr_m].
    assert ((e <=? 1024 - 53) = true) as -> by (apply Z.leb_le; lia).
    rewrite Z.add_0_r. repeat split; try lia.
Qed.

Lemma new_location_spec (m2 r : Z) :
  0 < m2 -> 0 <= r < m2 ->
  match new_location m2 r with
  | loc_Exact => r = 0
  | loc_Inexact c => 0 < r /\ (2 * r ?= m2) = c
  end.
Proof.
  intros Hm Hr. unfold new_location, new_location_even, new_location_odd.
  destruct (Z.even m2) eqn:Ev; destruct (r =? 0) eqn:E0;
    try (apply Z.eqb_eq in E0; exact E0); apply Z.eqb_neq in E0.
  - split; [lia|reflexivity].
  - split; [lia|].
    assert (2 * r <> m2) as Hne.
    { intros <-. rewrite Z.even_mul in Ev. discriminate. }
    destruct (Z.compare_spec (2 * r + 1) m2);
      destruct (Z.compare_spec (2 * r) m2); try reflexivity; lia.
Qed.

Lemma rne_spec (x m2 r : Z) :
  0 < m2 -> 0 <= r < m2 ->
  let y := round_nearest_even x (new_location m2 r) in
  (y = x \/ y = x + 1) /\ 2 * Z.abs (y * m2 - (x * m2 + r)) <= m2.
Proof.
  intros Hm Hr. cbv zeta. pose proof (new_location_spec m2 r Hm Hr) as Hl.
  destruct (new_location m2 r) as [|[]]; cbn [round_nearest_even].
  - subst r. split; [auto|]. replace (x * m2 - (x * m2 + 0)) with 0 by lia. simpl. lia.
  - destruct Hl as [H0 Hc]. apply Z.compare_eq in Hc.
    destruct (Z.even x); split; auto.
    + replace (x * m2 - (x * m2 + r)) with (- r) by ring. lia.
    + replace ((x + 1) * m2 - (x * m2 + r)) with (m2 - r) by ring. lia.
  - destruct Hl as [H0 Hc]. rewrite Z.compare_lt_iff in Hc. split; auto.
    replace (x * m2 - (x * m2 + r)) with (- r) by ring. lia.
  - destruct Hl as [H0 Hc]. rewrite Z.compare_gt_iff in Hc. split; auto.
    replace ((x + 1) * m2 - (x * m2 + r)) with (m2 - r) by ring. lia.
Qed.

Lemma rne_half_spec (q : positive) (m2 r : Z) :
  2 ^ 53 <= Z.pos q < 2 ^ 54 -> 0 < m2 -> 0 <= r < m2 ->
  let mrs := shr_1 (shr_record_of_loc (Z.pos q) (new_location m2 r)) in
  let y := round_nearest_even (shr_m mrs) (loc_of_shr_record mrs) in
  2 ^ 52 <= y <= 2 ^ 53
  /\ Z.abs (2 * y * m2 - (Z.pos q * m2 + r)) <= m2.
Proof.
  intros Hq Hm Hr. cbv zeta. pose proof (new_location_spec m2 r Hm Hr) as Hl.
  change (2 ^ 52) with 4503599627370496 in *.
  change (2 ^ 53) with 9007199254740992 in *.
  change (2 ^ 54) with 18014398509481984 in *.
  assert (r = 0 \/ 0 < r) as Hr0 by lia.
  destruct q as [p|p|]; [| |lia].
  - (* an odd quotient: the bit shifted out is set *)
    rewrite Pos2Z.inj_xI in *.
    assert (forall l, (l = loc_Exact -> r = 0) -> (r = 0 -> l = loc_Exact) ->
              let mrs := shr_1 (shr_record_of_loc (Z.pos p~1) l) in
              let y := round_nearest_even (shr_m mrs) (loc_of_shr_record mrs) in
              4503599627370496 <= y <= 9007199254740992
              /\ Z.abs (2 * y * m2 - ((2 * Z.pos p + 1) * m2 + r)) <= m2) as H.
    { intros l H1 H2. destruct l as [|c].
      - rewrite (H1 eq_refl).
        cbn [shr_record_of_loc shr_1 shr_m loc_of_shr_record orb round_nearest_even].
        destruct (Z.even (Z.pos p)); (split; [lia|apply Z.abs_le; lia]).
      - assert (0 < r) by (destruct Hr0 as [E|]; [specialize (H2 E); discriminate|auto]).
        destruct c;
          cbn [shr_record_of_loc shr_1 shr_m loc_of_shr_record orb round_nearest_even];
          (split; [lia|apply Z.abs_le; lia]). }
    apply H.
    + intros E. now rewrite E in Hl.
    + intros E. destruct (new_location m2 r); auto. lia.
  - (* an even quotient *)
    rewrite Pos2Z.inj_xO in *.
    assert (forall l, (l = loc_Exact -> r = 0) -> (r = 0 -> l = loc_Exact) ->
              let mrs := shr_1 (shr_record_of_loc (Z.pos p~0) l) in
              let y := round_nearest_even (shr_m mrs) (loc_of_shr_record mrs) in
              4503599627370496 <= y <= 9007199254740992
              /\ Z.abs (2 * y * m2 - (2 * Z.pos p * m2 + r)) <= m2) as H.
    { intros l H1 H2. destruct l as [|c].
      - rewrite (H1 eq_refl).
        cbn [shr_record_of_loc shr_1 shr_m loc_of_shr_record orb round_nearest_even].
        split; [lia|apply Z.abs_le; lia].
      - assert (0 < r) by (destruct Hr0 as [E|]; [specialize (H2 E); discriminate|auto]).
        destruct c;
          cbn [shr_record_of_loc shr_1 shr_m loc_of_shr_record orb round_nearest_even];
          (split; [lia|apply Z.abs_le; lia]). }
    apply H.
    + intros E. now rewrite E in Hl.
    + intros E. destruct (new_location m2 r); auto. lia.
Qed.

(** [binary_round_aux] on a quotient [q] of 53 or 54 bits with remainder
    [r] of the division by [m2]: a mantissa of 53 bits, and the value
    within half a unit in the last place of [q + r / m2]. *)
Lemma round_quotient (q : positive) (e m2 r : Z) :
  2 ^ 52 <= Z.pos q < 2 ^ 54 -> 0 < m2 -> 0 <= r < m2 ->
  -1074 <= e -> e + 2 <= 971 ->
  exists m j,
    binary_round_aux 53 1024 false (Z.pos q) e (new_location m2 r)
    = S754_finite false m (e + j)
    /\ 0 <= j <= 2 /\ 2 ^ 52 <= Z.pos m < 2 ^ 53
    /\ 2 ^ 53 * Z.abs (Z.pos m * 2 ^ j * m2 - (Z.pos q * m2 + r))
       <= Z.pos q * m2 + r.
Proof.
  intros Hq Hm Hr He1 He2. unfold binary_round_aux.
  destruct (Z_lt_le_dec (Z.pos q) (2 ^ 53)) as [Hlt|Hge].
  - assert (Z.pos (digits2_pos q) = 53) as Hd by (apply digits2_pos_unique; lia).
    rewrite shr_fexp_keep by auto.
    destruct (loc_of_shr_record_of_loc (Z.pos q) (new_location m2 r)) as [-> ->].
    destruct (rne_spec (Z.pos q) m2 r Hm Hr) as [Hy Hb].
    set (y := round_nearest_even (Z.pos q) (new_location m2 r)) in *.
    assert (exists m1, y = Z.pos m1) as [m1 Hm1].
    { destruct y; try lia. eauto. }
    rewrite Hm1 in *.
    destruct (round_finish m1 e) as (m & j & Hres & Hj & Hval & Hmb); try lia.
    exists m, j. rewrite Hres. split; [reflexivity|]. split; [lia|]. split; [exact Hmb|].
    rewrite Hval.
    change (2 ^ 52) with 4503599627370496 in *.
    change (2 ^ 53) with 9007199254740992 in *.
    change (2 ^ 54) with 18014398509481984 in *.
    nia.
  - assert (Z.pos (digits2_pos q) = 54) as Hd by (apply digits2_pos_unique; lia).
    rewrite shr_fexp_once by auto.
    destruct (rne_half_spec q m2 r (conj Hge (proj2 Hq)) Hm Hr) as [Hy Hb].
    set (y := round_nearest_even _ _) in *.
    assert (exists m1, y = Z.pos m1) as [m1 Hm1].
    { change (2 ^ 52) with 4503599627370496 in *. destruct y; try lia. eauto. }
    rewrite Hm1 in *.
    destruct (round_finish m1 (e + 1)) as (m & j & Hres & Hj & Hval & Hmb); try lia.
    exists m, (1 + j).
    replace (e + (1 + j)) with (e + 1 + j) by lia.
    rewrite Hres. split; [reflexivity|]. split; [lia|]. split; [exact Hmb|].
    rewrite Z.pow_add_r by lia.
    replace (Z.pos m * (2 ^ 1 * 2 ^ j)) with (2 * (Z.pos m * 2 ^ j)) by ring.
    rewrite Hval.
    change (2 ^ 52) with 4503599627370496 in *.
    change (2 ^ 53) with 9007199254740992 in *.
    change (2 ^ 54) with 18014398509481984 in *.
    nia.
Qed.

Lemma round_exact (m : positive) (e : Z) :
  2 ^ 52 <= Z.pos m < 2 ^ 53 -> -1074 <= e <= 971 ->
  binary_round_aux 53 1024 false (Z.pos m) e loc_Exact = S754_finite false m e.
Proof.
  intros Hm He.
  assert (Z.pos (digits2_pos m) = 53) as Hd by (apply digits2_pos_unique; lia).
  unfold binary_round_aux. rewrite shr_fexp_keep by (auto; lia).
  cbn [shr_record_of_loc shr_m loc_of_shr_record round_nearest_even].
  rewrite shr_fexp_keep by (auto; lia).
  cbn [shr_record_of_loc shr_m].
  assert ((e <=? 1024 - 53) = true) as -> by (apply Z.leb_le; lia).
  reflexivity.
Qed.

(** The double of an integer below 2^53 is that integer, with a mantissa of
    53 bits. *)
Lemma of_Z_normal (z : Z) :
  0 < z < 2 ^ 53 ->
  exists m a,
    Double.of_Z z = S754_finite false m (- a)
    /\ 0 <= a <= 52 /\ Z.pos m = z * 2 ^ a /\ 2 ^ 52 <= Z.pos m < 2 ^ 53.
Proof.
  intros Hz. destruct z as [|p|]; try lia.
  pose proof (digits2_pos_bounds p) as Hd.
  set (d := Z.pos (digits2_pos p)) in *.
  assert (1 <= d <= 53) as Hd53.
  { split; [unfold d; lia|].
    assert (d - 1 < 53); [|lia]. apply (Z.pow_lt_mono_r_iff 2); lia. }
  unfold Double.of_Z, Double.prec, Double.emax, binary_normalize, binary_round.
  fold d. unfold shl_align, fexp, emin.
  replace (Z.max (d + 0 - 53) (3 - 1024 - 53) - 0) with (d - 53) by lia.
  replace (Z.max (d + 0 - 53) (3 - 1024 - 53)) with (d - 53) by lia.
  destruct (d - 53) as [|k|k] eqn:Hk; try lia.
  - exists p, 0. rewrite round_exact by (replace d with 53 in * by lia; lia).
    replace d with 53 in * by lia. simpl Z.opp. rewrite Z.mul_1_r.
    repeat split; lia.
  - exists (Pos.iter xO p k), (Z.pos k).
    assert (Z.pos (Pos.iter xO p k) = Z.pos p * 2 ^ Z.pos k) as Hit by apply iter_xO.
    assert (Z.pos k = 53 - d) as Hkd by lia.
    assert (2 ^ 52 <= Z.pos (Pos.iter xO p k) < 2 ^ 53) as Hb.
    { rewrite Hit, Hkd.
      assert (2 ^ 52 = 2 ^ (d - 1) * 2 ^ (53 - d)) as ->
        by (rewrite <- Z.pow_add_r by lia; f_equal; lia).
      assert (2 ^ 53 = 2 ^ d * 2 ^ (53 - d)) as ->
        by (rewrite <- Z.pow_add_r by lia; f_equal; lia).
      assert (0 < 2 ^ (53 - d)) by (apply Z.pow_pos_nonneg; lia).
      split; [apply Z.mul_le_mono_nonneg_r|apply Z.mul_lt_mono_pos_r]; lia. }
    rewrite round_exact by (auto; lia).
    change (Z.neg k) with (- Z.pos k).
    repeat split; try lia.
Qed.

(** The quotient of two doubles with mantissas of 53 bits, in the standard
    model of rounding: the exact quotient times [1 + delta], where
    [|delta| <= 2^-53]. *)
Lemma div_normal (m1 m2 : positive) (e1 e2 : Z) :
  2 ^ 52 <= Z.pos m1 < 2 ^ 53 -> 2 ^ 52 <= Z.pos m2 < 2 ^ 53 ->
  -52 <= e1 <= 0 -> -52 <= e2 <= 0 ->
  exists m j,
    Double.div (S754_finite false m1 e1) (S754_finite false m2 e2)
    = S754_finite false m (e1 - e2 - 53 + j)
    /\ 0 <= j <= 2 /\ 2 ^ 52 <= Z.pos m < 2 ^ 53
    /\ 2 ^ 53 * Z.abs (Z.pos m * 2 ^ j * Z.pos m2 - Z.pos m1 * 2 ^ 53)
       <= Z.pos m1 * 2 ^ 53.
Proof.
  intros H1 H2 He1 He2.
  assert (Z.pos (digits2_pos m1) = 53) as Hd1 by (apply digits2_pos_unique; lia).
  assert (Z.pos (digits2_pos m2) = 53) as Hd2 by (apply digits2_pos_unique; lia).
  unfold Double.div, Double.prec, Double.emax, SFdiv, SFdiv_core_binary.
  cbn [Zdigits2 xorb]. rewrite Hd1, Hd2.
  replace (Z.min (fexp 53 1024 (53 + e1 - (53 + e2))) (e1 - e2))
    with (e1 - e2 - 53) by (unfold fexp, emin; lia).
  replace (e1 - e2 - (e1 - e2 - 53)) with 53 by lia.
  cbv iota. rewrite Z.shiftl_mul_pow2 by lia.
  pose proof (Z_div_mod (Z.pos m1 * 2 ^ 53) (Z.pos m2) eq_refl) as Hdiv.
  destruct (Z.div_eucl (Z.pos m1 * 2 ^ 53) (Z.pos m2)) as [q r].
  destruct Hdiv as [Hqr Hr].
  assert (2 ^ 52 <= q < 2 ^ 54) as Hq.
  { change (2 ^ 52) with 4503599627370496 in *.
    change (2 ^ 53) with 9007199254740992 in *.
    change (2 ^ 54) with 18014398509481984 in *. nia. }
  destruct q as [|q|q]; try (change (2 ^ 52) with 4503599627370496 in Hq; lia).
  destruct (round_quotient q (e1 - e2 - 53) (Z.pos m2) r Hq) as (m & j & Hres & Hj & Hm & Hb);
    try lia.
  exists m, j. rewrite Hres. split; [reflexivity|]. split; [exact Hj|].
  split; [exact Hm|]. rewrite Hqr.
  replace (Z.pos m2 * Z.pos q + r) with (Z.pos q * Z.pos m2 + r) by ring.
  exact Hb.
Qed.

Lemma tenths_nearest (T N m A B J D : Z) :
  0 < T -> 0 < N -> 20 * T < 2 ^ 53 ->
  0 < A -> 0 < B -> 0 < J -> 0 < D -> 0 < m ->
  D * (B * J) = A * 2 ^ 53 ->
  2 ^ 53 * Z.abs (m * J * (N * B) - T * A * 2 ^ 53) <= T * A * 2 ^ 53 ->
  Z.abs (2 * (Double.tenths m D * N - 10 * T)) <= N.
Proof.
  intros HT HN H20 HA HB HJ HD Hm HK Hb.
  unfold Double.tenths. set (n := (20 * m + D) / (2 * D)).
  assert (2 * D * n <= 20 * m + D < 2 * D * n + 2 * D) as Hn.
  { pose proof (Z.div_mod (20 * m + D) (2 * D)) as E.
    pose proof (Z.mod_pos_bound (20 * m + D) (2 * D)) as M.
    fold n in E. lia. }
  change (2 ^ 53) with 9007199254740992 in *.
  set (P := 9007199254740992) in *.
  set (X := m * J * (N * B)) in *.
  set (K := A * P) in *.
  assert (0 < K) as HKpos by (unfold K, P; lia).
  assert (Z.abs (X - T * K) <= T * A) as Hx.
  { replace (T * A * P) with (T * K) in Hb by (unfold K; ring).
    assert (P * Z.abs (X - T * K) <= P * (T * A)) as H'
      by (replace (P * (T * A)) with (T * K) by (unfold K; ring); exact Hb).
    apply Z.mul_le_mono_pos_l in H'; [exact H'|unfold P; lia]. }
  apply Z.abs_le in Hx.
  assert (20 * (T * A) < K) as Hsmall.
  { unfold K. replace (20 * (T * A)) with (A * (20 * T)) by ring.
    apply Z.mul_lt_mono_pos_l; lia. }
  (* the two bounds of the floor, scaled by N * B * J *)
  assert (2 * n * N * K <= 20 * X + N * K) as Hlo.
  { replace (2 * n * N * K) with ((2 * D * n) * (N * (B * J)))
      by (rewrite <- HK; ring).
    replace (20 * X + N * K) with ((20 * m + D) * (N * (B * J)))
      by (unfold X; rewrite <- HK; ring).
    apply Z.mul_le_mono_nonneg_r; [|lia].
    apply Z.mul_nonneg_nonneg; [lia|]. apply Z.mul_nonneg_nonneg; lia. }
  assert (20 * X + N * K < 2 * (n + 1) * N * K) as Hhi.
  { replace (2 * (n + 1) * N * K) with ((2 * D * n + 2 * D) * (N * (B * J)))
      by (rewrite <- HK; ring).
    replace (20 * X + N * K) with ((20 * m + D) * (N * (B * J)))
      by (unfold X; rewrite <- HK; ring).
    apply Z.mul_lt_mono_pos_r; [|lia].
    apply Z.mul_pos_pos; [lia|]. apply Z.mul_pos_pos; lia. }
  assert ((2 * n * N - 20 * T - N) * K < 1 * K) as H1.
  { replace ((2 * n * N - 20 * T - N) * K)
      with (2 * n * N * K - 20 * (T * K) - N * K) by ring. lia. }
  assert ((20 * T - N - 2 * n * N) * K < 1 * K) as H2.
  { replace ((20 * T - N - 2 * n * N) * K)
      with (20 * (T * K) - N * K - 2 * n * N * K) by ring. lia. }
  apply Z.mul_lt_mono_pos_r in H1; [|exact HKpos].
  apply Z.mul_lt_mono_pos_r in H2; [|exact HKpos].
  apply Z.abs_le. lia.
Qed.

(** [(T / N).toFixed(1)] for integers: the digits of a count of tenths that
    is as close to [T / N] as a count of tenths can be. *)
Lemma toFixed1_div_nearest (T N : Z) :
  0 < T -> 0 < N < 2 ^ 53 -> 20 * T < 2 ^ 53 ->
  exists t,
    Double.toFixed1 (Double.div (Double.of_Z T) (Double.of_Z N))
    = Double.fixed1 t
    /\ nearest_tenth T N t.
Proof.
  intros HT HN H20.
  destruct (of_Z_normal T) as (m1 & a & E1 & Ha & V1 & B1);
    [change (2 ^ 53) with 9007199254740992 in *; lia|].
  destruct (of_Z_normal N) as (m2 & b & E2 & Hb & V2 & B2); [lia|].
  rewrite E1, E2.
  destruct (div_normal m1 m2 (- a) (- b) B1 B2) as (m & j & Hres & Hj & Bm & Hbound);
    try lia.
  rewrite Hres.
  set (A := 2 ^ a) in *. set (B := 2 ^ b) in *. set (J := 2 ^ j) in *.
  assert (0 < A) as HA by (apply Z.pow_pos_nonneg; lia).
  assert (0 < B) as HB by (apply Z.pow_pos_nonneg; lia).
  assert (0 < J) as HJ by (apply Z.pow_pos_nonneg; lia).
  rewrite V1, V2 in Hbound.
  (* the quotient is below 2^50, so its exponent is negative *)
  assert (b + j < a + 53) as Hneg.
  { destruct (Z_lt_le_dec (b + j) (a + 53)) as [|Hge]; auto. exfalso.
    assert (A * 2 ^ 53 <= B * J) as Hpow.
    { unfold A, B, J. rewrite <- !Z.pow_add_r by lia.
      apply Z.pow_le_mono_r; lia. }
    change (2 ^ 52) with 4503599627370496 in *.
    change (2 ^ 53) with 9007199254740992 in *.
    assert (Z.pos m * J * (N * B) <= T * A * 9007199254740992 + T * A) as Hup.
    { assert (Z.abs (Z.pos m * J * (N * B) - T * A * 9007199254740992) <= T * A)
        as Hx; [|apply Z.abs_le in Hx; lia].
      apply (Z.mul_le_mono_pos_l _ _ 9007199254740992); [lia|].
      replace (9007199254740992 * (T * A)) with (T * A * 9007199254740992) by ring.
      exact Hbound. }
    assert (4503599627370496 * (B * J) <= Z.pos m * J * (N * B)) as Hdown.
    { replace (Z.pos m * J * (N * B)) with ((Z.pos m * N) * (B * J)) by ring.
      apply Z.mul_le_mono_nonneg_r; [lia|]. nia. }
    assert (4503599627370496 * (A * 9007199254740992) <= 4503599627370496 * (B * J))
      by (apply Z.mul_le_mono_nonneg_l; lia).
    assert (T * A * 9007199254740992 + T * A < 4503599627370496 * (A * 9007199254740992)).
    { replace (T * A * 9007199254740992 + T * A) with (A * (T * 9007199254740993)) by ring.
      replace (4503599627370496 * (A * 9007199254740992))
        with (A * (4503599627370496 * 9007199254740992)) by ring.
      apply Z.mul_lt_mono_pos_l; lia. }
    lia. }
  set (E := - a - - b - 53 + j) in *.
  assert (E < 0) as HE by (unfold E; lia).
  set (D := 2 ^ (- E)).
  assert (0 < D) as HD by (apply Z.pow_pos_nonneg; lia).
  assert (D * (B * J) = A * 2 ^ 53) as HK.
  { unfold D, B, J, A. rewrite <- !Z.pow_add_r by lia. f_equal. unfold E. lia. }
  exists (Double.tenths (Z.pos m) D). split.
  - unfold Double.toFixed1, Double.fraction.
    assert ((0 <=? E) = false) as -> by (apply Z.leb_gt; exact HE).
    fold D.
    assert ((10 ^ 21 * D <=? Z.pos m) = false) as ->.
    { apply Z.leb_gt. change (2 ^ 53) with 9007199254740992 in Bm.
      change (10 ^ 21) with 1000000000000000000000. nia. }
    reflexivity.
  - unfold nearest_tenth.
    apply (tenths_nearest T N (Z.pos m) A B J D); auto; lia.
Qed.

(** A nearest count of tenths is the mean rounded half up, unless the mean
    lies halfway between two tenths and the lower one was taken. *)
Lemma nearest_tenth_round_half_up (T N t : Z) :
  0 < N -> nearest_tenth T N t ->
  t = round_half_up T N
  \/ (t + 1 = round_half_up T N /\ 20 * T + N = 2 * N * (t + 1)).
Proof.
  intros HN Hn. unfold nearest_tenth in Hn. apply Z.abs_le in Hn.
  unfold round_half_up. set (h := (20 * T + N) / (2 * N)).
  assert (2 * N * h <= 20 * T + N < 2 * N * h + 2 * N) as Hh.
  { pose proof (Z.div_mod (20 * T + N) (2 * N)) as E.
    pose proof (Z.mod_pos_bound (20 * T + N) (2 * N)) as M.
    fold h in E. lia. }
  assert (t <= h <= t + 1) by nia.
  assert (h = t \/ h = t + 1) as [->| ->] by lia; [left; reflexivity|].
  right. split; [reflexivity|]. nia.
Qed.

(** *** Addition

    The sum of two non-negative integers that stays below 2^53 is exact:
    [SFadd] aligns the two mantissas, their sum is the mantissa of the result
    followed by zero bits, and rounding shifts those out. *)

Lemma iter_pos_iter {A : Type} (f : A -> A) (n : positive) (x : A) :
  iter_pos f n x = Pos.iter f x n.
Proof.
  revert x. induction n as [n IH|n IH|]; intros x; cbn [iter_pos Pos.iter].
  - rewrite !IH. now rewrite !Pos.iter_swap.
  - now rewrite !IH.
  - reflexivity.
Qed.

(** Shifting out bits that are zero loses nothing. *)
Lemma shr_zero_bits (q n : positive) :
  iter_pos shr_1 n (Build_shr_record (Z.pos (Pos.iter xO q n)) false false)
  = Build_shr_record (Z.pos q) false false.
Proof.
  rewrite iter_pos_iter.
  induction n as [|n IH] using Pos.peano_ind.
  - reflexivity.
  - rewrite Pos.iter_succ_r, Pos.iter_succ. cbn [shr_1 orb]. exact IH.
Qed.

(** The mantissa of 53 bits [q] followed by [k] zero bits rounds to
    itself. *)
Lemma normalize_scaled (q : positive) (k e : Z) :
  2 ^ 52 <= Z.pos q < 2 ^ 53 -> 0 <= k -> -1074 <= e -> e + k <= 971 ->
  binary_normalize 53 1024 (Z.pos q * 2 ^ k) e false
  = S754_finite false q (e + k).
Proof.
  intros Hq Hk He1 He2.
  destruct k as [|k|k]; [| |lia].
  - rewrite Z.mul_1_r, Z.add_0_r. unfold binary_normalize, binary_round.
    assert (Z.pos (digits2_pos q) = 53) as Hd by (apply digits2_pos_unique; lia).
    unfold shl_align, fexp, emin. rewrite Hd.
    replace (Z.max (53 + e - 53) (3 - 1024 - 53) - e) with 0 by lia.
    apply round_exact; lia.
  - rewrite <- iter_xO. set (M := Pos.iter xO q k).
    assert (Z.pos M = Z.pos q * 2 ^ Z.pos k) as HM by apply iter_xO.
    assert (Z.pos (digits2_pos M) = 53 + Z.pos k) as Hd.
    { apply digits2_pos_unique. rewrite HM.
      replace (53 + Z.pos k - 1) with (52 + Z.pos k) by lia.
      rewrite !Z.pow_add_r by lia.
      assert (0 < 2 ^ Z.pos k) by (apply Z.pow_pos_nonneg; lia).
      split; [apply Z.mul_le_mono_nonneg_r|apply Z.mul_lt_mono_pos_r]; lia. }
    unfold binary_normalize, binary_round.
    unfold shl_align, fexp, emin. rewrite Hd.
    replace (Z.max (53 + Z.pos k + e - 53) (3 - 1024 - 53) - e) with (Z.pos k) by lia.
    unfold binary_round_aux, shr_fexp, fexp, emin. cbn [Zdigits2]. rewrite Hd.
    replace (Z.max (53 + Z.pos k + e - 53) (3 - 1024 - 53) - e) with (Z.pos k) by lia.
    cbn [shr shr_record_of_loc]. unfold M. rewrite shr_zero_bits.
    cbn [shr_m loc_of_shr_record round_nearest_even].
    assert (Z.pos (digits2_pos q) = 53) as Hdq by (apply digits2_pos_unique; lia).
    cbn [Zdigits2]. rewrite Hdq.
    replace (Z.max (53 + (e + Z.pos k) - 53) (3 - 1024 - 53) - (e + Z.pos k)) with 0 by lia.
    cbn [shr shr_record_of_loc shr_m].
    assert ((e + Z.pos k <=? 1024 - 53) = true) as -> by (apply Z.leb_le; lia).
    reflexivity.
Qed.

Lemma of_Z_0 : Double.of_Z 0 = S754_zero false.
Proof. reflexivity. Qed.

(** The sum of two integers is exact when it is below 2^53. *)
Lemma add_exact (a b : Z) :
  0 <= a -> 0 <= b -> a + b < 2 ^ 53 ->
  Double.add (Double.of_Z a) (Double.of_Z b) = Double.of_Z (a + b).
Proof.
  intros Ha Hb Hab.
  assert (a = 0 \/ 0 < a) as [->|Ha'] by lia.
  { rewrite of_Z_0. simpl Z.add.
    assert (b = 0 \/ 0 < b) as [->|Hb'] by lia; [reflexivity|].
    destruct (of_Z_normal b) as (m & e & -> & _); [lia|reflexivity]. }
  assert (b = 0 \/ 0 < b) as [->|Hb'] by lia.
  { rewrite of_Z_0, Z.add_0_r.
    destruct (of_Z_normal a) as (m & e & -> & _); [lia|reflexivity]. }
  destruct (of_Z_normal a) as (ma & ea & -> & Hea & Va & Ba); [lia|].
  destruct (of_Z_normal b) as (mb & eb & -> & Heb & Vb & Bb); [lia|].
  destruct (of_Z_normal (a + b)) as (mz & ez & -> & Hez & Vz & Bz); [lia|].
  assert (0 < 2 ^ ea) as Pa by (apply Z.pow_pos_nonneg; lia).
  assert (0 < 2 ^ eb) as Pb by (apply Z.pow_pos_nonneg; lia).
  assert (0 < 2 ^ ez) as Pz by (apply Z.pow_pos_nonneg; lia).
  (* the sum has no more leading zeros than either term *)
  assert (forall x ex mx, 0 <= ex -> Z.pos mx = x * 2 ^ ex ->
            2 ^ 52 <= Z.pos mx -> x <= a + b -> ez <= ex) as Hle.
  { intros x ex mx Hex Vx Bx Hx.
    destruct (Z_le_gt_dec ez ex) as [|Hgt]; auto. exfalso.
    assert (2 ^ ez = 2 ^ ex * 2 ^ (ez - ex)) as E
      by (rewrite <- Z.pow_add_r by lia; f_equal; lia).
    assert (2 <= 2 ^ (ez - ex)) as H2.
    { change 2 with (2 ^ 1) at 1. apply Z.pow_le_mono_r; lia. }
    assert (0 < 2 ^ ex) by (apply Z.pow_pos_nonneg; lia).
    rewrite E in Vz.
    assert (x * 2 ^ ex * 2 <= (a + b) * (2 ^ ex * 2 ^ (ez - ex))); [|lia].
    replace ((a + b) * (2 ^ ex * 2 ^ (ez - ex)))
      with ((a + b) * 2 ^ ex * 2 ^ (ez - ex)) by ring.
    apply Z.mul_le_mono_nonneg; try lia.
    apply Z.mul_le_mono_nonneg_r; lia. }
  assert (ez <= ea) as Hza by (apply (Hle a ea ma); lia).
  assert (ez <= eb) as Hzb by (apply (Hle b eb mb); lia).
  unfold Double.add, Double.prec, Double.emax, SFadd. cbn [cond_Zopp].
  set (E := Z.max ea eb).
  assert (Z.min (- ea) (- eb) = - E) as -> by (unfold E; lia).
  assert (forall mx ex, 0 <= ex <= E ->
            Z.pos (fst (shl_align mx (- ex) (- E))) = Z.pos mx * 2 ^ (E - ex)) as Hsh.
  { intros mx ex Hex. unfold shl_align.
    destruct (- E - - ex) as [|d|d] eqn:D.
    - replace (E - ex) with 0 by lia. cbn [fst]. simpl. lia.
    - lia.
    - cbn [fst]. rewrite iter_xO. f_equal. f_equal. lia. }
  rewrite !Hsh by (unfold E; lia).
  replace (Z.pos ma * 2 ^ (E - ea) + Z.pos mb * 2 ^ (E - eb))
    with (Z.pos mz * 2 ^ (E - ez)).
  - rewrite normalize_scaled by (unfold E in *; lia).
    f_equal. lia.
  - rewrite Va, Vb, Vz.
    rewrite <- !Z.mul_assoc, <- !Z.pow_add_r by (unfold E; lia).
    replace (ez + (E - ez)) with E by lia.
    replace (ea + (E - ea)) with E by lia.
    replace (eb + (E - eb)) with E by lia. ring.
Qed.

Set Implicit Arguments.
End DoubleFacts.

(** The sum of two quantities is exact as long as it is below 2^53, and
    rounded past it; a quantity that is [undefined] gives [NaN]. *)
Lemma of_double_of_Z (z : Z) :
  0 <= z < 2 ^ 53 -> of_double (Double.of_Z z) = Num z.
Proof.
  intros Hz. assert (z = 0 \/ 0 < z) as [->|Hpos] by lia; [reflexivity|].
  destruct (DoubleFacts.of_Z_normal z) as (m & a & -> & Ha & Hm & _); [lia|].
  cbn [of_double cond_Zopp]. f_equal.
  rewrite Z.shiftl_opp_r, Z.shiftr_div_pow2, Hm by lia.
  apply Z.div_mul. apply Z.pow_nonzero; lia.
Qed.

Lemma js_add_exact (x y : Z) :
  0 <= x -> 0 <= y -> x + y < 2 ^ 53 ->
  js_add (Some (Num x)) (Num y) = Num (x + y).
Proof.
  intros Hx Hy Hxy. unfold js_add. cbn [to_double].
  rewrite DoubleFacts.add_exact by assumption.
  apply of_double_of_Z. lia.
Qed.

Lemma js_add_examples :
  js_add (Some (Num 2)) (Num 1) = Num 3
  /\ js_add None (Num 1) = NaN
  /\ js_add (Some (Num (2 ^ 53))) (Num 1) = Num (2 ^ 53)
  /\ js_add (Some (Num (2 ^ 53))) (Num 3) = Num (2 ^ 53 + 4).
Proof. vm_compute. repeat split. Qed.

(** ** The repository keeps its invariant *)

Lemma with_reviews_same s : with_reviews (reviews s) (currentReviewId s) s = s.
Proof. destruct s; reflexivity. Qed.

Lemma updateProduct_frame id d s :
  users (snd (updateProduct id d s)) = users s /\ cart (snd (updateProduct id d s)) = cart s /\ reviews (snd (updateProduct id d s)) = reviews s
  /\ currentUserId (snd (updateProduct id d s)) = currentUserId s
  /\ currentProductId (snd (updateProduct id d s)) = currentProductId s
  /\ currentCartItemId (snd (updateProduct id d s)) = currentCartItemId s
  /\ currentReviewId (snd (updateProduct id d s)) = currentReviewId s.
Proof.
  unfold updateProduct. destruct (JsMap.get id (products s)); simpl; tauto.
Qed.

Lemma updateProductRatings_frame s :
  users (updateProductRatings s) = users s /\ cart (updateProductRatings s) = cart s /\ reviews (updateProductRatings s) = reviews s
  /\ currentUserId (updateProductRatings s) = currentUserId s
  /\ currentProductId (updateProductRatings s) = currentProductId s
  /\ currentCartItemId (updateProductRatings s) = currentCartItemId s
  /\ currentReviewId (updateProductRatings s) = currentReviewId s.
Proof.
  unfold updateProductRatings.
  destruct (JsMap.values (products s)); [simpl; tauto|].
  destruct (approvedReviews s); [simpl; tauto|].
  apply updateProduct_frame.
Qed.

Lemma first_ok_set k v m :
  first_ok m -> Product.id v = k -> first_ok (JsMap.set k v m).
Proof.
  intros (k0 & p & rest & -> & Hid) Hv. simpl.
  destruct (k0 =? k) eqn:E.
  - apply Z.eqb_eq in E.
    eexists _, _, _; split; [reflexivity | congruence].
  - eexists _, _, _; split; [reflexivity | congruence].
Qed.

Lemma first_ok_update id d m p :
  first_ok m -> JsMap.get id m = Some p ->
  first_ok (JsMap.set id (merge_product p d) m).
Proof.
  intros (k0 & p0 & rest & -> & Hid). simpl.
  destruct (k0 =? id) eqn:E; intros Hget.
  - injection Hget as <-. eexists _, _, _; split; [reflexivity | exact Hid].
  - eexists _, _, _; split; [reflexivity | exact Hid].
Qed.

Ltac frame_rewrite F :=
  let Eu := fresh in let Ec := fresh in let Er := fresh in
  let Cu := fresh in let Cp := fresh in let Cc := fresh in let Cr := fresh in
  destruct F as (Eu & Ec & Er & Cu & Cp & Cc & Cr);
  rewrite ?Eu, ?Ec, ?Er, ?Cu, ?Cp, ?Cc, ?Cr.

Lemma wf_updateProduct id d s : wf s -> wf (snd (updateProduct id d s)).
Proof.
  intros [H1 H0 H2 H3 H4 H5 H6 H7].
  constructor; try (frame_rewrite (updateProduct_frame id d s); assumption).
  - unfold updateProduct. destruct (JsMap.get id (products s)) eqn:E; simpl; auto.
    now apply first_ok_update.
  - unfold updateProduct. destruct (JsMap.get id (products s)) eqn:E; simpl; auto.
    rewrite JsMapFacts.keys_set. unfold JsMap.has. now rewrite E.
Qed.

Lemma wf_updateProductRatings s : wf s -> wf (updateProductRatings s).
Proof.
  intros H. unfold updateProductRatings.
  destruct (JsMap.values (products s)); auto.
  destruct (approvedReviews s); auto.
  now apply wf_updateProduct.
Qed.

Lemma wf_createProduct d s : wf s -> wf (snd (createProduct d s)).
Proof.
  intros [H1 H0 H2 H3 H4 H5 H6 H7]. constructor; simpl; auto.
  - now apply first_ok_set.
  - apply JsMapForall.forall_keys_set; [|lia].
    eapply Forall_impl; [|exact H0]. simpl. intros; lia.
Qed.

Lemma wf_createUser d s : wf s -> wf (snd (createUser d s)).
Proof.
  intros [H1 H0 H2 H3 H4 H5 H6 H7]. constructor; simpl; auto.
  - apply JsMapForall.forall_keys_set; [|lia].
    eapply Forall_impl; [|exact H6]. simpl. intros; lia.
  - destruct H7 as (rest & Hu & Hrest). rewrite Hu in *.
    assert (1 < currentUserId s) as Hlt by now inversion H6.
    rewrite JsMapFacts.set_cons.
    destruct (1 =? currentUserId s) eqn:E; [apply Z.eqb_eq in E; lia|].
    eexists; split; [reflexivity|].
    now apply JsMapForall.forall_set.
Qed.

Lemma wf_with_reviews_set k r s :
  wf s -> k < currentReviewId s + 1 ->
  wf (with_reviews (JsMap.set k r (reviews s)) (currentReviewId s + 1) s).
Proof.
  intros [H1 H0 H2 H3 H4 H5 H6 H7] Hk. constructor; simpl; auto.
  apply JsMapForall.forall_keys_set; auto.
  eapply Forall_impl; [|exact H5]. simpl. intros; lia.
Qed.

Lemma wf_createReview now d s : wf s -> wf (snd (createReview now d s)).
Proof.
  intros H. unfold createReview. simpl.
  apply wf_updateProductRatings, wf_with_reviews_set; auto. lia.
Qed.

Lemma wf_updateReview id a s : wf s -> wf (snd (updateReview id a s)).
Proof.
  intros H. unfold updateReview.
  destruct (JsMap.get id (reviews s)) eqn:E; simpl; auto.
  apply wf_updateProductRatings.
  destruct H as [H1 H0 H2 H3 H4 H5 H6 H7]. constructor; simpl; auto.
  rewrite JsMapFacts.keys_set.
  assert (JsMap.has id (reviews s) = true) as ->; auto.
  unfold JsMap.has. now rewrite E.
Qed.

Lemma wf_with_reviews_remove k s :
  wf s -> wf (with_reviews (JsMap.remove k (reviews s)) (currentReviewId s) s).
Proof.
  intros [H1 H0 H2 H3 H4 H5 H6 H7]. constructor; simpl; auto.
  now apply JsMapForall.forall_keys_remove.
Qed.

Lemma wf_deleteReview id s : wf s -> wf (snd (deleteReview id s)).
Proof.
  intros H. unfold deleteReview, JsMap.delete.
  destruct (JsMap.has id (reviews s)); simpl.
  - now apply wf_updateProductRatings, wf_with_reviews_remove.
  - now apply wf_with_reviews_remove.
Qed.

Lemma cart_get_id id item s :
  wf s -> JsMap.get id (cart s) = Some item -> CartItem.id item = id.
Proof.
  intros H Hget. apply JsMapFacts.get_some_in in Hget.
  pose proof (wf_cart_ids H) as Hids. rewrite Forall_forall in Hids.
  exact (Hids _ Hget).
Qed.

Lemma wf_updateCartItemQuantity id q s :
  wf s -> wf (snd (updateCartItemQuantity id q s)).
Proof.
  intros H. unfold updateCartItemQuantity.
  destruct (JsMap.get id (cart s)) eqn:E; simpl; auto.
  pose proof (cart_get_id _ H E) as Hid.
  destruct H as [H1 H0 H2 H3 H4 H5 H6 H7]. constructor; simpl; auto.
  - now apply JsMapFacts.nodup_set.
  - now apply JsMapForall.forall_set.
  - rewrite JsMapFacts.keys_set.
    assert (JsMap.has id (cart s) = true) as ->; auto.
    unfold JsMap.has. now rewrite E.
Qed.

Lemma wf_addToCart d s : wf s -> wf (snd (addToCart d s)).
Proof.
  intros H. unfold addToCart.
  destruct (find (same_line d) (JsMap.values (cart s))).
  - now apply wf_updateCartItemQuantity.
  - destruct H as [H1 H0 H2 H3 H4 H5 H6 H7]. constructor; simpl; auto.
    + now apply JsMapFacts.nodup_set.
    + now apply JsMapForall.forall_set.
    + apply JsMapForall.forall_keys_set; [|lia].
      eapply Forall_impl; [|exact H4]. simpl. intros; lia.
Qed.

Lemma wf_removeFromCart id s : wf s -> wf (snd (removeFromCart id s)).
Proof.
  intros [H1 H0 H2 H3 H4 H5 H6 H7]. constructor; simpl; auto.
  - now apply JsMapFacts.nodup_remove.
  - now apply JsMapForall.forall_remove.
  - now apply JsMapForall.forall_keys_remove.
Qed.

Lemma wf_clearCart u s : wf s -> wf (snd (clearCart u s)).
Proof.
  intros [H1 H0 H2 H3 H4 H5 H6 H7]. constructor; simpl; auto.
  - apply JsMapForall.fold_remove_ind with (I := fun m => NoDup (JsMap.keys m)); auto.
    intros. now apply JsMapFacts.nodup_remove.
  - apply JsMapForall.fold_remove_ind
      with (I := Forall (fun e => CartItem.id (snd e) = fst e)); auto.
    intros. now apply JsMapForall.forall_remove.
  - apply JsMapForall.fold_remove_ind
      with (I := fun m => Forall (fun k => k < currentCartItemId s) (JsMap.keys m));
      auto.
    intros. now apply JsMapForall.forall_keys_remove.
Qed.

Lemma wf_storage : wf storage.
Proof.
  constructor; simpl.
  - eexists _, _, _. split; reflexivity.
  - repeat constructor.
  - constructor.
  - constructor.
  - constructor.
  - constructor.
  - repeat constructor.
  - eexists. split; [reflexivity | constructor].
Qed.

Lemma wf_exec s o : wf s -> wf (exec s o).
Proof.
  intros H. destruct o; unfold exec.
  - now apply wf_createProduct.
  - now apply wf_updateProduct.
  - now apply wf_createUser.
  - now apply wf_createReview.
  - now apply wf_updateReview.
  - now apply wf_deleteReview.
  - now apply wf_addToCart.
  - now apply wf_updateCartItemQuantity.
  - now apply wf_removeFromCart.
  - now apply wf_clearCart.
Qed.

Lemma wf_run ops s : wf s -> wf (run ops s).
Proof.
  unfold run. revert s. induction ops as [|o ops IH]; simpl; auto using wf_exec.
Qed.

Lemma reachable_wf s : reachable s -> wf s.
Proof. induction 1; auto using wf_storage, wf_exec. Qed.

(** ** Reviews: creation and deletion *)

Lemma reviews_updateProductRatings s :
  reviews (updateProductRatings s) = reviews s.
Proof. apply updateProductRatings_frame. Qed.

Lemma getReview_updateProductRatings k s :
  getReview k (updateProductRatings s) = getReview k s.
Proof. unfold getReview. now rewrite reviews_updateProductRatings. Qed.

Lemma updateProductRatings_first (s : MemStorage) :
  first_ok (products s) ->
  exists p p',
    first_product s = Some p
    /\ first_product (updateProductRatings s) = Some p'
    /\ match approvedReviews s with
       | [] => p' = p
       | (_ :: _) as l => p' = merge_product p (rating_update l)
       end.
Proof.
  intros (k & p & rest & Hp & Hid).
  unfold first_product, updateProductRatings. rewrite Hp.
  cbn [JsMap.values map snd hd_error].
  destruct (approvedReviews s) as [|r l] eqn:Hl.
  - exists p, p. rewrite Hp. auto.
  - exists p, (merge_product p (rating_update (r :: l))).
    unfold updateProduct. rewrite Hp. cbn [JsMap.get]. rewrite Hid, Z.eqb_refl.
    cbn [snd products with_products]. rewrite JsMapFacts.set_cons, Z.eqb_refl.
    auto.
Qed.

Lemma approvedReviews_updateProductRatings s :
  approvedReviews (updateProductRatings s) = approvedReviews s.
Proof. unfold approvedReviews. now rewrite reviews_updateProductRatings. Qed.

(** The recomputation after [createReview]: the new review, approved, comes
    after the approved reviews of before, and the first product takes their
    number and their [averageRating]. *)
Lemma createReview_rating (now : string) (d : InsertReview.t) (s : MemStorage) :
  wf s ->
  approvedReviews (snd (createReview now d s))
  = (approvedReviews s ++ [fst (createReview now d s)])%list
  /\ exists p',
       first_product (snd (createReview now d s)) = Some p'
       /\ Product.rating p'
          = Some (averageRating
                    (approvedReviews s ++ [fst (createReview now d s)])%list)
       /\ Product.reviewCount p'
          = Z.of_nat (List.length (approvedReviews s)) + 1.
Proof.
  intros Hwf. unfold createReview. cbn [fst snd].
  set (r := Review.mk (currentReviewId s) (InsertReview.name d)
              (InsertReview.rating d) (or_empty (InsertReview.comment d))
              true now).
  set (s1 := with_reviews (JsMap.set (currentReviewId s) r (reviews s))
               (currentReviewId s + 1) s).
  assert (approvedReviews s1 = (approvedReviews s ++ [r])%list) as Ha.
  { unfold approvedReviews, s1. cbn [reviews with_reviews].
    rewrite JsMapFacts.set_absent.
    - unfold JsMap.values. rewrite map_app, filter_app. reflexivity.
    - apply JsMapFacts.get_none_keys. intros Hin.
      pose proof (wf_reviews_below Hwf) as Hb. rewrite Forall_forall in Hb.
      apply Hb in Hin. lia. }
  rewrite approvedReviews_updateProductRatings. split; [exact Ha|].
  assert (first_ok (products s1)) as Hfirst by apply Hwf.
  destruct (updateProductRatings_first s1 Hfirst) as (p & p' & _ & H2 & H3).
  exists p'. split; [exact H2|]. rewrite Ha in H3.
  destruct (approvedReviews s ++ [r])%list as [|r0 l] eqn:El.
  - now apply app_eq_nil in El.
  - subst p'. split; [reflexivity|].
    cbn [merge_product rating_update Product.reviewCount
         PartialProduct.reviewCount unless_undefined].
    rewrite <- El, length_app, Nat2Z.inj_add. reflexivity.
Qed.

(** C9. [deleteReview id] answers [true] exactly when a review with that
    identifier is stored; it then removes that review, keeps every other one
    and recomputes the rating.  When no such review is stored it answers
    [false] and the repository is the one it was: no recomputation. *)
Theorem deleteReview_spec (id : Z) (s : MemStorage) :
  match getReview id s with
  | Some _ =>
      fst (deleteReview id s) = true
      /\ snd (deleteReview id s) =
         updateProductRatings
           (with_reviews (JsMap.remove id (reviews s)) (currentReviewId s) s)
      /\ getReview id (snd (deleteReview id s)) = None
      /\ (forall k, k <> id ->
            getReview k (snd (deleteReview id s)) = getReview k s)
  | None => deleteReview id s = (false, s)
  end.
Proof.
  unfold getReview, deleteReview, JsMap.delete, JsMap.has.
  destruct (JsMap.get id (reviews s)) as [r|] eqn:E; cbn [fst snd].
  - repeat split.
    + rewrite reviews_updateProductRatings. cbn [reviews with_reviews].
      apply JsMapFacts.get_remove_same.
    + intros k Hk. rewrite reviews_updateProductRatings.
      cbn [reviews with_reviews]. apply JsMapFacts.get_remove_other. congruence.
  - rewrite JsMapFacts.remove_absent by exact E.
    now rewrite with_reviews_same.
Qed.

(** C8. In every state the repository can reach, [createReview] returns a
    review whose identifier is the counter's value, which no stored review
    has; its comment is the given one, or the empty string when none (or
    [null]) was given; it is approved; it carries the time of the call.  The
    review is stored and the rating is recomputed over the new reviews: the
    approved reviews are those of before followed by the new one, and the
    first product now carries their number as [reviewCount] and their
    [averageRating] as [rating]. *)
Theorem createReview_spec (ops : list op) (now : string) (d : InsertReview.t) :
  let s := run ops storage in
  let r := fst (createReview now d s) in
  let s' := snd (createReview now d s) in
  Review.id r = currentReviewId s
  /\ getReview (Review.id r) s = None
  /\ currentReviewId s' = currentReviewId s + 1
  /\ Review.name r = InsertReview.name d
  /\ Review.rating r = InsertReview.rating d
  /\ Review.comment r =
     match InsertReview.comment d with
     | Some (NotNull c) => c
     | Some Null | None => ""
     end
  /\ Review.approved r = true
  /\ Review.createdAt r = now
  /\ getReview (Review.id r) s' = Some r
  /\ (forall k, k <> Review.id r -> getReview k s' = getReview k s)
  /\ s' = updateProductRatings
            (with_reviews (JsMap.set (Review.id r) r (reviews s))
               (currentReviewId s + 1) s)
  /\ approvedReviews s' = (approvedReviews s ++ [r])%list
  /\ exists p',
       first_product s' = Some p'
       /\ Product.rating p' = Some (averageRating (approvedReviews s ++ [r])%list)
       /\ Product.reviewCount p'
          = Z.of_nat (List.length (approvedReviews s)) + 1.
Proof.
  intros s r s'.
  assert (wf s) as Hwf by apply wf_run, wf_storage.
  destruct (createReview_rating now d Hwf) as [Happroved Hrating].
  subst r s'. unfold createReview in *. cbn [fst snd Review.id
    Review.name Review.rating Review.comment Review.approved Review.createdAt]
    in *.
  repeat split; try assumption.
  - unfold getReview. apply JsMapFacts.get_none_keys. intros Hin.
    pose proof (wf_reviews_below Hwf) as Hb. rewrite Forall_forall in Hb.
    apply Hb in Hin. lia.
  - now destruct (updateProductRatings_frame
      (with_reviews (JsMap.set (currentReviewId s)
         (Review.mk (currentReviewId s) (InsertReview.name d)
            (InsertReview.rating d) (or_empty (InsertReview.comment d)) true now)
         (reviews s)) (currentReviewId s + 1) s)) as (_ & _ & _ & _ & _ & _ & ->).
  - rewrite getReview_updateProductRatings. unfold getReview.
    cbn [reviews with_reviews]. apply JsMapFacts.get_set_same.
  - intros k Hk. rewrite getReview_updateProductRatings. unfold getReview.
    cbn [reviews with_reviews]. apply JsMapFacts.get_set_other. congruence.
Qed.

(** ** Administrators *)

Lemma verifyAdmin_lookup (s : MemStorage) (u p : string) :
  verifyAdmin u p s = true <->
  exists user, getUserByUsername u s = Some user
               /\ User.password user = p /\ User.isAdmin user = true.
Proof.
  unfold verifyAdmin. destruct (getUserByUsername u s) as [user|].
  - rewrite andb_true_iff, String.eqb_eq. split.
    + intros [H1 H2]. now exists user.
    + intros (user' & [= <-] & H1 & H2). auto.
  - split; [discriminate|]. now intros (user & H & _).
Qed.

Lemma find_nonadmin (u : string) (rest : JsMap.t User.t) (user : User.t) :
  Forall (fun e => User.isAdmin (snd e) = false) rest ->
  find (fun x => (User.username x =? u)%string) (JsMap.values rest) = Some user ->
  User.isAdmin user = false.
Proof.
  intros Hrest Hfind. apply find_some in Hfind. destruct Hfind as [Hin _].
  unfold JsMap.values in Hin. apply in_map_iff in Hin.
  destruct Hin as (e & <- & He). rewrite Forall_forall in Hrest. auto.
Qed.

Lemma verifyAdmin_wf (s : MemStorage) (u p : string) :
  wf s -> (verifyAdmin u p s = true <-> u = "admin" /\ p = "admin123").
Proof.
  intros Hwf. destruct (wf_admin Hwf) as (rest & Hu & Hrest).
  unfold verifyAdmin, getUserByUsername. rewrite Hu.
  cbn [JsMap.values map snd find User.username].
  destruct ("admin" =? u)%string eqn:E.
  - apply String.eqb_eq in E. subst u. cbn [User.password User.isAdmin].
    rewrite andb_true_r, String.eqb_eq. intuition congruence.
  - apply String.eqb_neq in E.
    destruct (find _ _) as [user|] eqn:F.
    + rewrite (find_nonadmin _ Hrest F), andb_false_r. intuition congruence.
    + intuition congruence.
Qed.

Lemma admin_member (s : MemStorage) (u p : string) :
  wf s ->
  ((exists user, In user (JsMap.values (users s)) /\ User.username user = u
                 /\ User.password user = p /\ User.isAdmin user = true)
   <-> u = "admin" /\ p = "admin123").
Proof.
  intros Hwf. destruct (wf_admin Hwf) as (rest & Hu & Hrest). rewrite Hu.
  split.
  - intros (user & [<-|Hin] & H1 & H2 & H3); [now subst|].
    unfold JsMap.values in Hin. apply in_map_iff in Hin.
    destruct Hin as (e & <- & He). rewrite Forall_forall in Hrest.
    rewrite (Hrest _ He) in H3. discriminate.
  - intros [-> ->]. eexists. split; [left; reflexivity|]. auto.
Qed.

(** C7. [verifyAdmin username password] is [true] exactly when the lookup by
    username finds a user, the stored password is the given one, and the
    user is an administrator.  In every state reached from the seeded one
    that is: exactly when some stored user has that name, that password and
    the administrator flag, which holds for ("admin", "admin123") and for no
    other name or password; before the seed no credentials are accepted. *)
Theorem verifyAdmin_spec :
  (forall s u p,
     verifyAdmin u p s = true <->
     exists user, getUserByUsername u s = Some user
                  /\ User.password user = p /\ User.isAdmin user = true)
  /\ (forall u p,
        verifyAdmin u p storage = true <-> u = "admin" /\ p = "admin123")
  /\ (forall ops u p,
        let s := run ops storage in
        (verifyAdmin u p s = true <->
         exists user, In user (JsMap.values (users s))
                      /\ User.username user = u
                      /\ User.password user = p /\ User.isAdmin user = true)
        /\ (verifyAdmin u p s = true <-> u = "admin" /\ p = "admin123"))
  /\ (forall u p, verifyAdmin u p empty_storage = false).
Proof.
  split; [exact verifyAdmin_lookup|].
  split; [intros; apply verifyAdmin_wf, wf_storage|].
  split; [|reflexivity].
  intros ops u p s.
  assert (wf s) as Hwf by apply wf_run, wf_storage.
  split; [|now apply verifyAdmin_wf].
  rewrite (verifyAdmin_wf u p Hwf). symmetry. now apply admin_member.
Qed.

(** ** Products: [updateProduct] *)

Lemma getProduct_updateProduct_other id d s k :
  k <> id -> getProduct k (snd (updateProduct id d s)) = getProduct k s.
Proof.
  intros Hk. unfold updateProduct, getProduct.
  destruct (JsMap.get id (products s)); cbn [snd products with_products]; auto.
  apply JsMapFacts.get_set_other. congruence.
Qed.

(** C3, as the code has it.  For an identifier that is stored,
    [updateProduct] returns and stores the merged record: the identifier is
    kept; [name], [description], [price], [image], [rating] and [sizes] keep
    the prior value when the update does not have the property and take the
    given value when it has one; [reviewCount], [badge] and [featured] keep
    the prior value also when the property is present with the value
    [undefined]; a [badge] given as [null] is cleared to [null].  Nothing
    else in the repository changes.  For an identifier that is not stored it
    returns [undefined] and the repository is unchanged. *)
Theorem updateProduct_merge (id : Z) (d : PartialProduct.t) (s : MemStorage) :
  match getProduct id s with
  | None => updateProduct id d s = (None, s)
  | Some p =>
      exists p',
        fst (updateProduct id d s) = Some p'
        /\ getProduct id (snd (updateProduct id d s)) = Some p'
        /\ Product.id p' = Product.id p
        /\ spread_ok (PartialProduct.name d) (Product.name p) (Product.name p')
        /\ spread_ok (PartialProduct.description d)
             (Product.description p) (Product.description p')
        /\ spread_ok (PartialProduct.price d) (Product.price p) (Product.price p')
        /\ spread_ok (PartialProduct.image d) (Product.image p) (Product.image p')
        /\ spread_ok (PartialProduct.rating d)
             (Product.rating p) (Product.rating p')
        /\ spread_ok (PartialProduct.sizes d) (Product.sizes p) (Product.sizes p')
        /\ guarded_ok (PartialProduct.reviewCount d)
             (Product.reviewCount p) (Product.reviewCount p')
        /\ guarded_ok (PartialProduct.badge d) (Product.badge p) (Product.badge p')
        /\ guarded_ok (PartialProduct.featured d)
             (Product.featured p) (Product.featured p')
        /\ (PartialProduct.badge d = Given Null -> Product.badge p' = Null)
        /\ (forall k, k <> id ->
              getProduct k (snd (updateProduct id d s)) = getProduct k s)
        /\ JsMap.keys (products (snd (updateProduct id d s)))
           = JsMap.keys (products s)
        /\ users (snd (updateProduct id d s)) = users s
        /\ cart (snd (updateProduct id d s)) = cart s
        /\ reviews (snd (updateProduct id d s)) = reviews s
        /\ currentProductId (snd (updateProduct id d s)) = currentProductId s
  end.
Proof.
  destruct (getProduct id s) as [p|] eqn:E.
  - exists (merge_product p d).
    assert (forall A (f : field A) old, spread_ok f old (spread old f)) as Hs.
    { intros A f old. split; [intros ->|intros a ->]; reflexivity. }
    assert (forall A (f : field A) old, guarded_ok f old (unless_undefined f old))
      as Hg.
    { intros A f old. split; [|intros a ->; reflexivity].
      destruct f; simpl; congruence. }
    pose proof (updateProduct_frame id d s) as (Fu & Fc & Fr & _ & Fp & _).
    pose proof (fun k => @getProduct_updateProduct_other id d s k) as Ho.
    assert (updateProduct id d s =
            (Some (merge_product p d),
             with_products (JsMap.set id (merge_product p d) (products s))
               (currentProductId s) s)) as Hu.
    { unfold getProduct in E. unfold updateProduct. now rewrite E. }
    rewrite Hu in *. cbn [fst snd] in *.
    split; [reflexivity|].
    split; [apply JsMapFacts.get_set_same|].
    split; [reflexivity|].
    do 6 (split; [apply Hs|]).
    do 3 (split; [apply Hg|]).
    split; [unfold merge_product; cbn [Product.badge]; now intros ->|].
    split; [exact Ho|].
    split; [|auto].
    cbn [products with_products]. rewrite JsMapFacts.keys_set.
    unfold JsMap.has. unfold getProduct in E. now rewrite E.
  - unfold getProduct in E. unfold updateProduct. now rewrite E.
Qed.

(** C3 as worded fails: a [name] present in the update with the value
    [undefined] reads as not provided, and yet the stored name is replaced
    by [undefined]. *)
Lemma updateProduct_undefined_overwrites : ~ undefined_keeps_prior.
Proof.
  intros H.
  pose (d := PartialProduct.mk Undefined Missing Missing Missing Missing
               Missing Missing Missing Missing).
  destruct (H 1 d storage
              (Product.mk 1 (Some "Flaze Heated Lunch Box")
                 (Some "Premium heated lunch box with temperature control. Keep your meals warm anywhere you go.")
                 (Some "59.99") (Some "") (Some "5.0") 0 (NotNull "New")
                 (Some ["S"; "M"; "L"]) true)
              (Product.mk 1 None
                 (Some "Premium heated lunch box with temperature control. Keep your meals warm anywhere you go.")
                 (Some "59.99") (Some "") (Some "5.0") 0 (NotNull "New")
                 (Some ["S"; "M"; "L"]) true)
              eq_refl eq_refl) as (Hname & _).
  specialize (Hname eq_refl). discriminate Hname.
Qed.

(** ** The cart *)

Lemma in_scope_null u item :
  CartItem.userId item = Some Null -> in_scope u item = false.
Proof.
  intros H. unfold in_scope. rewrite H.
  destruct u as [u|]; [destruct (truthy u)|]; reflexivity.
Qed.

Lemma fold_remove_get (V : Type) k (l : list (Z * V)) (m : JsMap.t V) :
  (forall e, In e l -> fst e <> k) ->
  JsMap.get k (fold_left (fun m' e => JsMap.remove (fst e) m') l m)
  = JsMap.get k m.
Proof.
  revert m. induction l as [|e l IH]; intros m H; simpl; auto.
  rewrite IH by (intros; apply H; now right).
  apply JsMapFacts.get_remove_other, H. now left.
Qed.

Lemma clearCart_keeps k item u s :
  wf s -> JsMap.get k (cart s) = Some item -> in_scope u item = false ->
  JsMap.get k (cart (snd (clearCart u s))) = Some item.
Proof.
  intros Hwf Hget Hsc. cbn [clearCart snd cart with_cart].
  rewrite fold_remove_get; auto.
  intros [k' it] He Hk. apply filter_In in He. destruct He as [Hin Hit].
  simpl in Hk, Hit. subst k'. unfold JsMap.entries in Hin.
  apply JsMapFacts.in_get in Hin; [|apply (wf_cart_nodup Hwf)].
  congruence.
Qed.

Lemma cart_updateProductRatings s : cart (updateProductRatings s) = cart s.
Proof. now pose proof (updateProductRatings_frame s) as (_ & H & _). Qed.

Lemma cart_exec_other s o :
  match o with
  | AddToCart _ | UpdateCartItemQuantity _ _ | RemoveFromCart _ | ClearCart _ =>
      True
  | _ => cart (exec s o) = cart s
  end.
Proof.
  destruct o; trivial; unfold exec.
  - now pose proof (updateProduct_frame id updateData s) as (_ & H & _).
  - unfold createReview. cbn [snd]. now rewrite cart_updateProductRatings.
  - unfold updateReview. destruct (JsMap.get id (reviews s)); cbn [snd]; auto.
    now rewrite cart_updateProductRatings.
  - unfold deleteReview, JsMap.delete.
    destruct (JsMap.has id (reviews s)); cbn [snd]; auto.
    now rewrite cart_updateProductRatings.
Qed.

Lemma updateCartItemQuantity_keeps k item id q s :
  JsMap.get k (cart s) = Some item ->
  exists item',
    JsMap.get k (cart (snd (updateCartItemQuantity id q s))) = Some item'
    /\ CartItem.userId item' = CartItem.userId item
    /\ CartItem.id item' = CartItem.id item.
Proof.
  intros Hget. unfold updateCartItemQuantity.
  destruct (JsMap.get id (cart s)) as [it|] eqn:E; cbn [snd cart with_cart].
  - destruct (Z.eq_dec id k) as [->|Hne].
    + rewrite JsMapFacts.get_set_same. eexists. split; [reflexivity|].
      replace it with item by congruence. auto.
    + rewrite JsMapFacts.get_set_other by exact Hne. eauto.
  - eauto.
Qed.

(** C10. Take a reachable state in which the cart item stored under [k] has
    its owner set to [null].  No call of [getCartItems], with or without a
    user id, lists it; no call of [clearCart], with or without a user id,
    deletes it; after any operation other than [removeFromCart k] an item
    with that identifier and a [null] owner is still stored; and
    [removeFromCart k] deletes it. *)
Theorem null_owner_invisible (s : MemStorage) (k : Z) (item : CartItem.t) :
  reachable s ->
  JsMap.get k (cart s) = Some item ->
  CartItem.userId item = Some Null ->
  (forall u, ~ In item (getCartItems u s))
  /\ (forall u, JsMap.get k (cart (snd (clearCart u s))) = Some item)
  /\ (forall o, o <> RemoveFromCart k ->
        exists item',
          JsMap.get k (cart (exec s o)) = Some item'
          /\ CartItem.userId item' = Some Null
          /\ CartItem.id item' = CartItem.id item)
  /\ fst (removeFromCart k s) = true
  /\ JsMap.get k (cart (snd (removeFromCart k s))) = None.
Proof.
  intros Hreach Hget Hnull. apply reachable_wf in Hreach.
  assert (forall u, JsMap.get k (cart (snd (clearCart u s))) = Some item) as Hclear.
  { intros u. apply clearCart_keeps; auto using in_scope_null. }
  split; [|split; [exact Hclear|split; [|split]]].
  - intros u Hin. unfold getCartItems in Hin. apply filter_In in Hin.
    destruct Hin as [_ Hin]. rewrite in_scope_null in Hin; [discriminate|auto].
  - intros o Ho.
    pose proof (cart_exec_other s o) as Hframe.
    destruct o; try (rewrite Hframe; exists item; auto); clear Hframe;
      unfold exec.
    + (* addToCart *)
      unfold addToCart.
      destruct (find (same_line insertCartItem) (JsMap.values (cart s))).
      * destruct (@updateCartItemQuantity_keeps k item (CartItem.id t)
                    (js_add (CartItem.quantity t)
                       (or_one (InsertCartItem.quantity insertCartItem))) s Hget)
          as (item' & H1 & H2 & H3).
        exists item'. rewrite H2. auto.
      * cbn [snd cart with_cart].
        rewrite JsMapFacts.get_set_other; [exists item; auto|].
        assert (In k (JsMap.keys (cart s))) as Hin.
        { apply JsMapFacts.has_true. unfold JsMap.has. now rewrite Hget. }
        pose proof (wf_cart_below Hreach) as Hb. rewrite Forall_forall in Hb.
        apply Hb in Hin. lia.
    + destruct (@updateCartItemQuantity_keeps k item id quantity s Hget)
        as (item' & H1 & H2 & H3).
      exists item'. rewrite H2. auto.
    + cbn [removeFromCart JsMap.delete snd cart with_cart].
      rewrite JsMapFacts.get_remove_other; [exists item; auto|congruence].
    + exists item. auto.
  - cbn [removeFromCart JsMap.delete fst]. unfold JsMap.has. now rewrite Hget.
  - cbn [removeFromCart JsMap.delete snd cart with_cart].
    apply JsMapFacts.get_remove_same.
Qed.

(** A cart item with a [null] owner can be stored: [addToCart] copies the
    [userId] it is given. *)
Lemma null_owner_invisible_witness :
  let s :=
    exec storage
      (AddToCart (InsertCartItem.mk (Some Null) 1 "M" (Some (Num 1)))) in
  let item := CartItem.mk 1 (Some Null) 1 "M" (Some (Num 1)) in
  (forall u, ~ In item (getCartItems u s))
  /\ (forall u, JsMap.get 1 (cart (snd (clearCart u s))) = Some item)
  /\ (forall o, o <> RemoveFromCart 1 ->
        exists item',
          JsMap.get 1 (cart (exec s o)) = Some item'
          /\ CartItem.userId item' = Some Null
          /\ CartItem.id item' = CartItem.id item)
  /\ fst (removeFromCart 1 s) = true
  /\ JsMap.get 1 (cart (snd (removeFromCart 1 s))) = None.
Proof.
  apply null_owner_invisible.
  - apply reachable_exec, reachable_storage.
  - reflexivity.
  - reflexivity.
Defined.

Lemma owner_eqb_eq x y : owner_eqb x y = true <-> x = y.
Proof.
  destruct x as [[|a]|], y as [[|b]|]; simpl; try (split; congruence).
  rewrite Z.eqb_eq. split; congruence.
Qed.

(** What [getCartItems] lists, for a call without a user id and for a call
    with a user id other than [0]. *)
Lemma getCartItems_scope (s : MemStorage) (item : CartItem.t) :
  (In item (getCartItems None s) <->
   In item (JsMap.values (cart s)) /\ CartItem.userId item = None)
  /\ (forall u, u <> 0 ->
        (In item (getCartItems (Some u) s) <->
         In item (JsMap.values (cart s))
         /\ CartItem.userId item = Some (NotNull u)))
  /\ (forall u, u <> 0 ->
        ~ (In item (getCartItems None s) /\ In item (getCartItems (Some u) s))).
Proof.
  assert (forall u, u <> 0 ->
            (In item (getCartItems (Some u) s) <->
             In item (JsMap.values (cart s))
             /\ CartItem.userId item = Some (NotNull u))) as Hu.
  { intros u Hu. unfold getCartItems. rewrite filter_In. unfold in_scope, truthy.
    apply Z.eqb_neq in Hu. rewrite Hu. cbn [negb]. now rewrite owner_eqb_eq. }
  assert (In item (getCartItems None s) <->
          In item (JsMap.values (cart s)) /\ CartItem.userId item = None) as Hn.
  { unfold getCartItems. rewrite filter_In. unfold in_scope.
    now rewrite owner_eqb_eq. }
  split; [exact Hn|split; [exact Hu|]].
  intros u Hne [H1 H2]. apply Hn in H1. apply (Hu u Hne) in H2.
  destruct H1 as [_ H1], H2 as [_ H2]. congruence.
Qed.

Lemma fold_remove_filter (V : Type) (l : list (Z * V)) (m : JsMap.t V) :
  fold_left (fun m' e => JsMap.remove (fst e) m') l m
  = filter (fun e => negb (existsb (fun e' => fst e' =? fst e) l)) m.
Proof.
  revert m. induction l as [|e l IH]; intros m; simpl.
  - induction m as [|x m IHm]; simpl; congruence.
  - rewrite IH. unfold JsMap.remove.
    induction m as [|x m IHm]; simpl; auto.
    rewrite (Z.eqb_sym (fst e) (fst x)).
    destruct (fst x =? fst e); simpl; rewrite IHm; reflexivity.
Qed.

(** What [clearCart] leaves: the items outside the scope, everything else
    as it was, and the answer [true]. *)
Lemma clearCart_scope (u : option Z) (s : MemStorage) :
  wf s ->
  fst (clearCart u s) = true
  /\ cart (snd (clearCart u s))
     = filter (fun e => negb (in_scope u (snd e))) (cart s)
  /\ users (snd (clearCart u s)) = users s
  /\ products (snd (clearCart u s)) = products s
  /\ reviews (snd (clearCart u s)) = reviews s
  /\ currentCartItemId (snd (clearCart u s)) = currentCartItemId s.
Proof.
  intros Hwf. split; [reflexivity|]. split; [|now repeat split].
  cbn [clearCart snd cart with_cart]. rewrite fold_remove_filter.
  apply filter_ext_in. intros e He. f_equal.
  unfold JsMap.entries.
  destruct (in_scope u (snd e)) eqn:E.
  - apply existsb_exists. exists e. rewrite filter_In, Z.eqb_refl. auto.
  - destruct (existsb _ _) eqn:X; auto.
    apply existsb_exists in X. destruct X as (e' & He' & Hk).
    apply filter_In in He'. destruct He' as [Hin Hsc]. apply Z.eqb_eq in Hk.
    destruct e as [k v], e' as [k' v']. simpl in *. subst k'.
    pose proof (wf_cart_nodup Hwf) as Hnd.
    apply (JsMapFacts.in_get _ _ _ Hnd) in He.
    apply (JsMapFacts.in_get _ _ _ Hnd) in Hin. congruence.
Qed.

(** What [addToCart] does when a line of the cart matches, and when none
    does. *)
Lemma addToCart_cases (d : InsertCartItem.t) (s : MemStorage) :
  wf s ->
  match find (same_line d) (JsMap.values (cart s)) with
  | Some existingItem =>
      let updated :=
        CartItem.mk (CartItem.id existingItem) (CartItem.userId existingItem)
          (CartItem.productId existingItem) (CartItem.size existingItem)
          (Some (js_add (CartItem.quantity existingItem)
                   (or_one (InsertCartItem.quantity d)))) in
      fst (addToCart d s) = Some updated
      /\ JsMap.get (CartItem.id existingItem) (cart (snd (addToCart d s)))
         = Some updated
      /\ JsMap.keys (cart (snd (addToCart d s))) = JsMap.keys (cart s)
      /\ currentCartItemId (snd (addToCart d s)) = currentCartItemId s
  | None =>
      let created :=
        CartItem.mk (currentCartItemId s) (InsertCartItem.userId d)
          (InsertCartItem.productId d) (InsertCartItem.size d)
          (InsertCartItem.quantity d) in
      fst (addToCart d s) = Some created
      /\ ~ In (currentCartItemId s) (JsMap.keys (cart s))
      /\ cart (snd (addToCart d s)) = (cart s ++ [(currentCartItemId s, created)])%list
      /\ currentCartItemId (snd (addToCart d s)) = currentCartItemId s + 1
  end.
Proof.
  intros Hwf. unfold addToCart.
  destruct (find (same_line d) (JsMap.values (cart s))) as [x|] eqn:F.
  - apply find_some in F. destruct F as [Hin _].
    unfold JsMap.values in Hin. apply in_map_iff in Hin.
    destruct Hin as ([k v] & Hv & Hin). simpl in Hv. subst v.
    pose proof (wf_cart_ids Hwf) as Hids. rewrite Forall_forall in Hids.
    pose proof (Hids _ Hin) as Hk. simpl in Hk. subst k.
    apply (JsMapFacts.in_get _ _ _ (wf_cart_nodup Hwf)) in Hin.
    unfold updateCartItemQuantity. rewrite Hin.
    cbn [fst snd cart with_cart currentCartItemId].
    repeat split.
    + apply JsMapFacts.get_set_same.
    + rewrite JsMapFacts.keys_set. unfold JsMap.has. now rewrite Hin.
  - assert (~ In (currentCartItemId s) (JsMap.keys (cart s))) as Hfresh.
    { intros Hin. pose proof (wf_cart_below Hwf) as Hb.
      rewrite Forall_forall in Hb. apply Hb in Hin. lia. }
    cbn [fst snd cart with_cart currentCartItemId]. repeat split; auto.
    apply JsMapFacts.set_absent. now apply JsMapFacts.get_none_keys.
Qed.

(** C4, at the failing input.  Two calls of [addToCart] with the same user,
    product and size and no [quantity] leave one record, whose quantity is
    [NaN] and not 2: the record is created with the quantity [undefined],
    and [undefined + 1] is [NaN].  And a requested quantity of [0] adds 1. *)
Theorem addToCart_quantity_defaults :
  let d := InsertCartItem.mk (Some (NotNull 5)) 1 "M" None in
  let d2 := InsertCartItem.mk (Some (NotNull 5)) 1 "M" (Some (Num 2)) in
  let d0 := InsertCartItem.mk (Some (NotNull 5)) 1 "M" (Some (Num 0)) in
  JsMap.values (cart (run [AddToCart d] storage))
  = [CartItem.mk 1 (Some (NotNull 5)) 1 "M" None]
  /\ JsMap.values (cart (run [AddToCart d; AddToCart d] storage))
     = [CartItem.mk 1 (Some (NotNull 5)) 1 "M" (Some NaN)]
  /\ JsMap.values (cart (run [AddToCart d2; AddToCart d0] storage))
     = [CartItem.mk 1 (Some (NotNull 5)) 1 "M" (Some (Num 3))].
Proof. repeat split. Qed.

(** C5, at the failing input.  With one guest item and one item of user 0
    in the cart, [getCartItems(0)] lists the guest item, as
    [getCartItems()] does, and not the item of user 0. *)
Theorem getCartItems_user_zero :
  let guest := InsertCartItem.mk None 1 "M" (Some (Num 1)) in
  let owned := InsertCartItem.mk (Some (NotNull 0)) 1 "M" (Some (Num 2)) in
  let s := run [AddToCart guest; AddToCart owned] storage in
  JsMap.values (cart s)
  = [CartItem.mk 1 None 1 "M" (Some (Num 1));
     CartItem.mk 2 (Some (NotNull 0)) 1 "M" (Some (Num 2))]
  /\ getCartItems (Some 0) s = [CartItem.mk 1 None 1 "M" (Some (Num 1))]
  /\ getCartItems None s = [CartItem.mk 1 None 1 "M" (Some (Num 1))].
Proof. repeat split. Qed.

(** C6, at the failing input.  In the same cart [clearCart(0)] deletes the
    guest item and keeps the item of user 0. *)
Theorem clearCart_user_zero :
  let guest := InsertCartItem.mk None 1 "M" (Some (Num 1)) in
  let owned := InsertCartItem.mk (Some (NotNull 0)) 1 "M" (Some (Num 2)) in
  let s := run [AddToCart guest; AddToCart owned] storage in
  clearCart (Some 0) s = clearCart None s
  /\ JsMap.values (cart (snd (clearCart (Some 0) s)))
     = [CartItem.mk 2 (Some (NotNull 0)) 1 "M" (Some (Num 2))].
Proof. repeat split. Qed.

(** ** The rating of the first product *)

Lemma review_mutation_exec (s : MemStorage) (o : op) :
  review_mutation s o = true ->
  exists s1, exec s o = updateProductRatings s1
             /\ products s1 = products s
             /\ (currentReviewId s1 = currentReviewId s + 1
                 \/ (currentReviewId s1 = currentReviewId s /\ reviews s <> [])).
Proof.
  destruct o; simpl; try discriminate.
  - intros _. eexists. split; [reflexivity|]. simpl. auto.
  - unfold JsMap.has, updateReview.
    destruct (JsMap.get id (reviews s)) eqn:E; [|discriminate].
    intros _. eexists. split; [reflexivity|]. simpl. split; auto.
    right. split; auto. intros H. rewrite H in E. discriminate.
  - unfold deleteReview, JsMap.delete. intros H. rewrite H.
    eexists. split; [reflexivity|]. simpl. split; auto.
    right. split; auto. intros H'. rewrite H' in H. discriminate.
Qed.

Lemma fold_rating_bounds (l : list Review.t) :
  rated_1_to_5 l ->
  forall acc,
    acc + Z.of_nat (List.length l)
    <= fold_left (fun sum review => sum + Review.rating review) l acc
    <= acc + 5 * Z.of_nat (List.length l).
Proof.
  induction 1 as [|r l Hr Hl IH]; intros acc.
  - simpl. lia.
  - cbn [fold_left List.length]. specialize (IH (acc + Review.rating r)). lia.
Qed.

Lemma fold_rating_ge (l : list Review.t) :
  Forall (fun review => 0 <= Review.rating review) l ->
  forall acc,
    acc <= fold_left (fun sum review => sum + Review.rating review) l acc.
Proof.
  induction 1 as [|r l Hr Hl IH]; intros acc.
  - simpl. lia.
  - cbn [fold_left]. specialize (IH (acc + Review.rating r)). lia.
Qed.

(** As long as the sum of the ratings stays below 2^53 no addition of
    [reduce] rounds: the total is the double of the sum. *)
Lemma totalRating_exact (l : list Review.t) :
  Forall (fun review => 0 <= Review.rating review) l ->
  rating_sum l < 2 ^ 53 ->
  totalRating l = Double.of_Z (rating_sum l).
Proof.
  unfold totalRating, rating_sum. intros Hpos.
  assert (forall acc, 0 <= acc ->
            fold_left (fun sum review => sum + Review.rating review) l acc
            < 2 ^ 53 ->
            fold_left
              (fun sum review =>
                 Double.add sum (Double.of_Z (Review.rating review)))
              l (Double.of_Z acc)
            = Double.of_Z
                (fold_left (fun sum review => sum + Review.rating review) l acc))
    as H.
  { induction Hpos as [|r l Hr Hl IH]; intros acc Hacc Hlt; [reflexivity|].
    cbn [fold_left] in *.
    pose proof (fold_rating_ge Hl (acc + Review.rating r)) as Hge.
    rewrite DoubleFacts.add_exact by lia.
    apply IH; lia. }
  intros Hlt. apply H; [lia|exact Hlt].
Qed.

(** With ratings from 1 to 5, [averageRating] prints a tenth nearest to the
    mean. *)
Lemma averageRating_one_decimal (l : list Review.t) :
  l <> [] -> rated_1_to_5 l -> Z.of_nat (List.length l) < 2 ^ 46 ->
  one_decimal_of_mean l (averageRating l).
Proof.
  intros Hne Hr Hlen. unfold one_decimal_of_mean, averageRating.
  pose proof (fold_rating_bounds Hr 0) as Hb. fold (rating_sum l) in Hb.
  change (2 ^ 46) with 70368744177664 in Hlen.
  rewrite totalRating_exact;
    [|eapply Forall_impl; [|exact Hr]; simpl; intros; lia
     |change (2 ^ 53) with 9007199254740992; lia].
  set (T := rating_sum l) in *. set (N := Z.of_nat (List.length l)) in *.
  assert (0 < N) as HN by (destruct l; [congruence|unfold N; simpl; lia]).
  destruct (DoubleFacts.toFixed1_div_nearest T N) as (t & Ht & Hnear);
    try (change (2 ^ 53) with 9007199254740992; lia).
  exists t. split; [exact Ht|]. split; [exact Hnear|].
  now apply DoubleFacts.nearest_tenth_round_half_up.
Qed.

(** C1, as the code has it.  After any sequence of operations from the
    seeded state, a review creation, or an update or deletion of a stored
    review, leaves the first product as follows.  With N >= 1 approved
    reviews its [reviewCount] is N and its [rating] is [averageRating]: their
    total, added up from the left in binary64 as [reduce] does, divided by N
    in binary64 and printed by [toFixed(1)].  For fewer than 2^46 reviews
    with ratings from 1 to 5 that is a tenth nearest to the mean, namely the
    mean rounded to one decimal place half up, or the tenth below when the
    mean lies halfway between two tenths.  With no approved review its
    rating and count are what they were. *)
Theorem rating_after_review_mutation (ops : list op) (o : op) :
  let s := run ops storage in
  let s' := exec s o in
  review_mutation s o = true ->
  exists p p',
    first_product s = Some p /\ first_product s' = Some p'
    /\ match approvedReviews s' with
       | [] =>
           Product.rating p' = Product.rating p
           /\ Product.reviewCount p' = Product.reviewCount p
       | (_ :: _) as l =>
           Product.rating p' = Some (averageRating l)
           /\ Product.reviewCount p' = Z.of_nat (List.length l)
           /\ (rated_1_to_5 l -> Z.of_nat (List.length l) < 2 ^ 46 ->
               one_decimal_of_mean l (averageRating l))
       end.
Proof.
  intros s s' Hmut. subst s'.
  assert (wf s) as Hwf by apply wf_run, wf_storage.
  destruct (review_mutation_exec s o Hmut) as (s1 & -> & Hp & _).
  pose proof (wf_first_product Hwf) as Hfirst. rewrite <- Hp in Hfirst.
  destruct (updateProductRatings_first s1 Hfirst) as (p & p' & H1 & H2 & H3).
  exists p, p'. unfold first_product in *. rewrite <- Hp.
  split; [exact H1|split; [exact H2|]].
  rewrite approvedReviews_updateProductRatings.
  destruct (approvedReviews s1) as [|r l]; subst p'; auto.
  split; [reflexivity|]. split; [reflexivity|].
  apply averageRating_one_decimal. discriminate.
Qed.

Lemma rating_after_review_mutation_witness :
  exists p p',
    first_product (run [review_of 5] storage) = Some p
    /\ first_product (exec (run [review_of 5] storage) (review_of 4)) = Some p'
    /\ Product.rating p' = Some "4.5"
    /\ Product.reviewCount p' = 2.
Proof.
  destruct (rating_after_review_mutation [review_of 5] (review_of 4) eq_refl)
    as (p & p' & H1 & H2 & H3 & H4 & _).
  exists p, p'. auto.
Defined.

(** C1 as worded fails.  Nine reviews rated 2 and eleven rated 3 have the
    mean 51/20 = 2.55, which rounds to 2.6; the nearest double lies below
    2.55 and [toFixed(1)] prints "2.5". *)
Lemma rating_not_rounded_mean : ~ rating_is_rounded_mean.
Proof.
  intros H.
  specialize (H (repeat (review_of 2) 9 ++ repeat (review_of 3) 10)%list
                (review_of 3) eq_refl).
  destruct H as (p & p' & _ & H2 & H3).
  vm_compute in H2. injection H2 as <-.
  vm_compute in H3. destruct H3 as [H3 _]. discriminate H3.
Qed.

(** The two roundings of 2.55 to one decimal place and what the code
    stores. *)
Lemma rating_2_55 :
  let l := approvedReviews
             (run (repeat (review_of 2) 9 ++ repeat (review_of 3) 11)%list storage) in
  rating_sum l = 51 /\ totalRating l = Double.of_Z 51
  /\ List.length l = 20%nat
  /\ round_half_up 51 20 = 26 /\ round_half_even 51 20 = 26
  /\ rounded_mean l = "2.6" /\ averageRating l = "2.5".
Proof. vm_compute. repeat split. Qed.

(** The additions of [reduce] are those of doubles: 2^53 + 1 is 2^53, so
    the ratings 2^53, 1, 1 and the ratings 1, 1, 2^53 have different
    totals, and different ratings are stored. *)
Lemma averageRating_adds_doubles :
  let review r := Review.mk 1 "Sam" r "" true "" in
  averageRating [review (2 ^ 53); review 1; review 1] = "3002399751580330.5"
  /\ averageRating [review 1; review 1; review (2 ^ 53)] = "3002399751580331.5".
Proof. vm_compute. split; reflexivity. Qed.

(** An operation that is no change of the reviews and writes no rating
    leaves the reviews, their counter, and the rating and count of the first
    product as they were. *)
Lemma exec_keeps_rating (s : MemStorage) (o : op) :
  wf s -> keeps_rating o = true -> review_mutation s o = false ->
  reviews (exec s o) = reviews s
  /\ currentReviewId (exec s o) = currentReviewId s
  /\ exists p p',
       first_product s = Some p /\ first_product (exec s o) = Some p'
       /\ Product.rating p' = Product.rating p
       /\ Product.reviewCount p' = Product.reviewCount p.
Proof.
  intros Hwf Hk Hm.
  destruct (wf_first_product Hwf) as (k & p & rest & Hp & Hid).
  assert (first_product s = Some p) as Hfirst.
  { unfold first_product. now rewrite Hp. }
  assert (forall s', products s' = products s -> reviews s' = reviews s ->
                     currentReviewId s' = currentReviewId s ->
            reviews s' = reviews s
            /\ currentReviewId s' = currentReviewId s
            /\ exists p0 p',
                 first_product s = Some p0 /\ first_product s' = Some p'
                 /\ Product.rating p' = Product.rating p0
                 /\ Product.reviewCount p' = Product.reviewCount p0) as Hsame.
  { intros s' H1 H2 H3. repeat split; auto. exists p, p.
    unfold first_product in *. rewrite H1. auto. }
  destruct o; unfold exec; simpl in Hk, Hm; try discriminate.
  - (* createProduct *)
    repeat split. exists p, p. split; [exact Hfirst|]. split; auto.
    unfold first_product. cbn [createProduct snd products with_products].
    rewrite Hp, JsMapFacts.set_cons.
    pose proof (wf_products_below Hwf) as Hb. rewrite Hp in Hb.
    pose proof (Forall_inv Hb) as Hlt. simpl in Hlt.
    destruct (k =? currentProductId s) eqn:E; [apply Z.eqb_eq in E; lia|].
    reflexivity.
  - (* updateProduct *)
    pose proof (updateProduct_frame id updateData s) as (_ & _ & Fr & _ & _ & _ & Fc).
    split; [exact Fr|]. split; [exact Fc|].
    unfold updateProduct, first_product. rewrite Hp. cbn [JsMap.get].
    destruct (k =? id) eqn:E.
    + exists p, (merge_product p updateData).
      cbn [snd products with_products]. rewrite JsMapFacts.set_cons, E.
      rewrite <- Hp. split; [exact Hfirst|]. split; [reflexivity|].
      unfold merge_product. cbn [Product.rating Product.reviewCount].
      destruct (PartialProduct.rating updateData); try discriminate.
      destruct (PartialProduct.reviewCount updateData); try discriminate; auto.
    + exists p, p. rewrite <- Hp. split; [exact Hfirst|].
      rewrite Hp.
      destruct (JsMap.get id rest); cbn [snd products with_products];
        [rewrite JsMapFacts.set_cons, E|rewrite Hp]; auto.
  - apply Hsame; reflexivity.
  - (* updateReview of no review *)
    unfold updateReview. apply JsMapFacts.has_false in Hm. rewrite Hm.
    apply Hsame; reflexivity.
  - (* deleteReview of no review *)
    unfold deleteReview, JsMap.delete. rewrite Hm. cbn [snd].
    apply JsMapFacts.has_false in Hm.
    rewrite (JsMapFacts.remove_absent _ _ Hm), with_reviews_same.
    apply Hsame; reflexivity.
  - unfold addToCart.
    destruct (find (same_line insertCartItem) (JsMap.values (cart s)));
      [unfold updateCartItemQuantity;
       destruct (JsMap.get (CartItem.id t) (cart s))|];
      apply Hsame; reflexivity.
  - unfold updateCartItemQuantity. destruct (JsMap.get id (cart s));
      apply Hsame; reflexivity.
  - apply Hsame; reflexivity.
  - apply Hsame; reflexivity.
Qed.

Lemma rating_invariant_exec (s : MemStorage) (o : op) :
  wf s -> keeps_rating o = true ->
  1 <= currentReviewId s -> rating_recomputed s -> rating_seeded s ->
  1 <= currentReviewId (exec s o)
  /\ rating_recomputed (exec s o) /\ rating_seeded (exec s o).
Proof.
  intros Hwf Hk Hc Hr Hs.
  destruct (review_mutation s o) eqn:Hm.
  - destruct (review_mutation_exec s o Hm) as (s1 & -> & Hp & Hcount).
    pose proof (updateProductRatings_frame s1) as (_ & _ & _ & _ & _ & _ & Fc).
    pose proof (wf_first_product Hwf) as Hfirst. rewrite <- Hp in Hfirst.
    destruct (updateProductRatings_first s1 Hfirst) as (p & p' & H1 & H2 & H3).
    split; [|split].
    + rewrite Fc. destruct Hcount as [->|[-> _]]; lia.
    + unfold rating_recomputed. rewrite approvedReviews_updateProductRatings.
      destruct (approvedReviews s1) as [|r l]; auto.
      exists p'. subst p'. auto.
    + intros H. rewrite Fc in H. destruct Hcount as [Hc1|[Hc1 Hne]].
      * lia.
      * rewrite Hc1 in H. destruct (Hs H) as [Hnil _]. contradiction.
  - destruct (@exec_keeps_rating s o Hwf Hk Hm)
      as (Er & Ec & p & p' & H1 & H2 & H3 & H4).
    split; [|split].
    + now rewrite Ec.
    + unfold rating_recomputed, approvedReviews in *. rewrite Er.
      destruct (filter Review.approved (JsMap.values (reviews s))); auto.
      destruct Hr as (p0 & Hp0 & Hr1 & Hr2).
      exists p'. replace p0 with p in * by congruence.
      split; [exact H2|]. split; congruence.
    + intros H. rewrite Ec in H. destruct (Hs H) as (Hnil & p0 & Hp0 & Hr1 & Hr2).
      split; [now rewrite Er|].
      exists p'. replace p0 with p in * by congruence.
      split; [exact H2|]. split; congruence.
Qed.

Lemma rating_invariant_run (ops : list op) (s : MemStorage) :
  Forall (fun o => keeps_rating o = true) ops ->
  wf s -> 1 <= currentReviewId s -> rating_recomputed s -> rating_seeded s ->
  rating_recomputed (run ops s) /\ rating_seeded (run ops s).
Proof.
  unfold run. intros Hops. revert s.
  induction Hops as [|o ops Ho Hops IH]; intros s Hwf Hc Hr Hs; simpl; auto.
  destruct (@rating_invariant_exec s o Hwf Ho Hc Hr Hs) as (Hc' & Hr' & Hs').
  apply IH; auto using wf_exec.
Qed.

Lemma rating_kept_exec (s : MemStorage) (o : op) :
  wf s -> keeps_rating o = true -> rating_kept s (exec s o).
Proof.
  intros Hwf Hk Hnil.
  destruct (review_mutation s o) eqn:Hm.
  - destruct (review_mutation_exec s o Hm) as (s1 & E & Hp & _).
    rewrite E in *. rewrite approvedReviews_updateProductRatings in Hnil.
    pose proof (wf_first_product Hwf) as Hfirst. rewrite <- Hp in Hfirst.
    destruct (updateProductRatings_first s1 Hfirst) as (p & p' & H1 & H2 & H3).
    rewrite Hnil in H3. subst p'.
    exists p, p. unfold first_product in *. rewrite <- Hp. auto.
  - destruct (@exec_keeps_rating s o Hwf Hk Hm) as (_ & _ & p & p' & H).
    exists p, p'. exact H.
Qed.

(** C2, as the code has it.  Take any sequence of operations from the
    seeded state in which no [updateProduct] provides [rating] or
    [reviewCount].  In the state it reaches, if there is at least one
    approved review, the first product's [reviewCount] is their number and
    its [rating] is [averageRating] of them; if no review was ever created,
    the rating is "5.0" and the count 0; and whatever such operation comes
    next, if it leaves no approved review (it deletes or unapproves the last
    one, or there was none), the first product keeps the rating and the
    count it had before it. *)
Theorem rating_invariant (ops : list op) :
  Forall (fun o => keeps_rating o = true) ops ->
  let s := run ops storage in
  rating_recomputed s /\ rating_seeded s
  /\ (forall o, keeps_rating o = true -> rating_kept s (exec s o)).
Proof.
  intros Hops s.
  assert (rating_recomputed s /\ rating_seeded s) as [Hr Hs].
  { apply rating_invariant_run; auto using wf_storage.
    - simpl. lia.
    - exact I.
    - intros _. split; [reflexivity|]. eexists. repeat split. }
  split; [exact Hr|]. split; [exact Hs|].
  intros o Ho. apply rating_kept_exec; [|exact Ho].
  apply wf_run, wf_storage.
Qed.

(** After a review rated 5 and its deletion no review is approved, and the
    first product still has the rating "5.0" and the count 1. *)
Lemma rating_invariant_witness :
  let s := run [review_of 5] storage in
  (rating_recomputed s /\ rating_seeded s
   /\ (forall o, keeps_rating o = true -> rating_kept s (exec s o)))
  /\ exists p',
       first_product (exec s (DeleteReview 1)) = Some p'
       /\ Product.rating p' = Some "5.0" /\ Product.reviewCount p' = 1.
Proof.
  intros s.
  assert (Forall (fun o => keeps_rating o = true) [review_of 5]) as Hops
    by (repeat constructor).
  pose proof (rating_invariant Hops) as H. split; [exact H|].
  destruct H as (_ & _ & Hkept).
  destruct (Hkept (DeleteReview 1) eq_refl eq_refl) as (p & p' & H1 & H2 & H3 & H4).
  exists p'. split; [exact H2|].
  vm_compute in H1. injection H1 as <-. split; [exact H3|exact H4].
Defined.

(** C2 as worded fails.  After the only review is deleted there is no
    approved review, and the first product still counts one. *)
Lemma rating_not_always_consistent : ~ always_consistent.
Proof.
  intros H. specialize (H [review_of 5; DeleteReview 1]).
  destruct H as (p & H1 & H2 & _).
  vm_compute in H1. injection H1 as <-. vm_compute in H2. discriminate H2.
Qed.

(** ** Further facts about [JsMap] *)

Module JsMapMore.
Section Facts.
Variable V : Type.
Implicit Types (m : JsMap.t V) (k : Z) (v : V).

Lemma set_same k v m : JsMap.get k m = Some v -> JsMap.set k v m = m.
Proof.
  induction m as [|[k' v'] m IH]; simpl; [discriminate|].
  destruct (k' =? k) eqn:E.
  - now intros [= ->].
  - intros H. now rewrite IH.
Qed.

Lemma set_set k v v' m : JsMap.set k v' (JsMap.set k v m) = JsMap.set k v' m.
Proof.
  induction m as [|[k0 v0] m IH]; simpl.
  - now rewrite Z.eqb_refl.
  - destruct (k0 =? k) eqn:E; simpl; rewrite E; [reflexivity|now rewrite IH].
Qed.

Lemma keyed_get (id : V -> Z) k v m :
  keyed id m -> JsMap.get k m = Some v -> id v = k.
Proof.
  intros [_ Hids] Hget. apply JsMapFacts.get_some_in in Hget.
  rewrite Forall_forall in Hids. exact (Hids _ Hget).
Qed.

Lemma keyed_set (id : V -> Z) k v m :
  keyed id m -> id v = k -> keyed id (JsMap.set k v m).
Proof.
  intros [Hnd Hids] Hv. split.
  - now apply JsMapFacts.nodup_set.
  - now apply JsMapForall.forall_set.
Qed.

Lemma keyed_remove (id : V -> Z) k m :
  keyed id m -> keyed id (JsMap.remove k m).
Proof.
  intros [Hnd Hids]. split.
  - now apply JsMapFacts.nodup_remove.
  - now apply JsMapForall.forall_remove.
Qed.

(** In a keyed map, looking a value up by its identifier among the values
    is looking its key up. *)
Lemma find_by_id (id : V -> Z) k m :
  keyed id m ->
  find (fun v => id v =? k) (JsMap.values m) = JsMap.get k m.
Proof.
  intros [_ Hids]. induction m as [|[k0 v0] m IH]; simpl; auto.
  inversion Hids as [|? ? H0 Hrest]; subst. simpl in H0. rewrite H0.
  destruct (k0 =? k); auto.
Qed.

Lemma get_in_values k v m : JsMap.get k m = Some v -> In v (JsMap.values m).
Proof.
  intros H. apply JsMapFacts.get_some_in in H.
  change v with (snd (k, v)). now apply in_map.
Qed.
End Facts.
End JsMapMore.

(** ** Identifiers *)

Ltac ids_split :=
  unfold ids_ok;
  cbn [snd users products reviews cart
       with_users with_products with_reviews with_cart];
  split; [|split; [|split]]; try assumption.

Lemma ids_ok_updateProduct id d s :
  ids_ok s -> ids_ok (snd (updateProduct id d s)).
Proof.
  intros H. pose proof H as (Hu & Hp & Hr & Hc). unfold updateProduct.
  destruct (JsMap.get id (products s)) as [p|] eqn:E; cbn [snd]; auto.
  ids_split. apply JsMapMore.keyed_set; auto.
  cbn [merge_product Product.id]. eapply JsMapMore.keyed_get; [exact Hp|exact E].
Qed.

Lemma ids_ok_updateProductRatings s :
  ids_ok s -> ids_ok (updateProductRatings s).
Proof.
  intros H. unfold updateProductRatings.
  destruct (JsMap.values (products s)) as [|product rest]; auto.
  destruct (approvedReviews s) as [|r l]; auto.
  now apply ids_ok_updateProduct.
Qed.

Lemma ids_ok_updateCartItemQuantity id q s :
  ids_ok s -> ids_ok (snd (updateCartItemQuantity id q s)).
Proof.
  intros H. pose proof H as (Hu & Hp & Hr & Hc). unfold updateCartItemQuantity.
  destruct (JsMap.get id (cart s)) as [c|] eqn:E; cbn [snd]; auto.
  ids_split. apply JsMapMore.keyed_set; auto.
  cbn [CartItem.id]. eapply JsMapMore.keyed_get; [exact Hc|exact E].
Qed.

Lemma ids_ok_exec s o : ids_ok s -> ids_ok (exec s o).
Proof.
  intros H. pose proof H as (Hu & Hp & Hr & Hc). destruct o; unfold exec.
  - (* createProduct *)
    unfold createProduct. ids_split. apply JsMapMore.keyed_set; auto.
  - now apply ids_ok_updateProduct.
  - (* createUser *)
    unfold createUser. ids_split. apply JsMapMore.keyed_set; auto.
  - (* createReview *)
    unfold createReview. cbn [snd]. apply ids_ok_updateProductRatings.
    ids_split. apply JsMapMore.keyed_set; auto.
  - (* updateReview *)
    unfold updateReview.
    destruct (JsMap.get id (reviews s)) as [r|] eqn:E; cbn [snd]; auto.
    apply ids_ok_updateProductRatings.
    ids_split. apply JsMapMore.keyed_set; auto.
    cbn [Review.id]. eapply JsMapMore.keyed_get; [exact Hr|exact E].
  - (* deleteReview *)
    unfold deleteReview, JsMap.delete.
    assert (ids_ok (with_reviews (JsMap.remove id (reviews s)) (currentReviewId s) s))
      as H' by (ids_split; now apply JsMapMore.keyed_remove).
    destruct (JsMap.has id (reviews s)); cbn [snd]; auto.
    now apply ids_ok_updateProductRatings.
  - (* addToCart *)
    unfold addToCart.
    destruct (find (same_line insertCartItem) (JsMap.values (cart s))) as [x|].
    + now apply ids_ok_updateCartItemQuantity.
    + ids_split. apply JsMapMore.keyed_set; auto.
  - now apply ids_ok_updateCartItemQuantity.
  - (* removeFromCart *)
    unfold removeFromCart, JsMap.delete. ids_split.
    now apply JsMapMore.keyed_remove.
  - (* clearCart *)
    unfold clearCart. ids_split.
    apply JsMapForall.fold_remove_ind with (I := keyed CartItem.id); auto.
    intros. now apply JsMapMore.keyed_remove.
Qed.

Lemma ids_ok_storage : ids_ok storage.
Proof.
  unfold ids_ok, keyed. simpl.
  repeat split; repeat constructor; simpl; tauto.
Qed.

Lemma ids_ok_run ops s : ids_ok s -> ids_ok (run ops s).
Proof.
  unfold run. revert s. induction ops as [|o ops IH]; simpl; auto using ids_ok_exec.
Qed.

(** X1. In every state reached from the seeded one, each of the four
    collections holds its entries under distinct keys, every user, product,
    review and cart item is stored under its own [id], and every key is
    smaller than the counter that assigns the next identifier. *)
Theorem identifiers_invariant (ops : list op) :
  let s := run ops storage in
  ids_ok s
  /\ below (currentUserId s) (users s)
  /\ below (currentProductId s) (products s)
  /\ below (currentReviewId s) (reviews s)
  /\ below (currentCartItemId s) (cart s).
Proof.
  intros s. assert (wf s) as Hwf by apply wf_run, wf_storage.
  split; [apply ids_ok_run, ids_ok_storage|].
  unfold below. repeat split; apply Hwf.
Qed.

Lemma counters_updateProductRatings s :
  currentUserId (updateProductRatings s) = currentUserId s
  /\ currentProductId (updateProductRatings s) = currentProductId s
  /\ currentReviewId (updateProductRatings s) = currentReviewId s
  /\ currentCartItemId (updateProductRatings s) = currentCartItemId s.
Proof.
  pose proof (updateProductRatings_frame s) as (_ & _ & _ & H1 & H2 & H3 & H4).
  auto.
Qed.

(** No operation lowers a counter. *)
Lemma counters_exec s o :
  currentUserId s <= currentUserId (exec s o)
  /\ currentProductId s <= currentProductId (exec s o)
  /\ currentReviewId s <= currentReviewId (exec s o)
  /\ currentCartItemId s <= currentCartItemId (exec s o).
Proof.
  destruct o; unfold exec.
  - simpl. lia.
  - pose proof (updateProduct_frame id updateData s)
      as (_ & _ & _ & H1 & H2 & H3 & H4). lia.
  - simpl. lia.
  - unfold createReview. cbn [snd].
    pose proof (counters_updateProductRatings
      (with_reviews
         (JsMap.set (currentReviewId s)
            (Review.mk (currentReviewId s) (InsertReview.name insertReview)
               (InsertReview.rating insertReview)
               (or_empty (InsertReview.comment insertReview)) true now)
            (reviews s)) (currentReviewId s + 1) s)) as (H1 & H2 & H3 & H4).
    rewrite H1, H2, H3, H4. simpl. lia.
  - unfold updateReview. destruct (JsMap.get id (reviews s)); cbn [snd]; [|lia].
    match goal with |- context [updateProductRatings ?x] =>
      pose proof (counters_updateProductRatings x) as (H1 & H2 & H3 & H4) end.
    rewrite H1, H2, H3, H4. simpl. lia.
  - unfold deleteReview, JsMap.delete.
    destruct (JsMap.has id (reviews s)); cbn [snd]; [|simpl; lia].
    match goal with |- context [updateProductRatings ?x] =>
      pose proof (counters_updateProductRatings x) as (H1 & H2 & H3 & H4) end.
    rewrite H1, H2, H3, H4. simpl. lia.
  - unfold addToCart.
    destruct (find (same_line insertCartItem) (JsMap.values (cart s)));
      [unfold updateCartItemQuantity;
       destruct (JsMap.get (CartItem.id t) (cart s))|]; simpl; lia.
  - unfold updateCartItemQuantity. destruct (JsMap.get id (cart s)); simpl; lia.
  - simpl. lia.
  - simpl. lia.
Qed.

Lemma counters_run ops s :
  currentUserId s <= currentUserId (run ops s)
  /\ currentProductId s <= currentProductId (run ops s)
  /\ currentReviewId s <= currentReviewId (run ops s)
  /\ currentCartItemId s <= currentCartItemId (run ops s).
Proof.
  unfold run. revert s. induction ops as [|o ops IH]; intros s; simpl; [lia|].
  pose proof (counters_exec s o). pose proof (IH (exec s o)). lia.
Qed.

Lemma below_weaken (V : Type) (c c' : Z) (m : JsMap.t V) :
  c <= c' -> below c m -> below c' m.
Proof.
  intros Hc H. unfold below in *. eapply Forall_impl; [|exact H].
  simpl. intros. lia.
Qed.

(** X2. Identifiers are never reused.  Take a state reached from the seeded
    one and any operations after it, deletions included.  The identifier
    that [createProduct], [createUser], [createReview], or [addToCart]
    when it creates a record, then assigns is larger than every identifier
    that was stored in the earlier state. *)
Theorem identifiers_never_reused (ops later : list op)
  (insertProduct : InsertProduct.t) (insertUser : InsertUser.t)
  (now : string) (insertReview : InsertReview.t)
  (insertCartItem : InsertCartItem.t) :
  let s := run ops storage in
  let s' := run later s in
  below (Product.id (fst (createProduct insertProduct s'))) (products s)
  /\ below (User.id (fst (createUser insertUser s'))) (users s)
  /\ below (Review.id (fst (createReview now insertReview s'))) (reviews s)
  /\ match find (same_line insertCartItem) (JsMap.values (cart s')) with
     | Some _ => True
     | None =>
         exists item,
           fst (addToCart insertCartItem s') = Some item
           /\ below (CartItem.id item) (cart s)
     end.
Proof.
  intros s s'. assert (wf s) as Hwf by apply wf_run, wf_storage.
  pose proof (counters_run later s) as (Hu & Hp & Hr & Hc). fold s' in Hu, Hp, Hr, Hc.
  split; [|split; [|split]].
  - cbn [createProduct fst Product.id].
    eapply below_weaken; [exact Hp|apply Hwf].
  - cbn [createUser fst User.id].
    eapply below_weaken; [exact Hu|apply Hwf].
  - cbn [createReview fst Review.id].
    eapply below_weaken; [exact Hr|apply Hwf].
  - unfold addToCart.
    destruct (find (same_line insertCartItem) (JsMap.values (cart s'))); auto.
    eexists. split; [reflexivity|]. cbn [CartItem.id].
    eapply below_weaken; [exact Hc|apply Hwf].
Qed.

(** ** Products *)

Lemma values_app (V : Type) (m m' : JsMap.t V) :
  JsMap.values (m ++ m')%list = (JsMap.values m ++ JsMap.values m')%list.
Proof. apply map_app. Qed.

(** X3. [createProduct] in a state reached from the seeded one.  The new
    product gets the counter's value as identifier, which no stored product
    has; it is appended after the existing products, which are unchanged,
    so the first product stays the first; [reviewCount] defaults to 0,
    [badge] to [null] (an empty badge also becomes [null]) and [featured]
    to [true]; the other collections are untouched. *)
Theorem createProduct_spec (ops : list op) (d : InsertProduct.t) :
  let s := run ops storage in
  let p := fst (createProduct d s) in
  let s' := snd (createProduct d s) in
  Product.id p = currentProductId s
  /\ getProduct (Product.id p) s = None
  /\ getProduct (Product.id p) s' = Some p
  /\ getAllProducts s' = (getAllProducts s ++ [p])%list
  /\ first_product s' = first_product s
  /\ (forall k, k <> Product.id p -> getProduct k s' = getProduct k s)
  /\ currentProductId s' = currentProductId s + 1
  /\ Product.reviewCount p
     = match InsertProduct.reviewCount d with Some n => n | None => 0 end
  /\ Product.badge p
     = match InsertProduct.badge d with
       | Some (NotNull b) => if (b =? "")%string then Null else NotNull b
       | Some Null | None => Null
       end
  /\ Product.featured p
     = match InsertProduct.featured d with Some b => b | None => true end
  /\ Product.rating p = Some (InsertProduct.rating d)
  /\ users s' = users s /\ cart s' = cart s /\ reviews s' = reviews s.
Proof.
  intros s p s'. subst p s'.
  assert (wf s) as Hwf by apply wf_run, wf_storage.
  assert (JsMap.get (currentProductId s) (products s) = None) as Hfresh.
  { apply JsMapFacts.get_none_keys. intros Hin.
    pose proof (wf_products_below Hwf) as Hb. rewrite Forall_forall in Hb.
    apply Hb in Hin. lia. }
  unfold getProduct, getAllProducts, first_product.
  cbn [createProduct fst snd products users cart reviews currentProductId
       with_products Product.id Product.reviewCount Product.badge
       Product.featured Product.rating].
  rewrite (JsMapFacts.set_absent _ _ _ Hfresh), values_app.
  split; [reflexivity|]. split; [exact Hfresh|].
  split; [rewrite <- (JsMapFacts.set_absent _ _ _ Hfresh);
          apply JsMapFacts.get_set_same|].
  split; [reflexivity|].
  split.
  { destruct (wf_first_product Hwf) as (k & p1 & rest & -> & _). reflexivity. }
  split.
  { intros k Hk. rewrite <- (JsMapFacts.set_absent _ _ _ Hfresh).
    apply JsMapFacts.get_set_other. congruence. }
  repeat split.
Qed.

Lemma values_set_keyed (V : Type) (id : V -> Z) k v (m : JsMap.t V) :
  keyed id m ->
  JsMap.get k m <> None ->
  JsMap.values (JsMap.set k v m)
  = map (fun q => if id q =? k then v else q) (JsMap.values m).
Proof.
  intros [Hnd Hids]. induction m as [|[k0 q0] m IH]; simpl; [congruence|].
  inversion Hnd as [|? ? Hnotin Hnd']; subst.
  inversion Hids as [|? ? Hid Hids']; subst. simpl in Hid. rewrite Hid.
  destruct (k0 =? k) eqn:E; intros Hget; simpl.
  - f_equal. apply Z.eqb_eq in E. subst k0.
    symmetry. erewrite map_ext_in; [apply map_id|].
    intros q Hq. unfold JsMap.values in Hq. apply in_map_iff in Hq.
    destruct Hq as ([k1 q1] & <- & Hin). simpl.
    rewrite Forall_forall in Hids'. pose proof (Hids' _ Hin) as Hk1.
    simpl in Hk1. rewrite Hk1.
    destruct (k1 =? k) eqn:E1; auto. apply Z.eqb_eq in E1.
    exfalso. apply Hnotin. apply in_map_iff.
    eexists; split; [|exact Hin]. simpl. congruence.
  - f_equal. now apply IH.
Qed.

(** What [updateProduct] does to the list of the products. *)
Lemma getAllProducts_updateProduct id u s :
  ids_ok s ->
  getAllProducts (snd (updateProduct id u s))
  = map (fun q => if Product.id q =? id then merge_product q u else q)
      (getAllProducts s).
Proof.
  intros (_ & Hp & _). unfold getAllProducts, updateProduct.
  destruct (JsMap.get id (products s)) as [p|] eqn:E; cbn [snd products with_products].
  - rewrite (values_set_keyed _ (merge_product p u) Hp) by congruence.
    apply map_ext_in. intros q Hq. destruct (Product.id q =? id) eqn:Eq; auto.
    apply Z.eqb_eq in Eq. unfold JsMap.values in Hq. apply in_map_iff in Hq.
    destruct Hq as ([k1 q1] & <- & Hin). simpl in *.
    destruct Hp as [Hnd Hids]. rewrite Forall_forall in Hids.
    pose proof (Hids _ Hin) as Hk. simpl in Hk.
    assert (k1 = id) by congruence. subst k1.
    apply (JsMapFacts.in_get _ _ _ Hnd) in Hin. congruence.
  - symmetry.
    erewrite map_ext_in; [apply map_id|].
    intros q Hq. destruct (Product.id q =? id) eqn:Eq; auto.
    apply Z.eqb_eq in Eq. unfold JsMap.values in Hq. apply in_map_iff in Hq.
    destruct Hq as ([k1 q1] & <- & Hin). simpl in *.
    destruct Hp as [Hnd Hids]. rewrite Forall_forall in Hids.
    pose proof (Hids _ Hin) as Hk. simpl in Hk.
    assert (k1 = id) by congruence. subst k1.
    apply (JsMapFacts.in_get _ _ _ Hnd) in Hin. congruence.
Qed.

(** X4. [getFeaturedProducts] in a state reached from the seeded one lists,
    in insertion order, the stored products whose [featured] flag is set.
    A created product joins the end of the list unless it was created with
    [featured: false]; [updateProduct] changes the listed record in place,
    and takes it off the list, or puts it on, as the merged flag says. *)
Theorem getFeaturedProducts_spec (ops : list op) (d : InsertProduct.t)
  (id : Z) (u : PartialProduct.t) :
  let s := run ops storage in
  (forall p, In p (getFeaturedProducts s) <->
             In p (getAllProducts s) /\ Product.featured p = true)
  /\ getFeaturedProducts (snd (createProduct d s))
     = (getFeaturedProducts s
        ++ match InsertProduct.featured d with
           | Some false => []
           | Some true | None => [fst (createProduct d s)]
           end)%list
  /\ getFeaturedProducts (snd (updateProduct id u s))
     = filter Product.featured
         (map (fun q => if Product.id q =? id then merge_product q u else q)
            (getAllProducts s)).
Proof.
  intros s. assert (wf s) as Hwf by apply wf_run, wf_storage.
  assert (ids_ok s) as Hids by apply ids_ok_run, ids_ok_storage.
  split; [|split].
  - intros p. unfold getFeaturedProducts, getAllProducts. apply filter_In.
  - assert (JsMap.get (currentProductId s) (products s) = None) as Hfresh.
    { apply JsMapFacts.get_none_keys. intros Hin.
      pose proof (wf_products_below Hwf) as Hb. rewrite Forall_forall in Hb.
      apply Hb in Hin. lia. }
    unfold getFeaturedProducts.
    cbn [createProduct fst snd products with_products].
    rewrite (JsMapFacts.set_absent _ _ _ Hfresh), values_app, filter_app.
    f_equal. cbn [JsMap.values map snd filter Product.featured].
    destruct (InsertProduct.featured d) as [[|]|]; reflexivity.
  - unfold getFeaturedProducts.
    change (JsMap.values (products (snd (updateProduct id u s))))
      with (getAllProducts (snd (updateProduct id u s))).
    now rewrite getAllProducts_updateProduct.
Qed.

(** ** Users *)

Lemma find_app_first (A : Type) (f : A -> bool) (l l' : list A) :
  find f (l ++ l')%list
  = match find f l with Some x => Some x | None => find f l' end.
Proof.
  induction l as [|x l IH]; simpl; auto. destruct (f x); auto.
Qed.

(** X5. [createUser] in a state reached from the seeded one.  The new user
    gets a fresh identifier, the given name and password, and is never an
    administrator.  [getUser] then finds it under its identifier and the
    other users as before.  [getUserByUsername] finds it under its name
    only if no earlier user has that name: user names are not kept unique,
    and the earliest user of a name is the one found. *)
Theorem createUser_lookup (ops : list op) (d : InsertUser.t) :
  let s := run ops storage in
  let user := fst (createUser d s) in
  let s' := snd (createUser d s) in
  user = User.mk (currentUserId s) (InsertUser.username d)
           (InsertUser.password d) false
  /\ getUser (User.id user) s = None
  /\ getUser (User.id user) s' = Some user
  /\ (forall k, k <> User.id user -> getUser k s' = getUser k s)
  /\ getUserByUsername (InsertUser.username d) s'
     = match getUserByUsername (InsertUser.username d) s with
       | Some earlier => Some earlier
       | None => Some user
       end
  /\ (forall name, name <> InsertUser.username d ->
        getUserByUsername name s' = getUserByUsername name s)
  /\ currentUserId s' = currentUserId s + 1
  /\ products s' = products s /\ cart s' = cart s /\ reviews s' = reviews s.
Proof.
  intros s user s'. subst user s'.
  assert (wf s) as Hwf by apply wf_run, wf_storage.
  assert (JsMap.get (currentUserId s) (users s) = None) as Hfresh.
  { apply JsMapFacts.get_none_keys. intros Hin.
    pose proof (wf_users_below Hwf) as Hb. rewrite Forall_forall in Hb.
    apply Hb in Hin. lia. }
  unfold getUser, getUserByUsername.
  cbn [createUser fst snd users products cart reviews currentUserId with_users
       User.id].
  split; [reflexivity|]. split; [exact Hfresh|].
  split; [apply JsMapFacts.get_set_same|].
  split; [intros k Hk; apply JsMapFacts.get_set_other; congruence|].
  rewrite (JsMapFacts.set_absent _ _ _ Hfresh), values_app.
  split.
  { rewrite find_app_first.
    destruct (find _ (JsMap.values (users s))); auto.
    cbn [JsMap.values map snd find User.username]. now rewrite String.eqb_refl. }
  split.
  { intros name Hname. rewrite find_app_first.
    destruct (find _ (JsMap.values (users s))); auto.
    cbn [JsMap.values map snd find User.username].
    apply not_eq_sym, String.eqb_neq in Hname. now rewrite Hname. }
  repeat split.
Qed.

(** ** Reviews: the sorted lists *)

Section NewestFirst.
Variable getTime : string -> Z.

Lemma insert_newest_first_perm a l :
  Permutation (insert_newest_first getTime a l) (a :: l).
Proof.
  induction l as [|b l IH]; simpl; auto.
  destruct (_ <=? 0); auto.
  rewrite perm_swap. now constructor.
Qed.

Lemma sort_newest_first_perm l : Permutation (sort_newest_first getTime l) l.
Proof.
  induction l as [|a l IH]; simpl; auto.
  rewrite insert_newest_first_perm. now constructor.
Qed.

Lemma insert_newest_first_sorted a l :
  StronglySorted (not_older getTime) l ->
  StronglySorted (not_older getTime) (insert_newest_first getTime a l).
Proof.
  induction 1 as [|b l Hl IH Hb]; simpl.
  - repeat constructor.
  - destruct (_ <=? 0) eqn:E.
    + apply Z.leb_le in E. constructor; [now constructor|].
      constructor; [unfold not_older; lia|].
      eapply Forall_impl; [|exact Hb]. unfold not_older. intros; lia.
    + apply Z.leb_gt in E. constructor; [exact IH|].
      eapply Permutation_Forall;
        [symmetry; apply insert_newest_first_perm|].
      constructor; [unfold not_older; lia|exact Hb].
Qed.

Lemma sort_newest_first_sorted l :
  StronglySorted (not_older getTime) (sort_newest_first getTime l).
Proof.
  induction l as [|a l IH]; simpl; [constructor|].
  now apply insert_newest_first_sorted.
Qed.

Lemma insert_newest_first_created_at t a l :
  created_at getTime t (insert_newest_first getTime a l)
  = created_at getTime t (a :: l).
Proof.
  unfold created_at. induction l as [|b l IH]; simpl; auto.
  destruct (_ <=? 0) eqn:E; [reflexivity|]. apply Z.leb_gt in E.
  simpl. rewrite IH. simpl.
  destruct (getTime (Review.createdAt a) =? t) eqn:Ea; auto.
  apply Z.eqb_eq in Ea.
  destruct (getTime (Review.createdAt b) =? t) eqn:Eb; auto.
  apply Z.eqb_eq in Eb. lia.
Qed.

Lemma sort_newest_first_created_at t l :
  created_at getTime t (sort_newest_first getTime l) = created_at getTime t l.
Proof.
  induction l as [|a l IH]; simpl; auto.
  rewrite insert_newest_first_created_at. unfold created_at in *. simpl.
  now rewrite IH.
Qed.

Lemma sort_newest_first_in q l :
  In q (sort_newest_first getTime l) <-> In q l.
Proof.
  split; apply Permutation_in;
    [apply sort_newest_first_perm|symmetry; apply sort_newest_first_perm].
Qed.

(** X6. [getAllReviews] returns the stored reviews and
    [getApprovedReviews] the approved ones, each exactly once, from the
    newest to the oldest; reviews created at the same time stay in the
    order of their insertion. *)
Theorem reviews_newest_first (s : MemStorage) :
  Permutation (getAllReviews getTime s) (JsMap.values (reviews s))
  /\ Permutation (getApprovedReviews getTime s)
       (filter Review.approved (JsMap.values (reviews s)))
  /\ StronglySorted (not_older getTime) (getAllReviews getTime s)
  /\ StronglySorted (not_older getTime) (getApprovedReviews getTime s)
  /\ (forall t,
        created_at getTime t (getAllReviews getTime s)
        = created_at getTime t (JsMap.values (reviews s)))
  /\ (forall t,
        created_at getTime t (getApprovedReviews getTime s)
        = created_at getTime t
            (filter Review.approved (JsMap.values (reviews s)))).
Proof.
  unfold getAllReviews, getApprovedReviews.
  repeat split;
    auto using sort_newest_first_perm, sort_newest_first_sorted,
      sort_newest_first_created_at.
Qed.
End NewestFirst.

(** ** Reviews: approval and recomputation *)

Lemma updateProductRatings_products (s : MemStorage) k p rest :
  products s = (k, p) :: rest -> Product.id p = k ->
  updateProductRatings s
  = match approvedReviews s with
    | [] => s
    | (_ :: _) as l =>
        with_products ((k, merge_product p (rating_update l)) :: rest)
          (currentProductId s) s
    end.
Proof.
  intros Hp Hid. unfold updateProductRatings. rewrite Hp.
  cbn [JsMap.values map snd].
  destruct (approvedReviews s) as [|r l]; auto.
  unfold updateProduct. rewrite Hp. cbn [JsMap.get]. rewrite Hid, Z.eqb_refl.
  cbn [snd]. now rewrite JsMapFacts.set_cons, Z.eqb_refl.
Qed.

(** Recomputing twice is recomputing once. *)
Lemma updateProductRatings_idempotent (s : MemStorage) :
  first_ok (products s) ->
  updateProductRatings (updateProductRatings s) = updateProductRatings s.
Proof.
  intros (k & p & rest & Hp & Hid).
  rewrite (updateProductRatings_products s Hp Hid).
  destruct (approvedReviews s) as [|r l] eqn:Hl.
  - rewrite (updateProductRatings_products s Hp Hid). now rewrite Hl.
  - erewrite updateProductRatings_products; [|reflexivity|exact Hid].
    unfold approvedReviews in *. cbn [reviews with_products]. rewrite Hl.
    reflexivity.
Qed.

Lemma in_values_set_other (V : Type) (id : V -> Z) k v q (m : JsMap.t V) :
  keyed id m -> JsMap.get k m <> None -> id v = k -> id q <> k ->
  (In q (JsMap.values (JsMap.set k v m)) <-> In q (JsMap.values m)).
Proof.
  intros Hk Hget Hv Hq. rewrite (values_set_keyed _ v Hk Hget).
  rewrite in_map_iff. split.
  - intros (q0 & Hq0 & Hin). destruct (id q0 =? k); congruence.
  - intros Hin. exists q. split; auto.
    destruct (id q =? k) eqn:E; auto. apply Z.eqb_eq in E. contradiction.
Qed.

(** X7. [updateReview] in a state reached from the seeded one.  For an
    identifier that is not stored it returns [undefined] and changes
    nothing.  For a stored review it returns the review with the new
    approval and all else as it was, stores it in the same place and
    recomputes the rating; the review stays in [getAllReviews]; it is in
    [getApprovedReviews] exactly when it was approved by the call; and the
    other reviews are listed as before.  The approved reviews the
    recomputation sees are the stored ones with the updated review in the
    place of the old one; if there are any, the first product takes their
    number and their [averageRating] and keeps its other fields, and if
    there are none it stays as it was. *)
Theorem updateReview_spec (ops : list op) (getTime : string -> Z)
  (id : Z) (approved : bool) :
  let s := run ops storage in
  match getReview id s with
  | None => updateReview id approved s = (None, s)
  | Some review =>
      let review' := with_approved approved review in
      let s' := snd (updateReview id approved s) in
      fst (updateReview id approved s) = Some review'
      /\ s' = updateProductRatings
                (with_reviews (JsMap.set id review' (reviews s))
                   (currentReviewId s) s)
      /\ getReview id s' = Some review'
      /\ (forall k, k <> id -> getReview k s' = getReview k s)
      /\ JsMap.keys (reviews s') = JsMap.keys (reviews s)
      /\ In review' (getAllReviews getTime s')
      /\ (In review' (getApprovedReviews getTime s') <-> approved = true)
      /\ (forall q, Review.id q <> id ->
            (In q (getApprovedReviews getTime s')
             <-> In q (getApprovedReviews getTime s))
            /\ (In q (getAllReviews getTime s')
                <-> In q (getAllReviews getTime s)))
      /\ approvedReviews s'
         = filter Review.approved
             (map (fun q => if Review.id q =? id then review' else q)
                (JsMap.values (reviews s)))
      /\ exists p p',
           first_product s = Some p /\ first_product s' = Some p'
           /\ match approvedReviews s' with
              | [] => p' = p
              | (_ :: _) as l =>
                  Product.rating p' = Some (averageRating l)
                  /\ Product.reviewCount p' = Z.of_nat (List.length l)
                  /\ same_but_rating p p'
              end
  end.
Proof.
  intros s. assert (ids_ok s) as (_ & _ & Hr & _) by apply ids_ok_run, ids_ok_storage.
  unfold getReview, updateReview.
  destruct (JsMap.get id (reviews s)) as [r|] eqn:E; [|reflexivity].
  cbv zeta. cbn [fst snd]. fold (with_approved approved r).
  assert (Review.id r = id) as Hid by (eapply JsMapMore.keyed_get; eauto).
  unfold getAllReviews, getApprovedReviews.
  rewrite !reviews_updateProductRatings. cbn [reviews with_reviews].
  assert (JsMap.get id (JsMap.set id (with_approved approved r) (reviews s))
          = Some (with_approved approved r)) as Hget
    by apply JsMapFacts.get_set_same.
  split; [reflexivity|]. split; [reflexivity|]. split; [exact Hget|].
  split; [intros k Hk; apply JsMapFacts.get_set_other; congruence|].
  split.
  { rewrite JsMapFacts.keys_set. unfold JsMap.has. now rewrite E. }
  split.
  { apply sort_newest_first_in. eapply JsMapMore.get_in_values. exact Hget. }
  split.
  { rewrite sort_newest_first_in, filter_In. split.
    - now intros [_ H].
    - intros ->. split; [|reflexivity].
      eapply JsMapMore.get_in_values. exact Hget. }
  split.
  { intros q Hq. rewrite !sort_newest_first_in, !filter_In.
    assert (In q (JsMap.values (JsMap.set id (with_approved approved r) (reviews s)))
            <-> In q (JsMap.values (reviews s))) as Hin.
    { eapply in_values_set_other with (id := Review.id); eauto; congruence. }
    rewrite Hin. tauto. }
  set (s1 := with_reviews (JsMap.set id (with_approved approved r) (reviews s))
               (currentReviewId s) s).
  rewrite approvedReviews_updateProductRatings.
  split.
  { unfold approvedReviews, s1. cbn [reviews with_reviews]. f_equal.
    apply values_set_keyed with (id := Review.id); [exact Hr|congruence]. }
  assert (wf s) as Hwf by apply wf_run, wf_storage.
  assert (first_ok (products s1)) as Hfirst by apply Hwf.
  destruct (updateProductRatings_first s1 Hfirst) as (p & p' & H1 & H2 & H3).
  exists p, p'. split; [exact H1|]. split; [exact H2|].
  destruct (approvedReviews s1); subst p'; auto.
  split; [reflexivity|]. split; [reflexivity|]. repeat split.
Qed.

(** X8. Approving or unapproving a review twice with the same value is the
    same as doing it once: the second call returns the same review and
    leaves the repository as the first call left it. *)
Theorem updateReview_idempotent (ops : list op) (id : Z) (approved : bool) :
  let s := run ops storage in
  let s' := snd (updateReview id approved s) in
  updateReview id approved s' = (fst (updateReview id approved s), s').
Proof.
  intros s s'. assert (wf s) as Hwf by apply wf_run, wf_storage.
  destruct (JsMap.get id (reviews s)) as [r|] eqn:E.
  - set (s1 := with_reviews (JsMap.set id (with_approved approved r) (reviews s))
                 (currentReviewId s) s).
    assert (updateReview id approved s
            = (Some (with_approved approved r), updateProductRatings s1)) as Hu.
    { unfold updateReview. now rewrite E. }
    subst s'. rewrite Hu. cbn [fst snd].
    assert (first_ok (products s1)) as Hfirst by apply Hwf.
    assert (JsMap.get id (reviews s1) = Some (with_approved approved r)) as Hget
      by apply JsMapFacts.get_set_same.
    pose proof (reviews_updateProductRatings s1) as Hrev.
    pose proof (counters_updateProductRatings s1) as (_ & _ & Hc & _).
    unfold updateReview. rewrite Hrev, Hget. f_equal.
    fold (with_approved approved (with_approved approved r)).
    replace (with_approved approved (with_approved approved r))
      with (with_approved approved r) by reflexivity.
    rewrite (JsMapMore.set_same _ _ Hget).
    rewrite <- Hrev at 1. rewrite with_reviews_same.
    now apply updateProductRatings_idempotent.
  - assert (updateReview id approved s = (None, s)) as Hu.
    { unfold updateReview. now rewrite E. }
    subst s'. rewrite Hu. cbn [fst snd]. exact Hu.
Qed.

Lemma same_but_rating_refl p : same_but_rating p p.
Proof. repeat split. Qed.

Lemma rating_only_recompute (s s1 : MemStorage) :
  first_ok (products s) ->
  products s1 = products s -> users s1 = users s -> cart s1 = cart s ->
  currentUserId s1 = currentUserId s ->
  currentProductId s1 = currentProductId s ->
  currentCartItemId s1 = currentCartItemId s ->
  rating_only s (updateProductRatings s1).
Proof.
  intros (k & p & rest & Hp & Hid) Hp1 Hu Hc Cu Cp Cc.
  rewrite <- Hp1 in Hp.
  rewrite (updateProductRatings_products s1 Hp Hid).
  unfold rating_only, getProduct, first_product.
  destruct (approvedReviews s1) as [|r l];
    cbn [users cart products currentUserId currentProductId currentCartItemId
         with_products]; rewrite <- ?Hp1.
  - repeat (split; [assumption || reflexivity|]).
    intros k0. destruct (JsMap.get k0 (products s1)); auto.
    split; [apply same_but_rating_refl|reflexivity].
  - rewrite Hp. repeat (split; [assumption || reflexivity|]).
    intros k0. cbn [JsMap.get JsMap.values map snd hd_error].
    destruct (k =? k0).
    + split; [repeat split|]. intros H. now contradiction H.
    + destruct (JsMap.get k0 rest); auto.
      split; [apply same_but_rating_refl|reflexivity].
Qed.

Lemma rating_only_refl (s : MemStorage) : rating_only s s.
Proof.
  unfold rating_only. repeat (split; [reflexivity|]).
  intros k. destruct (getProduct k s); auto.
  split; [apply same_but_rating_refl|reflexivity].
Qed.

(** X9. In a state reached from the seeded one, creating, approving,
    unapproving or deleting a review never touches the users, the cart or
    their counters, never adds or removes a product, and changes no field
    of any product other than [rating] and [reviewCount] of the first
    one. *)
Theorem review_operations_touch_rating_only (ops : list op)
  (now : string) (d : InsertReview.t) (id : Z) (approved : bool) :
  let s := run ops storage in
  rating_only s (snd (createReview now d s))
  /\ rating_only s (snd (updateReview id approved s))
  /\ rating_only s (snd (deleteReview id s)).
Proof.
  intros s. assert (wf s) as Hwf by apply wf_run, wf_storage.
  pose proof (wf_first_product Hwf) as Hfirst.
  split; [|split].
  - unfold createReview. cbn [snd]. now apply rating_only_recompute.
  - unfold updateReview. destruct (JsMap.get id (reviews s)); cbn [snd].
    + now apply rating_only_recompute.
    + apply rating_only_refl.
  - unfold deleteReview, JsMap.delete.
    destruct (JsMap.has id (reviews s)) eqn:E; cbn [snd].
    + now apply rating_only_recompute.
    + apply JsMapFacts.has_false in E.
      rewrite (JsMapFacts.remove_absent _ _ E), with_reviews_same.
      apply rating_only_refl.
Qed.

Lemma remove_appended (V : Type) k v (m : JsMap.t V) :
  JsMap.get k m = None -> JsMap.remove k (m ++ [(k, v)])%list = m.
Proof.
  intros H. unfold JsMap.remove. rewrite filter_app. simpl.
  rewrite Z.eqb_refl. simpl. rewrite app_nil_r.
  now apply JsMapFacts.remove_absent.
Qed.

(** X10. Creating a review and deleting it again, in a state reached from
    the seeded one.  The deletion answers [true] and the reviews are those
    of before; only the counter has moved on.  If some review was approved
    before, the products are as a recomputation of the state before leaves
    them.  If none was, the first product keeps what the creation wrote:
    the rating of the deleted review and the count 1. *)
Theorem createReview_deleteReview (ops : list op) (now : string)
  (d : InsertReview.t) :
  let s := run ops storage in
  let r := fst (createReview now d s) in
  let s1 := snd (createReview now d s) in
  let s2 := snd (deleteReview (Review.id r) s1) in
  fst (deleteReview (Review.id r) s1) = true
  /\ reviews s2 = reviews s
  /\ currentReviewId s2 = currentReviewId s + 1
  /\ users s2 = users s /\ cart s2 = cart s
  /\ match approvedReviews s with
     | [] =>
         products s2 = products s1
         /\ exists p,
              first_product s2 = Some p
              /\ Product.rating p = Some (averageRating [r])
              /\ Product.reviewCount p = 1
     | _ :: _ => products s2 = products (updateProductRatings s)
     end.
Proof.
  intros s r s1 s2.
  assert (wf s) as Hwf by apply wf_run, wf_storage.
  destruct (wf_first_product Hwf) as (k & p & rest & Hp & Hid).
  assert (JsMap.get (currentReviewId s) (reviews s) = None) as Hfresh.
  { apply JsMapFacts.get_none_keys. intros Hin.
    pose proof (wf_reviews_below Hwf) as Hb. rewrite Forall_forall in Hb.
    apply Hb in Hin. lia. }
  set (c := currentReviewId s) in *.
  set (s0 := with_reviews (reviews s ++ [(c, r)])%list (c + 1) s).
  assert (s1 = updateProductRatings s0) as Hs1.
  { subst s1 s0 r. unfold createReview. cbn [fst snd]. fold c.
    now rewrite (JsMapFacts.set_absent _ _ _ Hfresh). }
  assert (Review.id r = c) as Hrid by reflexivity.
  assert (Review.approved r = true) as Hrapp by reflexivity.
  assert (approvedReviews s0 = (approvedReviews s ++ [r])%list) as Hl0.
  { unfold approvedReviews, s0. cbn [reviews with_reviews].
    rewrite values_app, filter_app. cbn [JsMap.values map snd filter].
    now rewrite Hrapp. }
  assert (s1 = with_products
                 ((k, merge_product p (rating_update (approvedReviews s ++ [r])%list))
                    :: rest) (currentProductId s) s0) as Hs1'.
  { rewrite Hs1, (updateProductRatings_products s0 Hp Hid), Hl0.
    destruct (approvedReviews s ++ [r])%list eqn:El; [|reflexivity].
    now apply app_eq_nil in El. }
  set (s1' := with_reviews (reviews s) (c + 1) s1).
  assert (s2 = updateProductRatings s1') as Hs2.
  { subst s2. unfold deleteReview, JsMap.delete, JsMap.has.
    rewrite Hrid.
    assert (reviews s1 = (reviews s ++ [(c, r)])%list) as Hr1
      by (rewrite Hs1'; reflexivity).
    assert (currentReviewId s1 = c + 1) as Hc1 by (rewrite Hs1'; reflexivity).
    rewrite Hr1, Hc1.
    rewrite <- (JsMapFacts.set_absent _ r _ Hfresh), JsMapFacts.get_set_same.
    rewrite (JsMapFacts.set_absent _ r _ Hfresh), remove_appended by exact Hfresh.
    reflexivity. }
  pose proof (updateProductRatings_frame s1') as (Fu & Fc & Fr & _ & _ & _ & Fcr).
  split.
  { unfold deleteReview, JsMap.delete, JsMap.has. rewrite Hrid.
    assert (reviews s1 = (reviews s ++ [(c, r)])%list) as Hr1
      by (rewrite Hs1'; reflexivity).
    rewrite Hr1, <- (JsMapFacts.set_absent _ r _ Hfresh), JsMapFacts.get_set_same.
    reflexivity. }
  rewrite Hs2, Fu, Fc, Fr, Fcr.
  split; [reflexivity|]. split; [reflexivity|].
  split; [unfold s1'; rewrite Hs1'; reflexivity|].
  split; [unfold s1'; rewrite Hs1'; reflexivity|].
  assert (products s1' = (k, merge_product p
            (rating_update (approvedReviews s ++ [r])%list)) :: rest) as Hp1'
    by (unfold s1'; rewrite Hs1'; reflexivity).
  assert (approvedReviews s1' = approvedReviews s) as Hl1'
    by (unfold s1', approvedReviews; reflexivity).
  rewrite (updateProductRatings_products s1' Hp1' Hid), Hl1'.
  rewrite (updateProductRatings_products s Hp Hid).
  destruct (approvedReviews s) as [|r0 l0].
  - split; [unfold s1'; reflexivity|].
    unfold first_product. rewrite Hp1'. eexists. split; [reflexivity|].
    split; reflexivity.
  - reflexivity.
Qed.

(** X11. With at least one rating, all between 1 and 5, the recomputed
    rating is one of "1.0" to "5.0": [averageRating] prints a count of
    tenths from 10 to 50. *)
Theorem averageRating_range (l : list Review.t) :
  l <> [] -> rated_1_to_5 l -> Z.of_nat (List.length l) < 2 ^ 46 ->
  exists t, averageRating l = Double.fixed1 t /\ 10 <= t <= 50.
Proof.
  intros Hne Hr Hlen.
  destruct (averageRating_one_decimal Hne Hr Hlen) as (t & Ht & Hnear & _).
  exists t. split; [exact Ht|].
  pose proof (fold_rating_bounds Hr 0) as Hb. fold (rating_sum l) in Hb.
  unfold nearest_tenth in Hnear. apply Z.abs_le in Hnear.
  assert (0 < Z.of_nat (List.length l))
    by (destruct l; [congruence|simpl; lia]).
  nia.
Qed.

Lemma averageRating_range_witness :
  exists t,
    averageRating [Review.mk 1 "Sam" 4 "" true ""; Review.mk 2 "Kim" 5 "" true ""]
    = Double.fixed1 t /\ 10 <= t <= 50.
Proof.
  apply averageRating_range.
  - discriminate.
  - repeat constructor; simpl; lia.
  - simpl. lia.
Defined.

(** ** The cart: lines, quantities and scopes *)

Lemma with_cart_same s : with_cart (cart s) (currentCartItemId s) s = s.
Proof. destruct s; reflexivity. Qed.

Lemma same_line_spec d item :
  same_line d item = true
  <-> line_of item
      = (InsertCartItem.productId d, InsertCartItem.size d,
         InsertCartItem.userId d).
Proof.
  unfold same_line, line_of.
  rewrite !andb_true_iff, Z.eqb_eq, String.eqb_eq, owner_eqb_eq.
  split; [intros [[-> ->] ->]; reflexivity|intros [= -> -> ->]; auto].
Qed.

Lemma values_filter (V : Type) (f : V -> bool) (m : JsMap.t V) :
  JsMap.values (filter (fun e => f (snd e)) m) = filter f (JsMap.values m).
Proof.
  induction m as [|[k v] m IH]; simpl; auto.
  destruct (f v); simpl; now rewrite IH.
Qed.

Lemma nodup_map_filter (A B : Type) (g : A -> B) (f : A -> bool) (l : list A) :
  NoDup (map g l) -> NoDup (map g (filter f l)).
Proof.
  induction l as [|x l IH]; simpl; auto.
  intros H. inversion H as [|? ? Hnotin Hnd]; subst.
  destruct (f x); simpl; auto. constructor; auto.
  intros Hin. apply Hnotin. apply in_map_iff in Hin.
  destruct Hin as (y & Hy & Hin). apply filter_In in Hin.
  apply in_map_iff. exists y. tauto.
Qed.

Lemma lines_remove k (m : JsMap.t CartItem.t) :
  NoDup (map line_of (JsMap.values m)) ->
  NoDup (map line_of (JsMap.values (JsMap.remove k m))).
Proof.
  intros H. unfold JsMap.remove, JsMap.values. rewrite map_map.
  apply nodup_map_filter. now rewrite <- map_map.
Qed.

Lemma lines_updateCartItemQuantity id q s :
  ids_ok s -> lines_distinct s ->
  map line_of (JsMap.values (cart (snd (updateCartItemQuantity id q s))))
  = map line_of (JsMap.values (cart s)).
Proof.
  intros (_ & _ & _ & Hc) Hl. unfold updateCartItemQuantity.
  destruct (JsMap.get id (cart s)) as [item|] eqn:E; cbn [snd cart with_cart]; auto.
  rewrite (values_set_keyed _ _ Hc) by congruence.
  rewrite map_map. apply map_ext_in. intros x Hx.
  destruct (CartItem.id x =? id) eqn:Ex; auto.
  apply Z.eqb_eq in Ex. unfold JsMap.values in Hx. apply in_map_iff in Hx.
  destruct Hx as ([k1 x1] & <- & Hin). simpl in *.
  destruct Hc as [Hnd Hids]. rewrite Forall_forall in Hids.
  pose proof (Hids _ Hin) as Hk. simpl in Hk.
  assert (k1 = id) by congruence. subst k1.
  apply (JsMapFacts.in_get _ _ _ Hnd) in Hin.
  assert (x1 = item) by congruence. subst x1. reflexivity.
Qed.

Lemma lines_exec s o :
  wf s -> ids_ok s -> lines_distinct s -> lines_distinct (exec s o).
Proof.
  intros Hwf Hids Hl. unfold lines_distinct in *.
  pose proof (cart_exec_other s o) as Hframe.
  destruct o; try (rewrite Hframe; exact Hl); clear Hframe; unfold exec.
  - (* addToCart *)
    unfold addToCart.
    destruct (find (same_line insertCartItem) (JsMap.values (cart s))) eqn:F.
    + now rewrite lines_updateCartItemQuantity.
    + cbn [snd cart with_cart].
      assert (JsMap.get (currentCartItemId s) (cart s) = None) as Hfresh.
      { apply JsMapFacts.get_none_keys. intros Hin.
        pose proof (wf_cart_below Hwf) as Hb. rewrite Forall_forall in Hb.
        apply Hb in Hin. lia. }
      rewrite (JsMapFacts.set_absent _ _ _ Hfresh), values_app, map_app.
      apply NoDup_app; auto.
      * repeat constructor. simpl. tauto.
      * intros x Hx [<-|[]]. apply in_map_iff in Hx.
        destruct Hx as (item & Hline & Hin).
        pose proof (find_none _ _ F _ Hin) as Hno.
        assert (same_line insertCartItem item = true); [|congruence].
        apply same_line_spec. rewrite Hline. reflexivity.
  - now rewrite lines_updateCartItemQuantity.
  - cbn [removeFromCart JsMap.delete snd cart with_cart]. now apply lines_remove.
  - cbn [clearCart snd cart with_cart].
    apply JsMapForall.fold_remove_ind
      with (I := fun m => NoDup (map line_of (JsMap.values m))); auto.
    intros. now apply lines_remove.
Qed.

Lemma lines_run ops s :
  wf s -> ids_ok s -> lines_distinct s -> lines_distinct (run ops s).
Proof.
  unfold run. revert s. induction ops as [|o ops IH]; simpl; auto.
  intros s Hwf Hids Hl. apply IH; auto using wf_exec, ids_ok_exec, lines_exec.
Qed.

(** X12. In every state reached from the seeded one the cart holds at most
    one item for a given product, size and owner (an absent owner and a
    [null] owner counting as two owners): repeated [addToCart] calls for
    the same line never leave two records. *)
Theorem cart_lines_distinct (ops : list op) :
  lines_distinct (run ops storage).
Proof.
  apply lines_run.
  - apply wf_storage.
  - apply ids_ok_storage.
  - constructor.
Qed.

(** X13. [updateCartItemQuantity], in any state.  For an identifier that is
    not in the cart it returns [undefined] and changes nothing.  For a
    stored item it returns and stores the item with the given quantity,
    whatever number that is, and leaves every other item, the order of the
    cart and the other collections as they were; of two updates in a row
    the last one wins. *)
Theorem updateCartItemQuantity_spec (id : Z) (q q' : jsnum) (s : MemStorage) :
  match JsMap.get id (cart s) with
  | None => updateCartItemQuantity id q s = (None, s)
  | Some item =>
      let s' := snd (updateCartItemQuantity id q s) in
      fst (updateCartItemQuantity id q s) = Some (with_quantity q item)
      /\ JsMap.get id (cart s') = Some (with_quantity q item)
      /\ (forall k, k <> id -> JsMap.get k (cart s') = JsMap.get k (cart s))
      /\ JsMap.keys (cart s') = JsMap.keys (cart s)
      /\ users s' = users s /\ products s' = products s
      /\ reviews s' = reviews s
      /\ currentCartItemId s' = currentCartItemId s
      /\ updateCartItemQuantity id q' s' = updateCartItemQuantity id q' s
  end.
Proof.
  destruct (JsMap.get id (cart s)) as [item|] eqn:E.
  - assert (updateCartItemQuantity id q s
            = (Some (with_quantity q item),
               with_cart (JsMap.set id (with_quantity q item) (cart s))
                 (currentCartItemId s) s)) as Hu.
    { unfold updateCartItemQuantity. now rewrite E. }
    cbv zeta. rewrite Hu. cbn [fst snd cart users products reviews
                               currentCartItemId with_cart].
    split; [reflexivity|]. split; [apply JsMapFacts.get_set_same|].
    split; [intros k Hk; apply JsMapFacts.get_set_other; congruence|].
    split; [rewrite JsMapFacts.keys_set; unfold JsMap.has; now rewrite E|].
    do 4 (split; [reflexivity|]).
    unfold updateCartItemQuantity. cbn [cart with_cart currentCartItemId].
    rewrite JsMapFacts.get_set_same, E, JsMapMore.set_set. reflexivity.
  - unfold updateCartItemQuantity. now rewrite E.
Qed.

(** X14. [removeFromCart], in any state.  It answers [true] exactly when an
    item with that identifier is in the cart; the item is then gone, every
    other item is where it was, and nothing else changes.  Otherwise it
    answers [false] and the repository is unchanged. *)
Theorem removeFromCart_spec (id : Z) (s : MemStorage) :
  match JsMap.get id (cart s) with
  | Some _ =>
      let s' := snd (removeFromCart id s) in
      fst (removeFromCart id s) = true
      /\ JsMap.get id (cart s') = None
      /\ (forall k, k <> id -> JsMap.get k (cart s') = JsMap.get k (cart s))
      /\ JsMap.keys (cart s')
         = filter (fun k => negb (k =? id)) (JsMap.keys (cart s))
      /\ users s' = users s /\ products s' = products s
      /\ reviews s' = reviews s
      /\ currentCartItemId s' = currentCartItemId s
  | None => removeFromCart id s = (false, s)
  end.
Proof.
  unfold removeFromCart, JsMap.delete, JsMap.has.
  destruct (JsMap.get id (cart s)) as [item|] eqn:E.
  - cbn [fst snd cart users products reviews currentCartItemId with_cart].
    split; [reflexivity|]. split; [apply JsMapFacts.get_remove_same|].
    split; [intros k Hk; apply JsMapFacts.get_remove_other; congruence|].
    split; [apply JsMapFacts.keys_remove|]. repeat split.
  - now rewrite (JsMapFacts.remove_absent _ _ E), with_cart_same.
Qed.

Lemma addToCart_stored (d : InsertCartItem.t) (s : MemStorage) :
  wf s ->
  exists item,
    fst (addToCart d s) = Some item
    /\ JsMap.get (CartItem.id item) (cart (snd (addToCart d s))) = Some item
    /\ line_of item
       = (InsertCartItem.productId d, InsertCartItem.size d,
          InsertCartItem.userId d).
Proof.
  intros Hwf. pose proof (addToCart_cases d Hwf) as Hcases.
  destruct (find (same_line d) (JsMap.values (cart s))) as [x|] eqn:F.
  - destruct Hcases as (H1 & H2 & _). eexists. split; [exact H1|].
    split; [exact H2|]. apply find_some in F. destruct F as [_ F].
    apply same_line_spec in F. exact F.
  - destruct Hcases as (H1 & _ & H2 & _). eexists. split; [exact H1|].
    split; [|reflexivity]. rewrite H2. cbn [CartItem.id].
    rewrite <- (JsMapFacts.set_absent (currentCartItemId s));
      [apply JsMapFacts.get_set_same|].
    apply JsMapFacts.get_none_keys. intros Hin.
    pose proof (wf_cart_below Hwf) as Hb. rewrite Forall_forall in Hb.
    apply Hb in Hin. lia.
Qed.

(** X15. [addToCart] in a state reached from the seeded one always returns
    an item, never [undefined]; the item is stored under its identifier and
    is for the product, size and owner of the request.  An item added
    without owner is listed by [getCartItems()], and an item added for a
    user other than 0 by [getCartItems] of that user. *)
Theorem addToCart_listed (ops : list op) (d : InsertCartItem.t) :
  let s := run ops storage in
  let s' := snd (addToCart d s) in
  exists item,
    fst (addToCart d s) = Some item
    /\ JsMap.get (CartItem.id item) (cart s') = Some item
    /\ line_of item
       = (InsertCartItem.productId d, InsertCartItem.size d,
          InsertCartItem.userId d)
    /\ (InsertCartItem.userId d = None -> In item (getCartItems None s'))
    /\ (forall u, u <> 0 -> InsertCartItem.userId d = Some (NotNull u) ->
          In item (getCartItems (Some u) s')).
Proof.
  intros s s'. subst s'.
  assert (wf s) as Hwf by apply wf_run, wf_storage.
  destruct (addToCart_stored d Hwf) as (item & H1 & H2 & H3).
  exists item. split; [exact H1|]. split; [exact H2|]. split; [exact H3|].
  assert (CartItem.userId item = InsertCartItem.userId d) as Hown
    by (unfold line_of in H3; congruence).
  apply JsMapMore.get_in_values in H2.
  split.
  - intros Hnone. apply getCartItems_scope. split; [exact H2|congruence].
  - intros u Hu Hsome.
    apply (proj1 (proj2 (getCartItems_scope (snd (addToCart d s)) item)) u Hu).
    split; [exact H2|congruence].
Qed.

Lemma find_line_unique (l : list CartItem.t) d x y :
  NoDup (map line_of l) -> In x l -> In y l ->
  same_line d x = true -> same_line d y = true -> x = y.
Proof.
  intros Hnd Hx Hy Sx Sy. apply same_line_spec in Sx, Sy.
  assert (line_of x = line_of y) as Heq by congruence. clear Sx Sy.
  induction l as [|z l IH]; [contradiction|].
  simpl in Hnd. inversion Hnd as [|? ? Hnotin Hnd']; subst.
  destruct Hx as [->|Hx], Hy as [->|Hy]; auto.
  - exfalso. apply Hnotin. rewrite Heq. now apply in_map.
  - exfalso. apply Hnotin. rewrite <- Heq. now apply in_map.
Qed.

(** X16. Removing the item that [addToCart] returned, in a state reached
    from the seeded one: the removal answers [true], the cart then holds no
    item for that product, size and owner, and if [addToCart] had created
    the item, the cart is the one of before. *)
Theorem addToCart_removeFromCart (ops : list op) (d : InsertCartItem.t) :
  let s := run ops storage in
  let s1 := snd (addToCart d s) in
  exists item,
    fst (addToCart d s) = Some item
    /\ fst (removeFromCart (CartItem.id item) s1) = true
    /\ find (same_line d)
         (JsMap.values (cart (snd (removeFromCart (CartItem.id item) s1))))
       = None
    /\ (find (same_line d) (JsMap.values (cart s)) = None ->
        cart (snd (removeFromCart (CartItem.id item) s1)) = cart s).
Proof.
  intros s s1.
  assert (wf s) as Hwf by apply wf_run, wf_storage.
  assert (ids_ok s) as Hids by apply ids_ok_run, ids_ok_storage.
  assert (lines_distinct s) as Hl by (apply lines_run;
    [apply wf_storage|apply ids_ok_storage|constructor]).
  assert (ids_ok s1) as Hids1 by apply (ids_ok_exec (AddToCart d) Hids).
  assert (lines_distinct s1) as Hl1 by apply (lines_exec (AddToCart d) Hwf Hids Hl).
  destruct (addToCart_stored d Hwf) as (item & H1 & H2 & H3). fold s1 in H2.
  exists item. split; [exact H1|].
  cbn [removeFromCart JsMap.delete fst snd cart with_cart].
  split; [unfold JsMap.has; now rewrite H2|].
  split.
  - destruct (find _ _) as [y|] eqn:F; auto. exfalso.
    apply find_some in F. destruct F as [Hy Sy].
    unfold JsMap.values in Hy. apply in_map_iff in Hy.
    destruct Hy as ([k y'] & Hy' & Hin). simpl in Hy'. subst y'.
    unfold JsMap.remove in Hin. apply filter_In in Hin.
    destruct Hin as [Hin Hk]. simpl in Hk.
    destruct Hids1 as (_ & _ & _ & Hc1).
    assert (CartItem.id y = k) as Hyk.
    { destruct Hc1 as [_ Hf]. rewrite Forall_forall in Hf. exact (Hf _ Hin). }
    assert (y = item).
    { apply (@find_line_unique (JsMap.values (cart s1)) d); auto.
      - unfold JsMap.values. apply in_map_iff. now exists (k, y).
      - eapply JsMapMore.get_in_values. exact H2.
      - apply same_line_spec. exact H3. }
    subst y. rewrite Hyk, Z.eqb_refl in Hk. discriminate.
  - intros F. pose proof (addToCart_cases d Hwf) as Hcases.
    fold s in Hcases. rewrite F in Hcases.
    destruct Hcases as (E1 & Hfresh & E2 & _). fold s1 in E2.
    rewrite E1 in H1. injection H1 as <-. cbn [CartItem.id]. rewrite E2.
    apply remove_appended. now apply JsMapFacts.get_none_keys.
Qed.

Lemma filter_comm (A : Type) (f g : A -> bool) (l : list A) :
  filter f (filter g l) = filter g (filter f l).
Proof.
  induction l as [|x l IH]; simpl; auto.
  destruct (f x) eqn:Ef, (g x) eqn:Eg; simpl; rewrite ?Ef, ?Eg, IH; reflexivity.
Qed.

Lemma filter_none (A : Type) (f : A -> bool) (l : list A) :
  filter f (filter (fun x => negb (f x)) l) = [].
Proof.
  induction l as [|x l IH]; simpl; auto.
  destruct (f x) eqn:E; simpl; rewrite ?E; auto.
Qed.

Lemma filter_all (A : Type) (f : A -> bool) (l : list A) :
  (forall x, In x l -> f x = true) -> filter f l = l.
Proof.
  induction l as [|x l IH]; simpl; auto. intros H.
  rewrite (H x) by auto. f_equal. apply IH. auto.
Qed.

Lemma getCartItems_clearCart u u' s :
  wf s ->
  getCartItems u' (snd (clearCart u s))
  = filter (fun item => negb (in_scope u item)) (getCartItems u' s).
Proof.
  intros Hwf. unfold getCartItems.
  destruct (clearCart_scope u Hwf) as (_ & -> & _).
  rewrite (values_filter (fun item => negb (in_scope u item))).
  apply filter_comm.
Qed.

(** X17. [clearCart] and [getCartItems] agree on their scope, in every
    state reached from the seeded one.  After [clearCart] with some
    argument, [getCartItems] with the same argument is empty, whatever the
    argument, and a second [clearCart] changes nothing.  Any other list of
    [getCartItems] loses the items of the cleared scope and keeps the rest
    in order; so clearing the guest cart leaves the list of each user other
    than 0 as it was, and clearing the cart of such a user leaves the guest
    list as it was. *)
Theorem clearCart_then_getCartItems (ops : list op) (u u' : option Z) :
  let s := run ops storage in
  let s' := snd (clearCart u s) in
  getCartItems u s' = []
  /\ clearCart u s' = (true, s')
  /\ getCartItems u' s'
     = filter (fun item => negb (in_scope u item)) (getCartItems u' s)
  /\ (forall v, v <> 0 ->
        getCartItems (Some v) (snd (clearCart None s)) = getCartItems (Some v) s
        /\ getCartItems None (snd (clearCart (Some v) s)) = getCartItems None s).
Proof.
  intros s s'. subst s'. assert (wf s) as Hwf by apply wf_run, wf_storage.
  split; [|split; [|split]].
  - rewrite getCartItems_clearCart by exact Hwf. unfold getCartItems.
    rewrite filter_comm. apply filter_none.
  - assert (wf (snd (clearCart u s))) as Hwf' by now apply wf_clearCart.
    destruct (clearCart_scope u Hwf) as (_ & Hcart & _).
    destruct (clearCart_scope u Hwf') as (_ & Hcart' & _).
    assert (cart (snd (clearCart u (snd (clearCart u s))))
            = cart (snd (clearCart u s))) as Hsame.
    { rewrite Hcart'. apply filter_all. intros e He.
      rewrite Hcart in He. apply filter_In in He. tauto. }
    unfold clearCart at 1. f_equal.
    change (fold_left _ _ _) with (cart (snd (clearCart u (snd (clearCart u s))))).
    rewrite Hsame. apply with_cart_same.
  - now apply getCartItems_clearCart.
  - intros v Hv. rewrite !getCartItems_clearCart by exact Hwf.
    unfold getCartItems. split; apply filter_all; intros item Hin;
      apply filter_In in Hin; destruct Hin as [_ Hin];
      unfold in_scope, truthy in *; apply Z.eqb_neq in Hv; rewrite Hv in *;
      cbn [negb] in *; apply owner_eqb_eq in Hin; rewrite Hin; reflexivity.
Qed.

(** X18. The list that [GET /api/cart] answers with, in a state reached
    from the seeded one: the guest items of [getCartItems()], in order, and
    with each the product stored under the item's [productId], or [null]
    when no product has that identifier.  Items that have an owner are
    never in it. *)
Theorem cartWithDetails_spec (ops : list op) :
  let s := run ops storage in
  cartWithDetails s
  = map (fun item =>
           (item,
            match getProduct (CartItem.productId item) s with
            | Some product => NotNull product
            | None => Null
            end))
      (getCartItems None s)
  /\ map fst (cartWithDetails s) = getCartItems None s
  /\ (forall item product,
        In (item, product) (cartWithDetails s) -> CartItem.userId item = None).
Proof.
  intros s. assert (ids_ok s) as (_ & Hp & _) by apply ids_ok_run, ids_ok_storage.
  assert (cartWithDetails s
          = map (fun item =>
                   (item,
                    match getProduct (CartItem.productId item) s with
                    | Some product => NotNull product
                    | None => Null
                    end))
              (getCartItems None s)) as Heq.
  { unfold cartWithDetails, getAllProducts, getProduct. apply map_ext.
    intros item. now rewrite (JsMapMore.find_by_id _ Hp). }
  split; [exact Heq|]. split.
  - rewrite Heq, map_map. apply map_id.
  - intros item product Hin. rewrite Heq in Hin. apply in_map_iff in Hin.
    destruct Hin as (x & [= -> _] & Hx).
    now apply (proj1 (getCartItems_scope s item)) in Hx.
Qed.

(** ** The administrator's gate *)

Lemma requireAdmin_next (decode : string -> string) (header : string)
  (s : MemStorage) :
  wf s ->
  (requireAdmin decode (Some header) s = CallNext <->
   String.prefix "Basic " header = true
   /\ exists rest,
        split_on ":" (decode (nth 1 (split_on " " header) ""))
        = "admin" :: "admin123" :: rest).
Proof.
  intros Hwf. unfold requireAdmin.
  destruct (String.prefix "Basic " header); cbn [negb];
    [|split; [discriminate|intros [? _]; discriminate]].
  destruct (split_on ":" _) as [|username [|password rest]].
  - split; [discriminate|intros (_ & rest & ?); discriminate].
  - split; [discriminate|intros (_ & rest & ?); discriminate].
  - destruct (verifyAdmin username password s) eqn:V.
    + apply (verifyAdmin_wf username password Hwf) in V. destruct V as [-> ->].
      split; eauto.
    + split; [discriminate|]. intros (_ & rest' & [= -> -> _]).
      assert (verifyAdmin "admin" "admin123" s = true)
        by now apply (verifyAdmin_wf "admin" "admin123" Hwf).
      congruence.
Qed.

(** X19. [requireAdmin], whatever the repository did since it was seeded.
    It answers 401 exactly when the request has no [authorization] header
    or one that does not start with "Basic ".  It lets the request through
    exactly when the decoded credentials, cut at their colons, begin with
    "admin" and "admin123"; what follows a second colon is not compared, so
    the credentials "admin:admin123:" followed by anything are accepted.
    Every other request is answered 403. *)
Theorem requireAdmin_spec (decode : string -> string) (ops : list op)
  (header : string) :
  let s := run ops storage in
  let credentials := decode (nth 1 (split_on " " header) "") in
  requireAdmin decode None s = Unauthorized401
  /\ (requireAdmin decode (Some header) s = Unauthorized401 <->
      String.prefix "Basic " header = false)
  /\ (requireAdmin decode (Some header) s = CallNext <->
      String.prefix "Basic " header = true
      /\ exists rest,
           split_on ":" credentials = "admin" :: "admin123" :: rest)
  /\ (forall token extra,
        decode (hd "" (split_on " " token))
        = "admin:admin123:" ++ extra ->
        requireAdmin decode (Some ("Basic " ++ token)) s = CallNext).
Proof.
  intros s credentials. assert (wf s) as Hwf by apply wf_run, wf_storage.
  split; [reflexivity|]. split; [|split].
  - unfold requireAdmin.
    destruct (String.prefix "Basic " header); cbn [negb];
      [|split; reflexivity].
    split; [|discriminate].
    destruct (split_on ":" _) as [|username [|password rest]]; try discriminate.
    destruct (verifyAdmin username password s); discriminate.
  - now apply requireAdmin_next.
  - intros token extra Hdec. apply requireAdmin_next; [exact Hwf|].
    split; [simpl; destruct token; reflexivity|].
    assert (nth 1 (split_on " " ("Basic " ++ token)) ""
            = hd "" (split_on " " token)) as ->.
    { cbn [append split_on Ascii.eqb Bool.eqb].
      destruct (split_on " " token); reflexivity. }
    rewrite Hdec. exists (split_on ":" extra).
    cbn [append split_on Ascii.eqb Bool.eqb].
    destruct (split_on ":" extra) eqn:E; [|reflexivity].
    destruct extra as [|c extra]; simpl in E; [discriminate|].
    destruct (Ascii.eqb c ":"); [discriminate|].
    destruct (split_on ":" extra); discriminate.
Qed.
